(** * monorepolint core: the rule execution engine of [check.ts]

    A shallow embedding of [packages/core/src/check.ts]: the run
    orchestrator [check], the package checker [checkPackage] and the skip
    decision [shouldSkipPackage], together with the statistics they keep.

    The TypeScript code is effectful: it mutates a [Map] of statistic
    buckets, two module-level counters, the [failed] flag of context
    objects, reads a monotonic clock and prints.  All of that lives in one
    explicit [World]; a computation is a function from a world to a result
    (a value or a thrown exception) and the world it leaves behind.  A
    thrown exception keeps every mutation made before it, as in JavaScript. *)

From Stdlib Require Import ZArith List String Ascii Bool Arith Lia.
From Stdlib Require Import Sorted Permutation.
Import ListNotations.

Local Open Scope string_scope.
Local Open Scope Z_scope.
Local Open Scope list_scope.

(** ** Node's [path] module (POSIX flavour) *)

Module Path.

Definition isSlash (c : ascii) : bool := Ascii.eqb c "/"%char.

(** [segmentsFrom cur s]: the pieces of [s] between slashes, [cur] being
    the piece read so far. *)
Fixpoint segmentsFrom (cur : string) (s : string) : list string :=
  match s with
  | EmptyString => [cur]
  | String c s' =>
      if isSlash c then cur :: segmentsFrom "" s'
      else segmentsFrom (cur ++ String c "")%string s'
  end.

(** [normalizeString]: drop empty and ["."] pieces, let [".."] remove the
    piece before it (nothing above the root).  [acc] is reversed. *)
Fixpoint normalizeSegments (acc : list string) (segs : list string) : list string :=
  match segs with
  | [] => rev acc
  | seg :: rest =>
      if String.eqb seg "" then normalizeSegments acc rest
      else if String.eqb seg "." then normalizeSegments acc rest
      else if String.eqb seg ".." then normalizeSegments (tl acc) rest
      else normalizeSegments (seg :: acc) rest
  end.

Fixpoint joinSegments (segs : list string) : string :=
  match segs with
  | [] => ""
  | seg :: rest => ("/" ++ seg ++ joinSegments rest)%string
  end.

Definition isAbsolute (p : string) : bool :=
  match p with
  | String c _ => isSlash c
  | EmptyString => false
  end.

(** [path.resolve(p)] with one argument: an absolute [p] is normalised, a
    relative one is taken from the process's working directory. *)
Definition resolve (processCwd : string) (p : string) : string :=
  let full := if isAbsolute p then p else (processCwd ++ "/" ++ p)%string in
  match normalizeSegments [] (segmentsFrom "" full) with
  | [] => "/"
  | segs => joinSegments segs
  end.

Fixpoint dropWhile (f : ascii -> bool) (l : list ascii) : list ascii :=
  match l with
  | [] => []
  | c :: l' => if f c then dropWhile f l' else l
  end.

(** [path.dirname(p)]: scan from the end, skip trailing slashes, then cut
    at the last slash in front of the final piece. *)
Definition dirname (p : string) : string :=
  match list_ascii_of_string p with
  | [] => "."
  | c0 :: rest =>
      let hasRoot := isSlash c0 in
      let afterTrailing := dropWhile isSlash (rev rest) in
      match dropWhile (fun c => negb (isSlash c)) afterTrailing with
      | [] => if hasRoot then "/" else "."
      | _ :: before =>
          match before with
          | [] => if hasRoot then "//" else string_of_list_ascii [c0]
          | _ => string_of_list_ascii (c0 :: rev before)
          end
      end
  end.

End Path.

(** ** Data model *)

(** A rule's [options] is an arbitrary JSON value. *)
#[local] Unset Elimination Schemes.
Inductive Json : Type :=
| JNull
| JBool (b : bool)
| JNumber (n : Z)
| JString (s : string)
| JArray (items : list Json)
| JObject (fields : list (string * Json)).
#[local] Set Elimination Schemes.

(** A context object.  [addr] is the identity of the JavaScript object
    ([===] compares it), [parent] the workspace context that created it
    ([None] for the workspace context itself).  The mutable [failed] flag
    of the object lives in the [World], at [addr]. *)
Record Context : Type := mkContext {
  addr : nat;
  packageDir : string;
  parent : option nat
}.

(** What one call of a rule's asynchronous [check(context, options, {id})]
    does to the run: it may record an error on the context it was given,
    and its promise resolves or rejects.  A promise that never settles is
    not represented. *)
Record CheckEffect : Type := mkCheckEffect {
  addsError : bool;
  rejects : bool
}.

Module Rule.

(** [ResolvedRule].  [optionsRuntype o = true] when
    [optionsRuntype.check(o)] returns, [false] when it throws.  [check]
    is given the context and the current value of its [failed] flag.
    [printStats] is a function reference, compared by identity. *)
Record t : Type := mk {
  id : string;
  name : option string;
  options : Json;
  optionsRuntype : Json -> bool;
  includePackages : option (list string);
  excludePackages : option (list string);
  includeWorkspaceRoot : option bool;
  check : Context -> bool -> Json -> CheckEffect;
  printStats : option nat
}.

(** [ruleConfig.name ?? "unknown"] *)
Definition displayName (r : t) : string :=
  match name r with
  | Some n => n
  | None => "unknown"
  end.

End Rule.

Record ResolvedConfig : Type := mkConfig {
  rules : list Rule.t;
  verbose : bool
}.

(** JavaScript truthiness of an optional boolean. *)
Definition truthy (b : option bool) : bool :=
  match b with
  | Some true => true
  | _ => false
  end.

(** The file system as the run sees it.  The lookups are functions: a
    [getName] that throws (lines 157, 217 and 224) is not represented, so
    what is proved of a call that returns, or of a run that resolves, holds
    of the executions in which these lookups return. *)
Record Host : Type := mkHost {
  findWorkspaceDir : string -> option string;
  getWorkspacePackageDirs : string -> list string;
  getName : string -> string
}.

(** The process and the glob collaborator: [process.cwd()], the successive
    readings of [process.hrtime.bigint()], [matchesAnyGlob] and whether it
    carries a [printStats] hook.  [matchesAnyGlob] is a function: a match
    that throws is not represented. *)
Record Runtime : Type := mkRuntime {
  processCwd : string;
  hrtime : nat -> Z;
  matchesAnyGlob : string -> list string -> bool;
  globHasPrintStats : bool
}.

Module Stats.

(** One value of [stats.perRule]. *)
Record Bucket : Type := mkBucket {
  name : string;
  totalTime : Z;
  executions : Z
}.

(** A JavaScript [Map] keeps its keys in insertion order, and the report
    sorts its values with a stable sort: an association list whose keys
    are pairwise different, new keys at the end. *)
Definition PerRule : Type := list (string * Bucket).

Fixpoint get (k : string) (m : PerRule) : option Bucket :=
  match m with
  | [] => None
  | (k', v) :: m' => if String.eqb k' k then Some v else get k m'
  end.

Fixpoint set (k : string) (v : Bucket) (m : PerRule) : PerRule :=
  match m with
  | [] => [(k, v)]
  | (k', v') :: m' =>
      if String.eqb k' k then (k, v) :: m' else (k', v') :: set k v m'
  end.

Definition keys (m : PerRule) : list string := map fst m.

Definition size (m : PerRule) : nat := List.length m.

Definition sumExecutions (m : PerRule) : Z :=
  fold_right (fun kv acc => executions (snd kv) + acc) 0 m.

(** Mutating the object stored under [k]. *)
Definition modify (k : string) (f : Bucket -> Bucket) (m : PerRule) : PerRule :=
  match get k m with
  | Some v => set k (f v) m
  | None => m
  end.

(** [Array.from(values).sort(cmp)], ascending [totalTime], stable. *)
Fixpoint insertSorted (b : Bucket) (l : list Bucket) : list Bucket :=
  match l with
  | [] => [b]
  | b' :: l' =>
      if totalTime b <=? totalTime b' then b :: l
      else b' :: insertSorted b l'
  end.

Definition sortByTotalTime (l : list Bucket) : list Bucket :=
  fold_right insertSorted [] l.

End Stats.

(** ** Effects *)

(** What the run does that an observer outside can see, in the order it
    happens. *)
Inductive Event : Type :=
| EvValidate (ruleId : string)
| EvLog (line : string)
| EvCheckStart (context : Context) (ruleId : string)
| EvCheckResolved (context : Context) (ruleId : string)
| EvFinish (context : Context)
| EvCostPerRule (rows : list (Z * string * Z * Z))
| EvGlobPrintStats
| EvIncludesExcludesCosts (includes excludes : Z)
| EvRandomStats (packages configValidation oldConfigValidation total : Z)
| EvPrintStats (fn : nat).

(** The mutable state: the [failed] flag of every context object, the next
    free object address, the locals [stats.perRule] and [packagesChecked] of
    [check], the module-level [includesCost] and [excludesCost], how many
    times the clock was read, the calls made to [matchesAnyGlob] and the
    events so far. *)
Record World : Type := mkWorld {
  failed : nat -> bool;
  nextAddr : nat;
  perRule : Stats.PerRule;
  packagesChecked : Z;
  includesCost : Z;
  excludesCost : Z;
  clockReads : nat;
  globCalls : list (string * list string);
  trace : list Event
}.

Inductive Result (A : Type) : Type :=
| Ok (a : A)
| Throw (message : string).

Arguments Ok {A} a.
Arguments Throw {A} message.

Definition M (A : Type) : Type := World -> Result A * World.

Definition ret {A : Type} (a : A) : M A := fun w => (Ok a, w).

Definition bind {A B : Type} (m : M A) (k : A -> M B) : M B :=
  fun w =>
    match m w with
    | (Ok a, w') => k a w'
    | (Throw e, w') => (Throw e, w')
    end.

Definition throw {A : Type} (message : string) : M A :=
  fun w => (Throw message, w).

Declare Scope run_scope.
Delimit Scope run_scope with run.
Notation "x <- m ;; k" := (bind m (fun x => k))
  (at level 61, m at next level, right associativity) : run_scope.
Notation "m ;; k" := (bind m (fun _ => k))
  (at level 61, right associativity) : run_scope.
Local Open Scope run_scope.

(** [for (const x of l) body(x)] *)
Fixpoint forEach {A : Type} (l : list A) (body : A -> M unit) : M unit :=
  match l with
  | [] => ret tt
  | x :: l' => body x ;; forEach l' body
  end.

Definition emit (e : Event) : M unit :=
  fun w =>
    (Ok tt,
     mkWorld (failed w) (nextAddr w) (perRule w) (packagesChecked w)
       (includesCost w) (excludesCost w) (clockReads w) (globCalls w)
       (trace w ++ [e])).

(** [process.hrtime.bigint()] *)
Definition now (rt : Runtime) : M Z :=
  fun w =>
    (Ok (hrtime rt (clockReads w)),
     mkWorld (failed w) (nextAddr w) (perRule w) (packagesChecked w)
       (includesCost w) (excludesCost w) (S (clockReads w)) (globCalls w)
       (trace w)).

Definition addExcludesCost (d : Z) : M unit :=
  fun w =>
    (Ok tt,
     mkWorld (failed w) (nextAddr w) (perRule w) (packagesChecked w)
       (includesCost w) (excludesCost w + d) (clockReads w) (globCalls w)
       (trace w)).

Definition addIncludesCost (d : Z) : M unit :=
  fun w =>
    (Ok tt,
     mkWorld (failed w) (nextAddr w) (perRule w) (packagesChecked w)
       (includesCost w + d) (excludesCost w) (clockReads w) (globCalls w)
       (trace w)).

(** [matchesAnyGlob(name, patterns)] *)
Definition callMatchesAnyGlob (rt : Runtime) (n : string) (patterns : list string) : M bool :=
  fun w =>
    (Ok (matchesAnyGlob rt n patterns),
     mkWorld (failed w) (nextAddr w) (perRule w) (packagesChecked w)
       (includesCost w) (excludesCost w) (clockReads w)
       (globCalls w ++ [(n, patterns)]) (trace w)).

Definition setPerRule (m : Stats.PerRule) : M unit :=
  fun w =>
    (Ok tt,
     mkWorld (failed w) (nextAddr w) m (packagesChecked w)
       (includesCost w) (excludesCost w) (clockReads w) (globCalls w)
       (trace w)).

Definition updatePerRule (f : Stats.PerRule -> Stats.PerRule) : M unit :=
  fun w => setPerRule (f (perRule w)) w.

Definition setPackagesChecked (n : Z) : M unit :=
  fun w =>
    (Ok tt,
     mkWorld (failed w) (nextAddr w) (perRule w) n
       (includesCost w) (excludesCost w) (clockReads w) (globCalls w)
       (trace w)).

(** [packagesChecked++] *)
Definition incrPackagesChecked : M unit :=
  fun w => setPackagesChecked (packagesChecked w + 1) w.

Definition setFailed (a : nat) (b : bool) : M unit :=
  fun w =>
    (Ok tt,
     mkWorld (fun a' => if Nat.eqb a' a then b else failed w a')
       (nextAddr w) (perRule w) (packagesChecked w)
       (includesCost w) (excludesCost w) (clockReads w) (globCalls w)
       (trace w)).

Definition getFailed (a : nat) : M bool :=
  fun w => (Ok (failed w a), w).

(** Allocating a context object: a fresh address, [failed = false]. *)
Definition newContext (dir : string) (owner : option nat) : M Context :=
  fun w =>
    (Ok (mkContext (nextAddr w) dir owner),
     mkWorld (fun a' => if Nat.eqb a' (nextAddr w) then false else failed w a')
       (S (nextAddr w)) (perRule w) (packagesChecked w)
       (includesCost w) (excludesCost w) (clockReads w) (globCalls w)
       (trace w)).

(** ** The contexts

    [Context.ts] and [WorkspaceContext.ts] are not part of the sources at
    hand; the operations [check.ts] calls on them follow the
    specification's data model. *)

(** Modelled from the spec: the constructor of [WorkspaceContext], missing
    from the sources.  The workspace context is the root scope: it has no
    owner and starts with [failed = false]. *)
Definition newWorkspaceContext (workspaceDir : string) : M Context :=
  newContext workspaceDir None.

(** Modelled from the spec: [WorkspaceContext.createChildContext], missing
    from the sources.  A scope context for one package directory, created
    once per checked scope, holding a reference to its owning workspace
    context. *)
Definition createChildContext (workspaceContext : Context) (dir : string) : M Context :=
  newContext dir (Some (addr workspaceContext)).

(** Modelled from the spec: [Context.getWorkspaceContext], missing from the
    sources.  The reference a scope holds to its owning workspace context;
    the workspace context owns itself. *)
Definition getWorkspaceContext (context : Context) : nat :=
  match parent context with
  | Some ws => ws
  | None => addr context
  end.

(** [context.getWorkspaceContext() === context] *)
Definition isWorkspaceContext (context : Context) : bool :=
  Nat.eqb (getWorkspaceContext context) (addr context).

(** Modelled from the spec: [Context.addError], missing from the sources.
    A rule's check signals failure by mutating the scope's state: the
    [failed] flag local to the scope is set. *)
Definition addError (context : Context) : M unit :=
  setFailed (addr context) true.

(** Modelled from the spec: [Context.finish], missing from the sources.
    It flushes the scope's result into the owning workspace context, whose
    [failed] flag only ever goes from false to true. *)
Definition finish (context : Context) : M unit :=
  emit (EvFinish context) ;;
  match parent context with
  | Some ws =>
      mine <- getFailed (addr context) ;;
      theirs <- getFailed ws ;;
      setFailed ws (theirs || mine)
  | None => ret tt
  end.

(** ** [check.ts] *)

(** [shouldSkipPackage(context, ruleConfig)], lines 206-230. *)
Definition shouldSkipPackage (rt : Runtime) (host : Host)
    (context : Context) (ruleConfig : Rule.t) : M bool :=
  if negb (truthy (Rule.includeWorkspaceRoot ruleConfig)) && isWorkspaceContext context
  then ret true
  else
    t <- now rt ;;
    addExcludesCost (- t) ;;
    exclude <- match Rule.excludePackages ruleConfig with
               | Some patterns =>
                   callMatchesAnyGlob rt (getName host (packageDir context)) patterns
               | None => ret false
               end ;;
    t <- now rt ;;
    addExcludesCost t ;;
    if exclude then ret true
    else
      t <- now rt ;;
      addIncludesCost (- t) ;;
      include <- match Rule.includePackages ruleConfig with
                 | None => ret true
                 | Some patterns =>
                     callMatchesAnyGlob rt (getName host (packageDir context)) patterns
                 end ;;
      t <- now rt ;;
      addIncludesCost t ;;
      if negb include then ret true else ret false.

(** [await ruleConfig.check(context, ruleConfig.options, { id })], line 177:
    the call starts, the rule may record an error on the context, and the
    awaited promise resolves or rejects; a rejection is rethrown by
    [await]. *)
Definition awaitRuleCheck (context : Context) (ruleConfig : Rule.t) : M unit :=
  emit (EvCheckStart context (Rule.id ruleConfig)) ;;
  seen <- getFailed (addr context) ;;
  let effect := Rule.check ruleConfig context seen (Rule.options ruleConfig) in
  (if addsError effect then addError context else ret tt) ;;
  if rejects effect
  then throw "rule check rejected"
  else emit (EvCheckResolved context (Rule.id ruleConfig)).

(** The [data] object of one loop iteration is the object stored in the
    map under [ruleName]: every mutation of it is a mutation of the map's
    value. *)
Definition lookupOrCreate (ruleName : string) (m : Stats.PerRule) : Stats.PerRule :=
  match Stats.get ruleName m with
  | Some data => Stats.set ruleName data m
  | None => Stats.set ruleName (Stats.mkBucket ruleName 0 0) m
  end.

Definition incrExecutions (data : Stats.Bucket) : Stats.Bucket :=
  Stats.mkBucket (Stats.name data) (Stats.totalTime data) (Stats.executions data + 1).

Definition addTotalTime (d : Z) (data : Stats.Bucket) : Stats.Bucket :=
  Stats.mkBucket (Stats.name data) (Stats.totalTime data + d) (Stats.executions data).

(** The body of the loop of [checkPackage], lines 160-178. *)
Definition ruleIteration (rt : Runtime) (host : Host)
    (context : Context) (ruleConfig : Rule.t) : M unit :=
  let ruleName := Rule.displayName ruleConfig in
  updatePerRule (lookupOrCreate ruleName) ;;
  updatePerRule (Stats.modify ruleName incrExecutions) ;;
  t <- now rt ;;
  updatePerRule (Stats.modify ruleName (addTotalTime (- t))) ;;
  skip <- shouldSkipPackage rt host context ruleConfig ;;
  if skip
  then
    t <- now rt ;;
    updatePerRule (Stats.modify ruleName (addTotalTime t))
  else
    awaitRuleCheck context ruleConfig ;;
    t <- now rt ;;
    updatePerRule (Stats.modify ruleName (addTotalTime t)).

(** The verbose line at the start of [checkPackage], lines 155-158. *)
Definition announce (host : Host) (resolvedConfig : ResolvedConfig)
    (context : Context) : M unit :=
  if verbose resolvedConfig
  then emit (EvLog ("Starting check against " ++ getName host (packageDir context)))
  else ret tt.

(** [checkPackage(context, stats)], lines 149-181. *)
Definition checkPackage (rt : Runtime) (host : Host) (resolvedConfig : ResolvedConfig)
    (context : Context) : M unit :=
  announce host resolvedConfig context ;;
  forEach (rules resolvedConfig) (ruleIteration rt host context) ;;
  finish context.

(** [ruleConfig.optionsRuntype.check(ruleConfig.options)], line 32. *)
Definition validateOptions (ruleConfig : Rule.t) : M unit :=
  emit (EvValidate (Rule.id ruleConfig)) ;;
  if Rule.optionsRuntype ruleConfig (Rule.options ruleConfig)
  then ret tt
  else throw "options do not match the rule's runtype".

(** Division of two [bigint]s: truncating, a [RangeError] on zero. *)
Definition bigintDiv (a b : Z) : M Z :=
  if b =? 0 then throw "RangeError: Division by zero" else ret (Z.quot a b).

Fixpoint mapM {A B : Type} (f : A -> M B) (l : list A) : M (list B) :=
  match l with
  | [] => ret []
  | x :: l' => y <- f x ;; ys <- mapM f l' ;; ret (y :: ys)
  end.

(** The "Cost per rule type" table, lines 68-110. *)
Definition printCostPerRule : M unit :=
  fun w =>
    if (0 <? Stats.size (perRule w))%nat
    then
      (rows <- mapM (fun result =>
                       perRun <- bigintDiv (Stats.totalTime result) (Stats.executions result) ;;
                       ret (Stats.totalTime result, Stats.name result,
                            Stats.executions result, perRun))
                    (Stats.sortByTotalTime (map snd (perRule w))) ;;
       emit (EvCostPerRule rows)) w
    else (Ok tt, w).

(** [printIncludesExcludesCosts()], lines 185-195. *)
Definition printIncludesExcludesCosts : M unit :=
  fun w => emit (EvIncludesExcludesCosts (includesCost w) (excludesCost w)) w.

(** The "Random Stats for check()" table, lines 115-133. *)
Definition printRandomStats (checkStart checkConfigStart checkConfigEnd checkEnd : Z) : M unit :=
  fun w =>
    emit (EvRandomStats (packagesChecked w)
            (checkConfigEnd - checkConfigStart)
            ((checkConfigEnd - checkConfigStart) * (packagesChecked w - 1))
            (checkEnd - checkStart)) w.

Definition memNat (x : nat) (l : list nat) : bool := existsb (Nat.eqb x) l.

(** The loop over [printStats] hooks, lines 137-143; [executed] is the
    [Set] of the function references already called. *)
Fixpoint printStatsLoop (executed : list nat) (l : list Rule.t) : M unit :=
  match l with
  | [] => ret tt
  | resolvedRule :: l' =>
      match Rule.printStats resolvedRule with
      | Some fn =>
          if memNat fn executed
          then printStatsLoop executed l'
          else emit (EvPrintStats fn) ;; printStatsLoop (executed ++ [fn]) l'
      | None => printStatsLoop executed l'
      end
  end.

(** The reporting pass, lines 67-144. *)
Definition report (rt : Runtime) (resolvedConfig : ResolvedConfig)
    (checkStart checkConfigStart checkConfigEnd checkEnd : Z) : M unit :=
  printCostPerRule ;;
  (if globHasPrintStats rt then emit EvGlobPrintStats else ret tt) ;;
  printIncludesExcludesCosts ;;
  printRandomStats checkStart checkConfigStart checkConfigEnd checkEnd ;;
  printStatsLoop [] (rules resolvedConfig).

(** One target scope that is the workspace root, lines 46-47 and 54-55. *)
Definition checkWorkspaceRoot (rt : Runtime) (host : Host) (resolvedConfig : ResolvedConfig)
    (workspaceContext : Context) : M unit :=
  incrPackagesChecked ;;
  checkPackage rt host resolvedConfig workspaceContext.

(** One target scope that is a package directory, lines 49-50, 58-59 and
    62-63. *)
Definition checkChild (rt : Runtime) (host : Host) (resolvedConfig : ResolvedConfig)
    (workspaceContext : Context) (dir : string) : M unit :=
  incrPackagesChecked ;;
  child <- createChildContext workspaceContext dir ;;
  checkPackage rt host resolvedConfig child.

(** The scopes of a run, lines 41-64. *)
Definition checkScopes (rt : Runtime) (host : Host) (resolvedConfig : ResolvedConfig)
    (workspaceDir cwd : string) (paths : option (list string))
    (workspaceContext : Context) : M unit :=
  match paths with
  | Some paths =>
      let resolvedPaths := map (fun p => Path.dirname (Path.resolve (processCwd rt) p)) paths in
      forEach resolvedPaths (fun path =>
        if String.eqb workspaceDir path
        then checkWorkspaceRoot rt host resolvedConfig workspaceContext
        else checkChild rt host resolvedConfig workspaceContext path)
  | None =>
      if String.eqb workspaceDir cwd
      then
        checkWorkspaceRoot rt host resolvedConfig workspaceContext ;;
        forEach (getWorkspacePackageDirs host workspaceDir)
          (checkChild rt host resolvedConfig workspaceContext)
      else checkChild rt host resolvedConfig workspaceContext cwd
  end.

(** A call of [check] starts with a frame of its own: the locals of an
    earlier call are not visible in it. *)
Definition enterCheck : M unit :=
  setPackagesChecked 0 ;; setPerRule [].

(** The default of the parameter [cwd = process.cwd()], line 17. *)
Definition cwdOrDefault (rt : Runtime) (cwd : option string) : string :=
  match cwd with
  | Some dir => dir
  | None => processCwd rt
  end.

(** [check(resolvedConfig, host, cwd, paths, reportStats)], lines 14-147. *)
Definition check (rt : Runtime) (resolvedConfig : ResolvedConfig) (host : Host)
    (cwd : option string) (paths : option (list string))
    (reportStats : option bool) : M bool :=
  let cwd := cwdOrDefault rt cwd in
  enterCheck ;;
  checkStart <- now rt ;;
  match findWorkspaceDir host cwd with
  | None => throw ("Unable to find a workspace from " ++ cwd)
  | Some workspaceDir =>
      workspaceContext <- newWorkspaceContext workspaceDir ;;
      checkConfigStart <- now rt ;;
      forEach (rules resolvedConfig) validateOptions ;;
      checkConfigEnd <- now rt ;;
      setPackagesChecked 0 ;;
      setPerRule [] ;;
      checkScopes rt host resolvedConfig workspaceDir cwd paths workspaceContext ;;
      checkEnd <- now rt ;;
      (if truthy reportStats
       then report rt resolvedConfig checkStart checkConfigStart checkConfigEnd checkEnd
       else ret tt) ;;
      isFailed <- getFailed (addr workspaceContext) ;;
      ret (negb isFailed)
  end.

(** ** Reading a run

    Pure functions that say what a run is expected to do; the theorems
    below relate them to the effectful code. *)

(** The value [shouldSkipPackage] returns. *)
Definition skipDecision (rt : Runtime) (host : Host)
    (context : Context) (ruleConfig : Rule.t) : bool :=
  if negb (truthy (Rule.includeWorkspaceRoot ruleConfig)) && isWorkspaceContext context
  then true
  else
    let scopeName := getName host (packageDir context) in
    if match Rule.excludePackages ruleConfig with
       | Some patterns => matchesAnyGlob rt scopeName patterns
       | None => false
       end
    then true
    else
      negb match Rule.includePackages ruleConfig with
           | None => true
           | Some patterns => matchesAnyGlob rt scopeName patterns
           end.

(** The events of one rule whose check resolves: none when it is skipped. *)
Definition ruleEvents (rt : Runtime) (host : Host)
    (context : Context) (ruleConfig : Rule.t) : list Event :=
  if skipDecision rt host context ruleConfig then []
  else [EvCheckStart context (Rule.id ruleConfig);
        EvCheckResolved context (Rule.id ruleConfig)].

Definition announceEvents (host : Host) (resolvedConfig : ResolvedConfig)
    (context : Context) : list Event :=
  if verbose resolvedConfig
  then [EvLog ("Starting check against " ++ getName host (packageDir context))]
  else [].

(** The events of a [checkPackage] all of whose checks resolve. *)
Definition packageEvents (rt : Runtime) (host : Host) (resolvedConfig : ResolvedConfig)
    (context : Context) : list Event :=
  announceEvents host resolvedConfig context
  ++ flat_map (ruleEvents rt host context) (rules resolvedConfig)
  ++ [EvFinish context].

Definition isFinish (e : Event) : bool :=
  match e with
  | EvFinish _ => true
  | _ => false
  end.

Definition isValidate (e : Event) : bool :=
  match e with
  | EvValidate _ => true
  | _ => false
  end.

(** The scopes whose [finish()] was called, in order. *)
Fixpoint finishedScopes (evs : list Event) : list Context :=
  match evs with
  | [] => []
  | EvFinish c :: evs' => c :: finishedScopes evs'
  | _ :: evs' => finishedScopes evs'
  end.

(** The function references called as [printStats] hooks, in order. *)
Fixpoint printStatsCalls (evs : list Event) : list nat :=
  match evs with
  | [] => []
  | EvPrintStats fn :: evs' => fn :: printStatsCalls evs'
  | _ :: evs' => printStatsCalls evs'
  end.

(** The directories of the target scopes of a run, lines 41-64. *)
Definition targetDirs (rt : Runtime) (host : Host)
    (workspaceDir cwd : string) (paths : option (list string)) : list string :=
  match paths with
  | Some paths => map (fun p => Path.dirname (Path.resolve (processCwd rt) p)) paths
  | None =>
      if String.eqb workspaceDir cwd
      then workspaceDir :: getWorkspacePackageDirs host workspaceDir
      else [cwd]
  end.

(** The bucket a rule iteration works on: the one of the map, or a new one. *)
Definition bucketOf (ruleName : string) (m : Stats.PerRule) : Stats.Bucket :=
  match Stats.get ruleName m with
  | Some data => data
  | None => Stats.mkBucket ruleName 0 0
  end.

(** The [failed] flags once a rule check has run on [context]. *)
Definition markFailed (effect : CheckEffect) (context : Context)
    (flags : nat -> bool) : nat -> bool :=
  if addsError effect
  then fun a' => if Nat.eqb a' (addr context) then true else flags a'
  else flags.

(** Every bucket of [m] is still in [m'], with a [totalTime] that is not
    smaller. *)
Definition totalTimeGrows (m m' : Stats.PerRule) : Prop :=
  forall k b, Stats.get k m = Some b ->
    exists b', Stats.get k m' = Some b' /\ Stats.totalTime b <= Stats.totalTime b'.

(** The clock never goes back. *)
Definition monotoneClock (rt : Runtime) : Prop :=
  forall i j, (i <= j)%nat -> hrtime rt i <= hrtime rt j.

(** The hooks the [printStats] loop calls on [l] when [executed] holds the
    references already called. *)
Fixpoint hooksToCall (executed : list nat) (l : list Rule.t) : list nat :=
  match l with
  | [] => []
  | resolvedRule :: l' =>
      match Rule.printStats resolvedRule with
      | Some fn =>
          if memNat fn executed then hooksToCall executed l'
          else fn :: hooksToCall (executed ++ [fn]) l'
      | None => hooksToCall executed l'
      end
  end.

(** [m] leaves a world related by [R] to the one it started in, whether it
    returns or throws. *)
Definition preserves {A : Type} (R : World -> World -> Prop) (m : M A) : Prop :=
  forall w, R w (snd (m w)).

(** The trace grew by events that all satisfy [P]. *)
Definition extends (P : Event -> bool) (w w' : World) : Prop :=
  exists evs, trace w' = trace w ++ evs /\ forallb P evs = true.

(** What the rules [rs], run on the scope [c] without a rejection, have
    done between [w] and [w']: no object was allocated, the check events were
    emitted in the order of [rs], only the [failed] flag of [c] may have been
    raised, and every rule was counted once in the statistics. *)
Definition rulesRan (rt : Runtime) (host : Host) (c : Context) (rs : list Rule.t)
    (w w' : World) : Prop :=
  nextAddr w' = nextAddr w /\
  packagesChecked w' = packagesChecked w /\
  trace w' = trace w ++ flat_map (ruleEvents rt host c) rs /\
  (forall a, a <> addr c -> failed w' a = failed w a) /\
  (failed w (addr c) = true -> failed w' (addr c) = true) /\
  Stats.sumExecutions (perRule w') =
    Stats.sumExecutions (perRule w) + Z.of_nat (List.length rs) /\
  (NoDup (Stats.keys (perRule w)) -> NoDup (Stats.keys (perRule w'))) /\
  (forall names, incl (Stats.keys (perRule w)) names ->
     (forall r, In r rs -> In (Rule.displayName r) names) ->
     incl (Stats.keys (perRule w')) names) /\
  (monotoneClock rt -> totalTimeGrows (perRule w) (perRule w')).

(** What a [checkPackage] that returned has done between [w] and [w']. *)
Definition packageChecked (rt : Runtime) (host : Host) (resolvedConfig : ResolvedConfig)
    (c : Context) (w w' : World) : Prop :=
  nextAddr w' = nextAddr w /\
  packagesChecked w' = packagesChecked w /\
  trace w' = trace w ++ packageEvents rt host resolvedConfig c /\
  (forall a, a <> addr c -> a <> getWorkspaceContext c -> failed w' a = failed w a) /\
  (failed w (addr c) = true -> failed w' (addr c) = true) /\
  failed w' (getWorkspaceContext c) =
    failed w (getWorkspaceContext c) || failed w' (addr c) /\
  Stats.sumExecutions (perRule w') =
    Stats.sumExecutions (perRule w) + Z.of_nat (List.length (rules resolvedConfig)) /\
  (NoDup (Stats.keys (perRule w)) -> NoDup (Stats.keys (perRule w'))) /\
  (forall names, incl (Stats.keys (perRule w)) names ->
     (forall r, In r (rules resolvedConfig) -> In (Rule.displayName r) names) ->
     incl (Stats.keys (perRule w')) names) /\
  (monotoneClock rt -> totalTimeGrows (perRule w) (perRule w')).

(** The [failed] flags once [finish()] has run on [context]. *)
Definition flushFailed (context : Context) (flags : nat -> bool) : nat -> bool :=
  match parent context with
  | Some ws => fun a' => if Nat.eqb a' ws then flags ws || flags (addr context) else flags a'
  | None => flags
  end.

(** Nothing but the trace, the clock and the cost counters changed. *)
Definition unchanged (w w' : World) : Prop :=
  failed w' = failed w /\
  nextAddr w' = nextAddr w /\
  perRule w' = perRule w /\
  packagesChecked w' = packagesChecked w.

Definition notValidate (e : Event) : bool := negb (isValidate e).

Definition notFinish (e : Event) : bool := negb (isFinish e).

Definition notPrintStats (e : Event) : bool :=
  match e with
  | EvPrintStats _ => false
  | _ => true
  end.

(** The events of the scope phase and those of the reporting pass. *)
Definition isScopeEvent (e : Event) : bool :=
  match e with
  | EvLog _ | EvCheckStart _ _ | EvCheckResolved _ _ | EvFinish _ => true
  | _ => false
  end.

Definition isReportEvent (e : Event) : bool :=
  match e with
  | EvCostPerRule _ | EvGlobPrintStats | EvIncludesExcludesCosts _ _
  | EvRandomStats _ _ _ _ | EvPrintStats _ => true
  | _ => false
  end.

(** The events of the validation of the rules [l]. *)
Definition validateEvents (l : list Rule.t) : list Event :=
  map (fun r => EvValidate (Rule.id r)) l.

Definition optionsValid (r : Rule.t) : bool :=
  Rule.optionsRuntype r (Rule.options r).

(** The rules the validation loop gets to: all of them, or those up to and
    including the first whose options do not match. *)
Fixpoint validatedRules (l : list Rule.t) : list Rule.t :=
  match l with
  | [] => []
  | r :: l' => if optionsValid r then r :: validatedRules l' else [r]
  end.

(** What the scope phase, having returned, has done between [w] and [w']
    when it checked the scopes of the directories [dirs] for the workspace
    context [ws]: the scopes it finished are those of [dirs], each one the
    workspace context or an object allocated meanwhile; the workspace's
    [failed] flag is raised exactly when it was raised before or one of those
    scopes ended failed; older objects are untouched; every scope counted
    every rule once. *)
Definition scopesChecked (rt : Runtime) (resolvedConfig : ResolvedConfig)
    (ws : Context) (dirs : list string) (w w' : World) : Prop :=
  (addr ws < nextAddr w)%nat /\
  (nextAddr w <= nextAddr w')%nat /\
  (exists evs,
     trace w' = trace w ++ evs /\
     map packageDir (finishedScopes evs) = dirs /\
     (forall c, In c (finishedScopes evs) ->
        addr c = addr ws \/ (nextAddr w <= addr c < nextAddr w')%nat) /\
     (failed w' (addr ws) = true <->
      failed w (addr ws) = true \/
      exists c, In c (finishedScopes evs) /\ failed w' (addr c) = true)) /\
  (forall a, (a < nextAddr w)%nat -> a <> addr ws -> failed w' a = failed w a) /\
  packagesChecked w' = packagesChecked w + Z.of_nat (List.length dirs) /\
  Stats.sumExecutions (perRule w') =
    Stats.sumExecutions (perRule w)
    + Z.of_nat (List.length dirs) * Z.of_nat (List.length (rules resolvedConfig)) /\
  (NoDup (Stats.keys (perRule w)) -> NoDup (Stats.keys (perRule w'))) /\
  (forall names, incl (Stats.keys (perRule w)) names ->
     (forall r, In r (rules resolvedConfig) -> In (Rule.displayName r) names) ->
     incl (Stats.keys (perRule w')) names) /\
  (monotoneClock rt -> totalTimeGrows (perRule w) (perRule w')).

(** The world a failed validation leaves the run in: the workspace context
    allocated, the clock read twice, the options of [validatedRules]
    validated. *)
Definition afterValidation (resolvedConfig : ResolvedConfig) (w : World) : World :=
  mkWorld (fun a' => if Nat.eqb a' (nextAddr w) then false else failed w a')
    (S (nextAddr w)) [] 0 (includesCost w) (excludesCost w)
    (S (S (clockReads w))) (globCalls w)
    (trace w ++ validateEvents (validatedRules (rules resolvedConfig))).

(** The world in which the scope phase starts: the clock read once more,
    the statistics empty. *)
Definition scopeStart (resolvedConfig : ResolvedConfig) (w : World) : World :=
  mkWorld (fun a' => if Nat.eqb a' (nextAddr w) then false else failed w a')
    (S (nextAddr w)) [] 0 (includesCost w) (excludesCost w)
    (S (S (S (clockReads w)))) (globCalls w)
    (trace w ++ validateEvents (validatedRules (rules resolvedConfig))).

(** [m] returns from every world: it never throws. *)
Definition returns {A : Type} (m : M A) : Prop :=
  forall w, exists a, fst (m w) = Ok a.

(** No check of the rule [r] ever rejects. *)
Definition neverRejects (r : Rule.t) : Prop :=
  forall c seen, rejects (Rule.check r c seen (Rule.options r)) = false.

(** Every bucket has counted at least one execution. *)
Definition allCounted (m : Stats.PerRule) : Prop :=
  Forall (fun kv => 0 < Stats.executions (snd kv)) m.

(** [allCounted] is kept between [w] and [w']. *)
Definition keepsCounted (w w' : World) : Prop :=
  allCounted (perRule w) -> allCounted (perRule w').

(** ** Reading a run: scopes, report and statistics *)

(** A target scope of a run: the workspace root itself, or a package
    directory for which a child context is created. *)
Inductive Target : Type :=
| TRoot
| TPackage (dir : string).

(** The target scopes of a run, lines 41-64.  Only an explicit path is
    compared with the workspace root; the directories of a full-workspace
    run always get a child context. *)
Definition targets (rt : Runtime) (host : Host)
    (workspaceDir cwd : string) (paths : option (list string)) : list Target :=
  match paths with
  | Some paths =>
      map (fun p =>
             let path := Path.dirname (Path.resolve (processCwd rt) p) in
             if String.eqb workspaceDir path then TRoot else TPackage path)
          paths
  | None =>
      if String.eqb workspaceDir cwd
      then TRoot :: map TPackage (getWorkspacePackageDirs host workspaceDir)
      else [TPackage cwd]
  end.

(** The context objects the targets are checked through, when [next] is
    the first free address: the workspace context for the root, a new
    child context for each package directory. *)
Fixpoint targetContexts (ws : Context) (next : nat) (ts : list Target) : list Context :=
  match ts with
  | [] => []
  | TRoot :: ts' => ws :: targetContexts ws next ts'
  | TPackage dir :: ts' =>
      mkContext next dir (Some (addr ws)) :: targetContexts ws (S next) ts'
  end.

(** [m] leaves a world related by [R] to the one it started in: whenever it
    returns if [onlyOk] is set, and also when it throws if it is not. *)
Definition preservesIn (onlyOk : bool) {A : Type} (R : World -> World -> Prop)
    (m : M A) : Prop :=
  forall w, (onlyOk = true -> exists a, fst (m w) = Ok a) -> R w (snd (m w)).

(** The world after one more reading of the clock. *)
Definition tick (w : World) : World :=
  mkWorld (failed w) (nextAddr w) (perRule w) (packagesChecked w)
    (includesCost w) (excludesCost w) (S (clockReads w)) (globCalls w)
    (trace w).

(** The world after printing [evs]. *)
Definition printed (evs : list Event) (w : World) : World :=
  mkWorld (failed w) (nextAddr w) (perRule w) (packagesChecked w)
    (includesCost w) (excludesCost w) (clockReads w) (globCalls w)
    (trace w ++ evs).

(** One row of the "Cost per rule type" table, lines 102-107. *)
Definition costRow (result : Stats.Bucket) : Z * string * Z * Z :=
  (Stats.totalTime result, Stats.name result, Stats.executions result,
   Z.quot (Stats.totalTime result) (Stats.executions result)).

(** The table itself: printed only when the statistics are not empty. *)
Definition costTable (m : Stats.PerRule) : list Event :=
  if (0 <? Stats.size m)%nat
  then [EvCostPerRule (map costRow (Stats.sortByTotalTime (map snd m)))]
  else [].

(** Everything a reporting pass prints, lines 67-144. *)
Definition reportEvents (rt : Runtime) (resolvedConfig : ResolvedConfig)
    (checkStart checkConfigStart checkConfigEnd checkEnd : Z) (w : World) : list Event :=
  costTable (perRule w)
  ++ (if globHasPrintStats rt then [EvGlobPrintStats] else [])
  ++ [EvIncludesExcludesCosts (includesCost w) (excludesCost w);
      EvRandomStats (packagesChecked w)
        (checkConfigEnd - checkConfigStart)
        ((checkConfigEnd - checkConfigStart) * (packagesChecked w - 1))
        (checkEnd - checkStart)]
  ++ map EvPrintStats (hooksToCall [] (rules resolvedConfig)).

(** The [executions] counter of the bucket of [k]; zero without a bucket. *)
Definition executionsOf (k : string) (w : World) : Z :=
  Stats.executions (bucketOf k (perRule w)).

(** How many rules are displayed as [k]. *)
Definition countNamed (k : string) (l : list Rule.t) : nat :=
  List.length (filter (fun r => String.eqb (Rule.displayName r) k) l).

Definition sumTotalTime (m : Stats.PerRule) : Z :=
  fold_right (fun kv acc => Stats.totalTime (snd kv) + acc) 0 m.

(** Every bucket carries the key it is stored under as its [name]. *)
Definition wellNamed (m : Stats.PerRule) : Prop :=
  forall k b, Stats.get k m = Some b -> Stats.name b = k.

(** No bucket has a negative [totalTime]. *)
Definition noNegativeTime (m : Stats.PerRule) : Prop :=
  forall k b, Stats.get k m = Some b -> 0 <= Stats.totalTime b.

(** The keys of the map once the names [names] were looked up or created
    in order: a name that is not yet a key goes to the end. *)
Definition addKeys (ks : list string) (names : list string) : list string :=
  fold_left (fun acc n => if existsb (String.eqb n) acc then acc else acc ++ [n]) names ks.

(** Checking one target, lines 45-51, 54-59 and 62-63. *)
Definition checkTarget (rt : Runtime) (host : Host) (resolvedConfig : ResolvedConfig)
    (workspaceContext : Context) (t : Target) : M unit :=
  match t with
  | TRoot => checkWorkspaceRoot rt host resolvedConfig workspaceContext
  | TPackage dir => checkChild rt host resolvedConfig workspaceContext dir
  end.

(** How many child contexts the targets need. *)
Definition countPackages (ts : list Target) : nat :=
  List.length (filter (fun t => match t with TPackage _ => true | TRoot => false end) ts).

(** The two glob-cost counters did not go down. *)
Definition costsGrow (w w' : World) : Prop :=
  includesCost w <= includesCost w' /\ excludesCost w <= excludesCost w'.

(** [wellNamed] is kept between [w] and [w']. *)
Definition keepsWellNamed (w w' : World) : Prop :=
  wellNamed (perRule w) -> wellNamed (perRule w').

(** [noNegativeTime] is kept between [w] and [w']. *)
Definition keepsNoNegative (w w' : World) : Prop :=
  noNegativeTime (perRule w) -> noNegativeTime (perRule w').

(** The time charged to the buckets between [w] and [w'] is at most the
    time that passed on the clock. *)
Definition timeWithinClock (rt : Runtime) (w w' : World) : Prop :=
  (clockReads w <= clockReads w')%nat /\
  sumTotalTime (perRule w') - sumTotalTime (perRule w) <=
  hrtime rt (clockReads w') - hrtime rt (clockReads w).

(** The checks of the rules [rs] on the scope [context], one after the
    other: a rule that is skipped is passed over; the check of any other
    rule is given the [failed] flag as the checks before it left it, and
    raises it when it records an error.  [None] when some check rejects,
    else the flag after the last check. *)
Fixpoint checksInOrder (rt : Runtime) (host : Host) (context : Context)
    (rs : list Rule.t) (seen : bool) : option bool :=
  match rs with
  | [] => Some seen
  | ruleConfig :: rs' =>
      if skipDecision rt host context ruleConfig
      then checksInOrder rt host context rs' seen
      else
        let effect := Rule.check ruleConfig context seen (Rule.options ruleConfig) in
        if rejects effect then None
        else checksInOrder rt host context rs' (if addsError effect then true else seen)
  end.

(** ** A workspace to run on

    The workspace [/ws] with the packages [pkgX] and [pkgY], a clock that
    advances by ten at every reading, patterns without wildcards, and the
    two rules of the specification's scenario. *)

Module Scenario.

Definition wsDir : string := "/ws".
Definition pkgXDir : string := "/ws/packages/pkgX".
Definition pkgYDir : string := "/ws/packages/pkgY".

Definition host : Host :=
  mkHost
    (fun cwd =>
       if String.eqb cwd "/ws" || String.prefix "/ws/" cwd
       then Some wsDir else None)
    (fun _ => [pkgXDir; pkgYDir])
    (fun dir =>
       if String.eqb dir wsDir then "root"
       else if String.eqb dir pkgXDir then "pkgX"
       else if String.eqb dir pkgYDir then "pkgY"
       else "").

Definition rt : Runtime :=
  mkRuntime "/ws"
    (fun n => 1000 + 10 * Z.of_nat n)
    (fun n patterns => existsb (String.eqb n) patterns)
    true.

Definition passes : Context -> bool -> Json -> CheckEffect :=
  fun _ _ _ => mkCheckEffect false false.

Definition fails : Context -> bool -> Json -> CheckEffect :=
  fun _ _ _ => mkCheckEffect true false.

Definition crashes : Context -> bool -> Json -> CheckEffect :=
  fun _ _ _ => mkCheckEffect false true.

Definition anyOptions : Json -> bool := fun _ => true.

Definition noOptions : Json -> bool :=
  fun o => match o with JNull => true | _ => false end.

(** [ruleA] leaves the workspace root out, [ruleB] applies everywhere. *)
Definition ruleA (chk : Context -> bool -> Json -> CheckEffect) : Rule.t :=
  Rule.mk "ruleA" (Some "ruleA") JNull anyOptions None None (Some false) chk None.

Definition ruleB (chk : Context -> bool -> Json -> CheckEffect) : Rule.t :=
  Rule.mk "ruleB" (Some "ruleB") JNull anyOptions None None (Some true) chk None.

Definition config (chkA chkB : Context -> bool -> Json -> CheckEffect) : ResolvedConfig :=
  mkConfig [ruleA chkA; ruleB chkB] false.

(** A rule that leaves [pkgX] out although it includes all packages. *)
Definition ruleNoX : Rule.t :=
  Rule.mk "noX" None JNull anyOptions (Some ["pkgX"; "pkgY"]) (Some ["pkgX"])
    (Some true) passes (Some 7%nat).

(** Two unnamed rules of one rule type: they share [printStats]. *)
Definition ruleU1 : Rule.t :=
  Rule.mk "u1" None JNull anyOptions None None (Some true) fails (Some 7%nat).

Definition ruleU2 : Rule.t :=
  Rule.mk "u2" None JNull anyOptions None None None passes (Some 7%nat).

Definition ruleBadOptions : Rule.t :=
  Rule.mk "bad" (Some "bad") (JString "oops") noOptions None None (Some true) passes None.

Definition ruleCrash : Rule.t :=
  Rule.mk "crash" (Some "crash") JNull anyOptions None None (Some true) crashes None.

(** The process before its first run. *)
Definition start : World :=
  mkWorld (fun _ => false) 0 [] 0 0 0 0 [] [].

Definition pkgXContext : Context := mkContext 1 pkgXDir (Some 0%nat).

Definition rootContext : Context := mkContext 0 wsDir None.

(** A check that resolves only on a scope an earlier check has marked
    failed, and rejects on a clean one. *)
Definition needsFailure : Context -> bool -> Json -> CheckEffect :=
  fun _ seen _ => mkCheckEffect false (negb seen).

Definition ruleNeedsFailure : Rule.t :=
  Rule.mk "needsFailure" (Some "needsFailure") JNull anyOptions None None
    (Some true) needsFailure None.

End Scenario.

(** * Properties *)

(** ** The statistics map *)

Section StatsMap.

Import Stats.

Lemma get_set (k k' : string) (v : Bucket) (m : PerRule) :
  get k' (set k v m) = if String.eqb k k' then Some v else get k' m.
Proof.
  induction m as [|[k0 v0] m IH]; simpl.
  - destruct (String.eqb k k'); reflexivity.
  - destruct (String.eqb k0 k) eqn:E0; simpl.
    + apply String.eqb_eq in E0; subst k0.
      destruct (String.eqb k k'); reflexivity.
    + rewrite IH.
      destruct (String.eqb k0 k') eqn:E1; [|reflexivity].
      apply String.eqb_eq in E1; subst k0.
      destruct (String.eqb k k') eqn:E2; [|reflexivity].
      apply String.eqb_eq in E2; subst k'.
      rewrite String.eqb_refl in E0; discriminate.
Qed.

Lemma get_set_same (k : string) (v : Bucket) (m : PerRule) :
  get k (set k v m) = Some v.
Proof. rewrite get_set, String.eqb_refl; reflexivity. Qed.

Lemma set_set (k : string) (v1 v2 : Bucket) (m : PerRule) :
  set k v2 (set k v1 m) = set k v2 m.
Proof.
  induction m as [|[k0 v0] m IH]; simpl.
  - rewrite String.eqb_refl; reflexivity.
  - destruct (String.eqb k0 k) eqn:E0; simpl.
    + rewrite String.eqb_refl; reflexivity.
    + rewrite E0, IH; reflexivity.
Qed.

Lemma modify_set (k : string) (f : Bucket -> Bucket) (v : Bucket) (m : PerRule) :
  modify k f (set k v m) = set k (f v) m.
Proof. unfold modify; rewrite get_set_same, set_set; reflexivity. Qed.

Lemma lookupOrCreate_set (k : string) (m : PerRule) :
  lookupOrCreate k m = set k (bucketOf k m) m.
Proof. unfold lookupOrCreate, bucketOf; destruct (get k m); reflexivity. Qed.

Lemma get_None_keys (k : string) (m : PerRule) :
  get k m = None <-> ~ In k (keys m).
Proof.
  induction m as [|[k0 v0] m IH]; simpl.
  - tauto.
  - destruct (String.eqb k0 k) eqn:E0.
    + apply String.eqb_eq in E0; subst; split; [discriminate | tauto].
    + apply String.eqb_neq in E0; rewrite IH; tauto.
Qed.

Lemma keys_set (k : string) (v : Bucket) (m : PerRule) :
  keys (set k v m) =
  match get k m with
  | Some _ => keys m
  | None => (keys m ++ [k])
  end.
Proof.
  induction m as [|[k0 v0] m IH]; simpl; [reflexivity|].
  destruct (String.eqb k0 k) eqn:E0; simpl.
  - apply String.eqb_eq in E0; subst; reflexivity.
  - rewrite IH; destruct (get k m); reflexivity.
Qed.

Lemma sumExecutions_set (k : string) (v : Bucket) (m : PerRule) :
  sumExecutions (set k v m) =
  sumExecutions m + executions v - executions (bucketOf k m).
Proof.
  unfold bucketOf.
  induction m as [|[k0 v0] m IH]; simpl; [lia|].
  destruct (String.eqb k0 k) eqn:E0; simpl.
  - lia.
  - fold (sumExecutions (set k v m)); fold (sumExecutions m); rewrite IH.
    destruct (get k m); simpl; lia.
Qed.

Lemma NoDup_snoc {A : Type} (x : A) (l : list A) :
  NoDup l -> ~ In x l -> NoDup (l ++ [x]).
Proof.
  induction 1 as [|y l Hy ND IH]; simpl; intros Hx.
  - constructor; [tauto | constructor].
  - constructor.
    + intros Hin; apply in_app_or in Hin; destruct Hin as [Hin|[->|[]]]; tauto.
    + apply IH; tauto.
Qed.

Lemma NoDup_keys_set (k : string) (v : Bucket) (m : PerRule) :
  NoDup (keys m) -> NoDup (keys (set k v m)).
Proof.
  intros ND; rewrite keys_set.
  destruct (get k m) eqn:G; [exact ND|].
  apply NoDup_snoc; [exact ND | apply get_None_keys; exact G].
Qed.

Lemma incl_keys_set (k : string) (v : Bucket) (m : PerRule) (names : list string) :
  In k names -> incl (keys m) names -> incl (keys (set k v m)) names.
Proof.
  intros Hk Hincl; rewrite keys_set.
  destruct (get k m); [exact Hincl|].
  intros x Hx; apply in_app_or in Hx; destruct Hx as [Hx|[<-|[]]]; auto.
Qed.

End StatsMap.

(** ** One rule on one scope *)

Ltac run_prim :=
  cbv beta iota zeta delta
    [bind ret throw now emit addExcludesCost addIncludesCost
     callMatchesAnyGlob updatePerRule setPerRule incrPackagesChecked
     setPackagesChecked addError setFailed getFailed createChildContext
     newWorkspaceContext newContext];
  cbn [failed nextAddr perRule packagesChecked includesCost excludesCost
       clockReads globCalls trace fst snd addr packageDir parent].

(** With lookups that return, [shouldSkipPackage] returns [skipDecision] and
    touches only the two glob-cost counters, the clock and the glob
    collaborator. *)
Lemma shouldSkipPackage_run (rt : Runtime) (host : Host) (c : Context) (r : Rule.t) (w : World) :
  exists inc exc n calls,
    shouldSkipPackage rt host c r w =
    (Ok (skipDecision rt host c r),
     mkWorld (failed w) (nextAddr w) (perRule w) (packagesChecked w)
       inc exc (n + clockReads w) calls (trace w)).
Proof.
  unfold shouldSkipPackage, skipDecision.
  destruct (negb (truthy (Rule.includeWorkspaceRoot r)) && isWorkspaceContext c).
  - exists (includesCost w), (excludesCost w), 0%nat, (globCalls w).
    destruct w; reflexivity.
  - destruct (Rule.excludePackages r) as [ex|]; run_prim.
    + destruct (matchesAnyGlob rt (getName host (packageDir c)) ex); run_prim.
      * do 2 eexists; exists 2%nat; eexists; reflexivity.
      * destruct (Rule.includePackages r) as [inc|]; run_prim.
        -- destruct (matchesAnyGlob rt (getName host (packageDir c)) inc); run_prim;
             do 2 eexists; exists 4%nat; eexists; reflexivity.
        -- do 2 eexists; exists 4%nat; eexists; reflexivity.
    + destruct (Rule.includePackages r) as [inc|]; run_prim.
      * destruct (matchesAnyGlob rt (getName host (packageDir c)) inc); run_prim;
          do 2 eexists; exists 4%nat; eexists; reflexivity.
      * do 2 eexists; exists 4%nat; eexists; reflexivity.
Qed.

(** The three ways one loop iteration of [checkPackage] ends: the rule is
    skipped, its check rejects, or its check resolves.  [started] is the
    rule's bucket once the iteration has counted the execution and
    subtracted the start timestamp. *)
Lemma ruleIteration_run (rt : Runtime) (host : Host) (c : Context) (r : Rule.t) (w : World) :
  exists inc exc n calls,
    let nm := Rule.displayName r in
    let k2 := (n + S (clockReads w))%nat in
    let started :=
      addTotalTime (- hrtime rt (clockReads w)) (incrExecutions (bucketOf nm (perRule w))) in
    let effect := Rule.check r c (failed w (addr c)) (Rule.options r) in
    ruleIteration rt host c r w =
    if skipDecision rt host c r
    then (Ok tt,
          mkWorld (failed w) (nextAddr w)
            (Stats.set nm (addTotalTime (hrtime rt k2) started) (perRule w))
            (packagesChecked w) inc exc (S k2) calls (trace w))
    else if rejects effect
    then (Throw "rule check rejected",
          mkWorld (markFailed effect c (failed w)) (nextAddr w)
            (Stats.set nm started (perRule w))
            (packagesChecked w) inc exc k2 calls
            (trace w ++ [EvCheckStart c (Rule.id r)]))
    else (Ok tt,
          mkWorld (markFailed effect c (failed w)) (nextAddr w)
            (Stats.set nm (addTotalTime (hrtime rt k2) started) (perRule w))
            (packagesChecked w) inc exc (S k2) calls
            ((trace w ++ [EvCheckStart c (Rule.id r)])
               ++ [EvCheckResolved c (Rule.id r)])).
Proof.
  unfold ruleIteration.
  unfold bind at 1 2 3 4; unfold updatePerRule at 1 2 3, setPerRule, now at 1; cbn.
  rewrite lookupOrCreate_set, !modify_set.
  unfold bind at 1.
  match goal with
  | |- context [shouldSkipPackage rt host c r ?w1] =>
      destruct (shouldSkipPackage_run rt host c r w1) as (inc & exc & n & calls & E)
  end.
  cbn in E.
  exists inc, exc, n, calls; cbn zeta.
  rewrite E.
  destruct (skipDecision rt host c r).
  - run_prim. rewrite modify_set. reflexivity.
  - unfold awaitRuleCheck, markFailed.
    destruct (Rule.check r c (failed w (addr c)) (Rule.options r)) as [adds rej] eqn:Eff.
    run_prim. rewrite Eff; cbn.
    destruct adds, rej; run_prim; rewrite ?modify_set, ?set_set; reflexivity.
Qed.

(** ** The skip decision *)

(** C5.  A rule whose [includeWorkspaceRoot] is falsy is skipped on the
    workspace-root scope, and the decision is taken before any glob is
    looked at: [shouldSkipPackage] returns [true] and leaves
    [includesCost], [excludesCost], the clock and the glob collaborator as
    they were. *)
Theorem shouldSkipPackage_workspace_root
    (rt : Runtime) (host : Host) (c : Context) (r : Rule.t) (w : World) :
  truthy (Rule.includeWorkspaceRoot r) = false ->
  isWorkspaceContext c = true ->
  let w' := snd (shouldSkipPackage rt host c r w) in
  fst (shouldSkipPackage rt host c r w) = Ok true /\
  includesCost w' = includesCost w /\
  excludesCost w' = excludesCost w /\
  globCalls w' = globCalls w /\
  clockReads w' = clockReads w.
Proof.
  intros Hroot Hws; unfold shouldSkipPackage.
  rewrite Hroot, Hws; cbn.
  repeat split.
Qed.

Lemma shouldSkipPackage_workspace_root_witness :
  fst (shouldSkipPackage Scenario.rt Scenario.host Scenario.rootContext
         (Scenario.ruleA Scenario.passes) Scenario.start) = Ok true.
Proof.
  apply (shouldSkipPackage_workspace_root Scenario.rt Scenario.host
           Scenario.rootContext (Scenario.ruleA Scenario.passes) Scenario.start);
    reflexivity.
Defined.

(** C6.  When [excludePackages] is defined and matches the scope's name the
    scope is skipped, whatever [includePackages] holds.  The exclude step
    comes first: the include patterns are never given to the glob
    collaborator and [includesCost] is not touched. *)
Theorem shouldSkipPackage_excluded
    (rt : Runtime) (host : Host) (c : Context) (r : Rule.t) (w : World)
    (patterns : list string) :
  Rule.excludePackages r = Some patterns ->
  matchesAnyGlob rt (getName host (packageDir c)) patterns = true ->
  let w' := snd (shouldSkipPackage rt host c r w) in
  fst (shouldSkipPackage rt host c r w) = Ok true /\
  includesCost w' = includesCost w /\
  (globCalls w' = globCalls w \/
   globCalls w' = globCalls w ++ [(getName host (packageDir c), patterns)]).
Proof.
  intros Hex Hmatch; unfold shouldSkipPackage.
  destruct (negb (truthy (Rule.includeWorkspaceRoot r)) && isWorkspaceContext c).
  - cbn; auto.
  - rewrite Hex; run_prim; rewrite Hmatch; cbn; auto.
Qed.

Lemma shouldSkipPackage_excluded_witness :
  fst (shouldSkipPackage Scenario.rt Scenario.host Scenario.pkgXContext
         Scenario.ruleNoX Scenario.start) = Ok true.
Proof.
  apply (shouldSkipPackage_excluded Scenario.rt Scenario.host Scenario.pkgXContext
           Scenario.ruleNoX Scenario.start ["pkgX"]);
    reflexivity.
Defined.

(** ** Timing of one rule *)

Lemma totalTimeGrows_refl (m : Stats.PerRule) : totalTimeGrows m m.
Proof. intros k b Hb; exists b; split; [exact Hb | lia]. Qed.

Lemma totalTimeGrows_trans (m1 m2 m3 : Stats.PerRule) :
  totalTimeGrows m1 m2 -> totalTimeGrows m2 m3 -> totalTimeGrows m1 m3.
Proof.
  intros H12 H23 k b Hb.
  destruct (H12 k b Hb) as (b2 & Hb2 & Hle2).
  destruct (H23 k b2 Hb2) as (b3 & Hb3 & Hle3).
  exists b3; split; [exact Hb3 | lia].
Qed.

(** Replacing the bucket of [nm] by one whose [totalTime] is not smaller. *)
Lemma totalTimeGrows_set (nm : string) (v : Stats.Bucket) (m : Stats.PerRule) :
  Stats.totalTime (bucketOf nm m) <= Stats.totalTime v ->
  totalTimeGrows m (Stats.set nm v m).
Proof.
  intros Hle k b Hb; rewrite get_set.
  destruct (String.eqb nm k) eqn:E.
  - apply String.eqb_eq in E; subst k.
    exists v; split; [reflexivity|].
    unfold bucketOf in Hle; rewrite Hb in Hle; exact Hle.
  - exists b; split; [exact Hb | lia].
Qed.

(** An iteration that returns leaves every bucket's [totalTime] at least
    where it was, and a bucket it creates ends non-negative. *)
Lemma ruleIteration_grows
    (rt : Runtime) (host : Host) (c : Context) (r : Rule.t) (w w' : World) :
  monotoneClock rt ->
  ruleIteration rt host c r w = (Ok tt, w') ->
  totalTimeGrows (perRule w) (perRule w') /\
  (forall k b', Stats.get k (perRule w) = None ->
     Stats.get k (perRule w') = Some b' -> 0 <= Stats.totalTime b').
Proof.
  intros Hclock Hrun.
  destruct (ruleIteration_run rt host c r w) as (inc & exc & n & calls & E).
  cbn zeta in E; rewrite Hrun in E.
  assert (Hle : hrtime rt (clockReads w) <= hrtime rt (n + S (clockReads w)))
    by (apply Hclock; lia).
  assert (Hw' : perRule w' =
                Stats.set (Rule.displayName r)
                  (addTotalTime (hrtime rt (n + S (clockReads w)))
                     (addTotalTime (- hrtime rt (clockReads w))
                        (incrExecutions (bucketOf (Rule.displayName r) (perRule w)))))
                  (perRule w)).
  { destruct (skipDecision rt host c r).
    - injection E as ->; reflexivity.
    - destruct (rejects _); [discriminate|].
      injection E as ->; reflexivity. }
  rewrite Hw'; split.
  - apply totalTimeGrows_set; cbn; lia.
  - intros k b' Hnone; rewrite get_set.
    destruct (String.eqb (Rule.displayName r) k) eqn:Ek.
    + apply String.eqb_eq in Ek; subst k.
      intros [= <-]; unfold bucketOf; rewrite Hnone; cbn; lia.
    + rewrite Hnone; discriminate.
Qed.

(** C9.  Between two rule iterations a bucket's [totalTime] never goes
    down: an iteration subtracts the start timestamp and adds the end
    timestamp, for a skipped rule as for one that was checked, and the
    clock does not go back.  At the point after a rule iteration every
    bucket holds at least what it held at the point before it. *)
Theorem totalTime_only_increases
    (rt : Runtime) (host : Host) (c : Context) (r : Rule.t) (w w' : World) :
  monotoneClock rt ->
  ruleIteration rt host c r w = (Ok tt, w') ->
  forall k b, Stats.get k (perRule w) = Some b ->
    exists b', Stats.get k (perRule w') = Some b' /\
               Stats.totalTime b <= Stats.totalTime b'.
Proof.
  intros Hclock Hrun.
  exact (proj1 (ruleIteration_grows rt host c r w w' Hclock Hrun)).
Qed.

Lemma scenario_clock_monotone : monotoneClock Scenario.rt.
Proof.
  intros i j Hij.
  change (1000 + 10 * Z.of_nat i <= 1000 + 10 * Z.of_nat j); lia.
Qed.

Lemma totalTime_only_increases_witness :
  exists b',
    Stats.get "unknown"
      (perRule (snd (ruleIteration Scenario.rt Scenario.host Scenario.pkgXContext
                       Scenario.ruleU1
                       (snd (ruleIteration Scenario.rt Scenario.host Scenario.pkgXContext
                               Scenario.ruleNoX Scenario.start))))) = Some b' /\
    30 <= Stats.totalTime b'.
Proof.
  apply (totalTime_only_increases Scenario.rt Scenario.host Scenario.pkgXContext
           Scenario.ruleU1
           (snd (ruleIteration Scenario.rt Scenario.host Scenario.pkgXContext
                   Scenario.ruleNoX Scenario.start))
           _ scenario_clock_monotone) with (b := Stats.mkBucket "unknown" 30 1).
  - vm_compute; reflexivity.
  - vm_compute; reflexivity.
Defined.

(** ** The rules of one scope *)

Lemma forEach_app {A : Type} (body : A -> M unit) (l1 l2 : list A) (w : World) :
  forEach (l1 ++ l2) body w = (forEach l1 body ;; forEach l2 body) w.
Proof.
  revert w; induction l1 as [|x l1 IH]; intros w; cbn [forEach app].
  - reflexivity.
  - unfold bind.
    destruct (body x w) as [[[]|e] w1]; [|reflexivity].
    rewrite IH; reflexivity.
Qed.

Lemma markFailed_other (effect : CheckEffect) (c : Context) (flags : nat -> bool) (a : nat) :
  a <> addr c -> markFailed effect c flags a = flags a.
Proof.
  intros Ha; unfold markFailed; destruct (addsError effect); [|reflexivity].
  apply Nat.eqb_neq in Ha; rewrite Ha; reflexivity.
Qed.

Lemma markFailed_self (effect : CheckEffect) (c : Context) (flags : nat -> bool) :
  markFailed effect c flags (addr c) = flags (addr c) || addsError effect.
Proof.
  unfold markFailed; destruct (addsError effect).
  - rewrite Nat.eqb_refl, orb_true_r; reflexivity.
  - rewrite orb_false_r; reflexivity.
Qed.

Lemma rulesRan_nil (rt : Runtime) (host : Host) (c : Context) (w : World) :
  rulesRan rt host c [] w w.
Proof.
  unfold rulesRan; cbn [flat_map List.length Z.of_nat].
  rewrite app_nil_r, Z.add_0_r.
  repeat split; auto using totalTimeGrows_refl.
Qed.

Lemma rulesRan_cons (rt : Runtime) (host : Host) (c : Context)
    (r : Rule.t) (rs : list Rule.t) (w w1 w2 : World) :
  rulesRan rt host c [r] w w1 ->
  rulesRan rt host c rs w1 w2 ->
  rulesRan rt host c (r :: rs) w w2.
Proof.
  intros (A1 & A2 & A3 & A4 & A5 & A6 & A7 & A8 & A9)
         (B1 & B2 & B3 & B4 & B5 & B6 & B7 & B8 & B9).
  unfold rulesRan; repeat split.
  - congruence.
  - congruence.
  - rewrite B3, A3; cbn [flat_map]; rewrite app_nil_r, app_assoc; reflexivity.
  - intros a Ha; rewrite B4, A4; auto.
  - auto.
  - rewrite B6, A6; cbn [List.length]; lia.
  - auto.
  - intros names Hincl Hnames; apply B8.
    + apply A8; [exact Hincl|].
      intros r' [<-|[]]; apply Hnames; left; reflexivity.
    + intros r' Hr'; apply Hnames; right; exact Hr'.
  - intros Hclock; eapply totalTimeGrows_trans; eauto.
Qed.

Lemma ruleIteration_ran (rt : Runtime) (host : Host) (c : Context) (r : Rule.t) (w w' : World) :
  ruleIteration rt host c r w = (Ok tt, w') ->
  rulesRan rt host c [r] w w'.
Proof.
  intros Hrun.
  assert (Hgrow := fun Hclock => proj1 (ruleIteration_grows rt host c r w w' Hclock Hrun)).
  destruct (ruleIteration_run rt host c r w) as (inc & exc & n & calls & E).
  cbn zeta in E; rewrite Hrun in E.
  assert (Hstats : perRule w' =
                   Stats.set (Rule.displayName r)
                     (addTotalTime (hrtime rt (n + S (clockReads w)))
                        (addTotalTime (- hrtime rt (clockReads w))
                           (incrExecutions (bucketOf (Rule.displayName r) (perRule w)))))
                     (perRule w)).
  { destruct (skipDecision rt host c r);
      [|destruct (rejects _); [discriminate|]]; injection E as ->; reflexivity. }
  unfold rulesRan, ruleEvents; cbn [flat_map List.length].
  rewrite app_nil_r, Hstats.
  assert (Hsum : Stats.sumExecutions
                   (Stats.set (Rule.displayName r)
                      (addTotalTime (hrtime rt (n + S (clockReads w)))
                         (addTotalTime (- hrtime rt (clockReads w))
                            (incrExecutions (bucketOf (Rule.displayName r) (perRule w)))))
                      (perRule w)) =
                 Stats.sumExecutions (perRule w) + Z.of_nat 1)
    by (rewrite sumExecutions_set; cbn; lia).
  assert (Hincl : forall names, incl (Stats.keys (perRule w)) names ->
                    (forall r0, In r0 [r] -> In (Rule.displayName r0) names) ->
                    incl (Stats.keys (perRule w')) names).
  { intros names Hincl Hnames; rewrite Hstats; apply incl_keys_set; auto.
    apply Hnames; left; reflexivity. }
  rewrite Hstats in Hgrow, Hincl.
  destruct (skipDecision rt host c r).
  - injection E as ->; cbn [nextAddr packagesChecked trace failed].
    rewrite app_nil_r.
    repeat split; auto using NoDup_keys_set.
  - destruct (rejects _); [discriminate|].
    injection E as ->; cbn [nextAddr packagesChecked trace failed].
    rewrite <- app_assoc.
    repeat split; auto using NoDup_keys_set.
    + intros a Ha; apply markFailed_other; exact Ha.
    + intros Hf; rewrite markFailed_self, Hf; reflexivity.
Qed.

Lemma forEach_rulesRan (rt : Runtime) (host : Host) (c : Context) (rs : list Rule.t) :
  forall w w',
    forEach rs (ruleIteration rt host c) w = (Ok tt, w') ->
    rulesRan rt host c rs w w'.
Proof.
  induction rs as [|r rs IH]; intros w w'; cbn [forEach].
  - intros [= <-]; apply rulesRan_nil.
  - unfold bind.
    destruct (ruleIteration rt host c r w) as [[[]|e] w1] eqn:E1; [|discriminate].
    intros Hrest.
    eapply rulesRan_cons; [apply ruleIteration_ran; exact E1 | apply IH; exact Hrest].
Qed.

Lemma announce_run (host : Host) (resolvedConfig : ResolvedConfig) (c : Context) (w : World) :
  announce host resolvedConfig c w =
  (Ok tt,
   mkWorld (failed w) (nextAddr w) (perRule w) (packagesChecked w)
     (includesCost w) (excludesCost w) (clockReads w) (globCalls w)
     (trace w ++ announceEvents host resolvedConfig c)).
Proof.
  unfold announce, announceEvents; destruct (verbose resolvedConfig); run_prim.
  - reflexivity.
  - rewrite app_nil_r; destruct w; reflexivity.
Qed.

Lemma finish_run (c : Context) (w : World) :
  finish c w =
  (Ok tt,
   mkWorld (flushFailed c (failed w)) (nextAddr w) (perRule w) (packagesChecked w)
     (includesCost w) (excludesCost w) (clockReads w) (globCalls w)
     (trace w ++ [EvFinish c])).
Proof.
  unfold finish, flushFailed; destruct (parent c); run_prim; reflexivity.
Qed.

Lemma flushFailed_other (c : Context) (flags : nat -> bool) (a : nat) :
  a <> getWorkspaceContext c -> flushFailed c flags a = flags a.
Proof.
  unfold flushFailed, getWorkspaceContext; destruct (parent c) as [ws|]; [|reflexivity].
  intros Ha; apply Nat.eqb_neq in Ha; rewrite Ha; reflexivity.
Qed.

Lemma flushFailed_workspace (c : Context) (flags : nat -> bool) :
  flushFailed c flags (getWorkspaceContext c) =
  flags (getWorkspaceContext c) || flags (addr c).
Proof.
  unfold flushFailed, getWorkspaceContext; destruct (parent c) as [ws|].
  - rewrite Nat.eqb_refl; reflexivity.
  - rewrite orb_diag; reflexivity.
Qed.

Lemma flushFailed_self (c : Context) (flags : nat -> bool) :
  flushFailed c flags (addr c) = flags (addr c).
Proof.
  unfold flushFailed; destruct (parent c) as [ws|]; [|reflexivity].
  destruct (Nat.eqb (addr c) ws) eqn:E; [|reflexivity].
  apply Nat.eqb_eq in E; rewrite <- E, orb_diag; reflexivity.
Qed.

(** A [checkPackage] that returns has run every rule and then [finish()]. *)
Lemma checkPackage_ok (rt : Runtime) (host : Host) (resolvedConfig : ResolvedConfig)
    (c : Context) (w w' : World) :
  checkPackage rt host resolvedConfig c w = (Ok tt, w') ->
  packageChecked rt host resolvedConfig c w w'.
Proof.
  unfold checkPackage.
  unfold bind at 1; rewrite announce_run.
  unfold bind at 1.
  match goal with
  | |- context [forEach _ _ ?w0] =>
      destruct (forEach (rules resolvedConfig) (ruleIteration rt host c) w0)
        as [[[]|e] w1] eqn:Erules; [|discriminate]
  end.
  apply forEach_rulesRan in Erules.
  destruct Erules as (R1 & R2 & R3 & R4 & R5 & R6 & R7 & R8 & R9).
  cbn [nextAddr packagesChecked trace failed perRule] in *.
  rewrite finish_run; intros [= <-].
  unfold packageChecked, packageEvents;
    cbn [nextAddr packagesChecked trace failed perRule].
  repeat split; auto.
  - rewrite R3, <- !app_assoc; reflexivity.
  - intros a Ha Hws; rewrite flushFailed_other, R4; auto.
  - intros Hf; rewrite flushFailed_self; auto.
  - rewrite flushFailed_workspace, flushFailed_self.
    destruct (Nat.eq_dec (getWorkspaceContext c) (addr c)) as [E|E].
    + rewrite E.
      destruct (failed w (addr c)) eqn:Hf; [rewrite R5; reflexivity|].
      rewrite orb_diag; reflexivity.
    + rewrite (R4 _ E); reflexivity.
Qed.

Lemma ruleEvents_no_finish (rt : Runtime) (host : Host) (c : Context) (rs : list Rule.t) :
  filter isFinish (flat_map (ruleEvents rt host c) rs) = [].
Proof.
  induction rs as [|r rs IH]; cbn [flat_map]; [reflexivity|].
  rewrite filter_app, IH, app_nil_r.
  unfold ruleEvents; destruct (skipDecision rt host c r); reflexivity.
Qed.

Lemma announceEvents_no_finish (host : Host) (resolvedConfig : ResolvedConfig) (c : Context) :
  filter isFinish (announceEvents host resolvedConfig c) = [].
Proof. unfold announceEvents; destruct (verbose resolvedConfig); reflexivity. Qed.

Lemma packageEvents_finish (rt : Runtime) (host : Host) (resolvedConfig : ResolvedConfig)
    (c : Context) :
  filter isFinish (packageEvents rt host resolvedConfig c) = [EvFinish c].
Proof.
  unfold packageEvents.
  rewrite !filter_app, announceEvents_no_finish, ruleEvents_no_finish; reflexivity.
Qed.

(** What the checks of the rules did to the [failed] flag of the scope:
    every iteration that returns has either skipped its rule or run the
    rule's check on the flag the iterations before it left. *)
Lemma forEach_rules_checks (rt : Runtime) (host : Host) (c : Context) (rs : list Rule.t) :
  forall w w',
    forEach rs (ruleIteration rt host c) w = (Ok tt, w') ->
    checksInOrder rt host c rs (failed w (addr c)) = Some (failed w' (addr c)).
Proof.
  induction rs as [|r rs IH]; intros w w'; cbn [forEach checksInOrder].
  - intros [= <-]; reflexivity.
  - unfold bind.
    destruct (ruleIteration rt host c r w) as [[[]|e] w1] eqn:E1; [|discriminate].
    intros Hrest; apply IH in Hrest.
    destruct (ruleIteration_run rt host c r w) as (inc & exc & n & calls & E).
    cbn zeta in E; rewrite E1 in E.
    destruct (skipDecision rt host c r).
    + injection E as ->; exact Hrest.
    + destruct (rejects (Rule.check r c (failed w (addr c)) (Rule.options r)));
        [discriminate|].
      injection E as ->; cbn [failed] in Hrest.
      rewrite markFailed_self in Hrest.
      destruct (addsError (Rule.check r c (failed w (addr c)) (Rule.options r)));
        [rewrite orb_true_r in Hrest | rewrite orb_false_r in Hrest]; exact Hrest.
Qed.

(** C3.  Within one scope the rules run one after the other in the order
    of the resolved config.  The events a returning [checkPackage] adds are,
    for each rule that is not skipped and in config order, the start of its
    check immediately followed by its resolution, so no check starts before
    the one in front of it has completed; [finish()] comes after the last of
    them and is the only [finish()] of the call.  And the checks really ran
    in that order: each one was given the scope as the checks before it
    left it, none of them rejected, and the scope's [failed] flag ends as
    the last of them left it. *)
Theorem checkPackage_sequential
    (rt : Runtime) (host : Host) (resolvedConfig : ResolvedConfig)
    (c : Context) (w w' : World) :
  checkPackage rt host resolvedConfig c w = (Ok tt, w') ->
  trace w' =
    trace w
      ++ announceEvents host resolvedConfig c
      ++ flat_map
           (fun r =>
              if skipDecision rt host c r then []
              else [EvCheckStart c (Rule.id r); EvCheckResolved c (Rule.id r)])
           (rules resolvedConfig)
      ++ [EvFinish c] /\
  filter isFinish (packageEvents rt host resolvedConfig c) = [EvFinish c] /\
  checksInOrder rt host c (rules resolvedConfig) (failed w (addr c)) =
    Some (failed w' (addr c)).
Proof.
  intros Hrun.
  assert (Hok := checkPackage_ok _ _ _ _ _ _ Hrun).
  destruct Hok as (_ & _ & Htrace & _).
  split; [exact Htrace|]; split; [apply packageEvents_finish|].
  revert Hrun; unfold checkPackage.
  unfold bind at 1; rewrite announce_run; unfold bind at 1.
  match goal with
  | |- context [forEach _ _ ?w0] =>
      destruct (forEach (rules resolvedConfig) (ruleIteration rt host c) w0)
        as [[[]|e] w1] eqn:Erules; [|discriminate]
  end.
  apply forEach_rules_checks in Erules; cbn [failed] in Erules.
  rewrite finish_run; intros [= <-]; cbn [failed].
  rewrite flushFailed_self; exact Erules.
Qed.

Lemma checkPackage_sequential_witness :
  let w' := snd (checkPackage Scenario.rt Scenario.host
                   (mkConfig [Scenario.ruleA Scenario.passes; Scenario.ruleB Scenario.fails;
                              Scenario.ruleNoX; Scenario.ruleNeedsFailure] false)
                   Scenario.pkgXContext Scenario.start) in
  trace w' =
    trace Scenario.start
      ++ []
      ++ [EvCheckStart Scenario.pkgXContext "ruleA";
          EvCheckResolved Scenario.pkgXContext "ruleA";
          EvCheckStart Scenario.pkgXContext "ruleB";
          EvCheckResolved Scenario.pkgXContext "ruleB";
          EvCheckStart Scenario.pkgXContext "needsFailure";
          EvCheckResolved Scenario.pkgXContext "needsFailure"]
      ++ [EvFinish Scenario.pkgXContext] /\
  filter isFinish
    (packageEvents Scenario.rt Scenario.host
       (mkConfig [Scenario.ruleA Scenario.passes; Scenario.ruleB Scenario.fails;
                  Scenario.ruleNoX; Scenario.ruleNeedsFailure] false)
       Scenario.pkgXContext) = [EvFinish Scenario.pkgXContext] /\
  Some true = Some (failed w' (addr Scenario.pkgXContext)).
Proof.
  apply (checkPackage_sequential Scenario.rt Scenario.host
           (mkConfig [Scenario.ruleA Scenario.passes; Scenario.ruleB Scenario.fails;
                      Scenario.ruleNoX; Scenario.ruleNeedsFailure] false)
           Scenario.pkgXContext Scenario.start).
  vm_compute; reflexivity.
Defined.

(** ** A check that rejects *)

(** C10.  When the check of a rule rejects, [checkPackage] rethrows at once:
    the trace ends with the start of that check, so no later rule is
    processed and [finish()] is not called, and the rule's bucket is left
    with the execution counted and the start timestamp subtracted from
    [totalTime], the end timestamp never added. *)
Theorem checkPackage_rule_rejects
    (rt : Runtime) (host : Host) (resolvedConfig : ResolvedConfig) (c : Context)
    (pre post : list Rule.t) (r : Rule.t) (w w1 : World) :
  rules resolvedConfig = pre ++ r :: post ->
  (announce host resolvedConfig c ;; forEach pre (ruleIteration rt host c)) w = (Ok tt, w1) ->
  skipDecision rt host c r = false ->
  rejects (Rule.check r c (failed w1 (addr c)) (Rule.options r)) = true ->
  exists w',
    checkPackage rt host resolvedConfig c w = (Throw "rule check rejected", w') /\
    trace w' = trace w1 ++ [EvCheckStart c (Rule.id r)] /\
    filter isFinish (trace w') = filter isFinish (trace w) /\
    perRule w' =
      Stats.set (Rule.displayName r)
        (let data := bucketOf (Rule.displayName r) (perRule w1) in
         Stats.mkBucket (Stats.name data)
           (Stats.totalTime data + - hrtime rt (clockReads w1))
           (Stats.executions data + 1))
        (perRule w1).
Proof.
  intros Hrules Hpre Hskip Hrej.
  unfold checkPackage; rewrite Hrules.
  unfold bind at 1 in Hpre; rewrite announce_run in Hpre.
  unfold bind at 1; rewrite announce_run.
  unfold bind at 1; rewrite forEach_app.
  unfold bind at 1; rewrite Hpre.
  apply forEach_rulesRan in Hpre.
  destruct Hpre as (_ & _ & Htrace & _).
  cbn [trace] in Htrace.
  cbn [forEach]; unfold bind at 1.
  destruct (ruleIteration_run rt host c r w1) as (inc & exc & n & calls & E).
  cbn zeta in E; rewrite Hskip, Hrej in E; rewrite E.
  eexists; split; [reflexivity|].
  cbn [trace perRule]; repeat split.
  rewrite Htrace, !filter_app, announceEvents_no_finish, ruleEvents_no_finish.
  cbn; rewrite !app_nil_r; reflexivity.
Qed.

Lemma checkPackage_rule_rejects_witness :
  exists w',
    checkPackage Scenario.rt Scenario.host
      (mkConfig [Scenario.ruleU1; Scenario.ruleCrash; Scenario.ruleU2] true)
      Scenario.pkgXContext Scenario.start = (Throw "rule check rejected", w') /\
    Stats.get "crash" (perRule w') = Some (Stats.mkBucket "crash" (-1060) 1) /\
    filter isFinish (trace w') = [].
Proof.
  destruct (checkPackage_rule_rejects Scenario.rt Scenario.host
              (mkConfig [Scenario.ruleU1; Scenario.ruleCrash; Scenario.ruleU2] true)
              Scenario.pkgXContext [Scenario.ruleU1] [Scenario.ruleU2] Scenario.ruleCrash
              Scenario.start
              (snd ((announce Scenario.host
                       (mkConfig [Scenario.ruleU1; Scenario.ruleCrash; Scenario.ruleU2] true)
                       Scenario.pkgXContext ;;
                     forEach [Scenario.ruleU1]
                       (ruleIteration Scenario.rt Scenario.host Scenario.pkgXContext))
                      Scenario.start)))
    as (w' & Hthrow & _ & Hfinish & Hstats).
  - reflexivity.
  - vm_compute; reflexivity.
  - reflexivity.
  - vm_compute; reflexivity.
  - exists w'; split; [exact Hthrow|]; split.
    + rewrite Hstats; vm_compute; reflexivity.
    + rewrite Hfinish; reflexivity.
Defined.

(** ** What a computation leaves alone *)

Section Preserves.

Variable R : World -> World -> Prop.
Hypothesis R_refl : forall w, R w w.
Hypothesis R_trans : forall w1 w2 w3, R w1 w2 -> R w2 w3 -> R w1 w3.

Lemma preserves_ret {A : Type} (a : A) : preserves R (ret a).
Proof. intros w; apply R_refl. Qed.

Lemma preserves_throw {A : Type} (e : string) : preserves R (@throw A e).
Proof. intros w; apply R_refl. Qed.

Lemma preserves_bind {A B : Type} (m : M A) (k : A -> M B) :
  preserves R m -> (forall a, preserves R (k a)) -> preserves R (bind m k).
Proof.
  intros Hm Hk w; unfold bind.
  specialize (Hm w).
  destruct (m w) as [[a|e] w1]; cbn [snd] in *.
  - eapply R_trans; [exact Hm | apply Hk].
  - exact Hm.
Qed.

Lemma preserves_forEach {A : Type} (l : list A) (body : A -> M unit) :
  (forall x, In x l -> preserves R (body x)) -> preserves R (forEach l body).
Proof.
  induction l as [|x l IH]; intros Hbody; cbn [forEach].
  - apply preserves_ret.
  - apply preserves_bind; [apply Hbody; left; reflexivity|].
    intros _; apply IH; intros y Hy; apply Hbody; right; exact Hy.
Qed.

Lemma preserves_mapM {A B : Type} (f : A -> M B) (l : list A) :
  (forall x, preserves R (f x)) -> preserves R (mapM f l).
Proof.
  intros Hf; induction l as [|x l IH]; cbn [mapM].
  - apply preserves_ret.
  - apply preserves_bind; [apply Hf|].
    intros y; apply preserves_bind; [exact IH|].
    intros ys; apply preserves_ret.
Qed.

(** A computation that first reads the world. *)
Lemma preserves_reading {A B : Type} (g : World -> B) (m : B -> M A) :
  (forall b, preserves R (m b)) -> preserves R (fun w => m (g w) w).
Proof. intros Hm w; apply Hm. Qed.

End Preserves.

Lemma extends_refl (P : Event -> bool) (w : World) : extends P w w.
Proof. exists []; split; [rewrite app_nil_r; reflexivity | reflexivity]. Qed.

Lemma extends_trans (P : Event -> bool) (w1 w2 w3 : World) :
  extends P w1 w2 -> extends P w2 w3 -> extends P w1 w3.
Proof.
  intros (evs1 & E1 & P1) (evs2 & E2 & P2).
  exists (evs1 ++ evs2); split.
  - rewrite E2, E1, app_assoc; reflexivity.
  - rewrite forallb_app, P1, P2; reflexivity.
Qed.

Lemma extends_same_trace (P : Event -> bool) (w w' : World) :
  trace w' = trace w -> extends P w w'.
Proof. intros E; exists []; rewrite E, app_nil_r; split; reflexivity. Qed.

Lemma extends_emit (P : Event -> bool) (e : Event) :
  P e = true -> preserves (extends P) (emit e).
Proof.
  intros HP w; exists [e]; split; [reflexivity|].
  cbn; rewrite HP; reflexivity.
Qed.

Lemma unchanged_refl (w : World) : unchanged w w.
Proof. repeat split. Qed.

Lemma unchanged_trans (w1 w2 w3 : World) :
  unchanged w1 w2 -> unchanged w2 w3 -> unchanged w1 w3.
Proof.
  intros (A1 & A2 & A3 & A4) (B1 & B2 & B3 & B4).
  repeat split; congruence.
Qed.

(** Steps through a computation built from [bind], loops and branches. *)
Ltac preserves_steps Hrefl Htrans :=
  repeat first
    [ apply (preserves_ret _ Hrefl)
    | apply (preserves_throw _ Hrefl)
    | apply (preserves_bind _ Htrans); [|intros ?]
    | apply (preserves_forEach _ Hrefl Htrans); intros ? _
    | apply (preserves_mapM _ Hrefl Htrans); intros ?
    | match goal with
      | |- preserves _ (if ?b then _ else _) => destruct b
      | |- preserves _ (match ?o with Some _ => _ | None => _ end) => destruct o
      end ].

(** The primitives that do not print. *)
Ltac silent_prim :=
  intros ?; apply extends_same_trace; reflexivity.

Lemma extends_weaken (P Q : Event -> bool) (w w' : World) :
  (forall e, P e = true -> Q e = true) -> extends P w w' -> extends Q w w'.
Proof.
  intros HPQ (evs & E & HP); exists evs; split; [exact E|].
  rewrite forallb_forall in *; auto.
Qed.

(** ** Validation of the options *)

(** The validation loop stops at the first rule whose options do not
    match, and does nothing but print. *)
Lemma validate_run (l : list Rule.t) (w : World) :
  forEach l validateOptions w =
  (if forallb optionsValid l
   then Ok tt
   else Throw "options do not match the rule's runtype",
   mkWorld (failed w) (nextAddr w) (perRule w) (packagesChecked w)
     (includesCost w) (excludesCost w) (clockReads w) (globCalls w)
     (trace w ++ validateEvents (validatedRules l))).
Proof.
  revert w; induction l as [|r l IH]; intros w.
  - cbn [forEach forallb validatedRules validateEvents map].
    rewrite app_nil_r; destruct w; reflexivity.
  - cbn [forEach forallb validatedRules].
    unfold bind at 1, validateOptions at 1, optionsValid at 1 3; run_prim.
    destruct (Rule.optionsRuntype r (Rule.options r)); run_prim.
    + rewrite IH; cbn [failed nextAddr perRule packagesChecked includesCost
                       excludesCost clockReads globCalls trace validateEvents map andb].
      rewrite <- app_assoc; reflexivity.
    + reflexivity.
Qed.

Lemma validatedRules_all (l : list Rule.t) :
  forallb optionsValid l = true -> validatedRules l = l.
Proof.
  induction l as [|r l IH]; cbn [forallb validatedRules]; [reflexivity|].
  destruct (optionsValid r); cbn [andb]; [|discriminate].
  intros H; rewrite IH; auto.
Qed.

Lemma validatedRules_first_invalid (pre post : list Rule.t) (r : Rule.t) :
  forallb optionsValid pre = true ->
  optionsValid r = false ->
  validatedRules (pre ++ r :: post) = pre ++ [r] /\
  forallb optionsValid (pre ++ r :: post) = false.
Proof.
  intros Hpre Hr; induction pre as [|p pre IH]; cbn [app forallb validatedRules].
  - rewrite Hr; split; reflexivity.
  - cbn [forallb] in Hpre; apply andb_prop in Hpre; destruct Hpre as [Hp Hpre].
    rewrite Hp; destruct (IH Hpre) as [-> ->]; split; reflexivity.
Qed.

Lemma validateEvents_all_validate (l : list Rule.t) :
  filter isValidate (validateEvents l) = validateEvents l.
Proof. induction l as [|r l IH]; simpl; [reflexivity | f_equal; exact IH]. Qed.

Lemma validateEvents_no_finish (l : list Rule.t) :
  finishedScopes (validateEvents l) = [].
Proof. induction l as [|r l IH]; simpl; [reflexivity | exact IH]. Qed.

(** ** The reporting pass *)

Lemma memNat_In (x : nat) (l : list nat) : memNat x l = true <-> In x l.
Proof.
  unfold memNat; rewrite existsb_exists; split.
  - intros (y & Hy & E); apply Nat.eqb_eq in E; subst; exact Hy.
  - intros Hx; exists x; split; [exact Hx | apply Nat.eqb_refl].
Qed.

(** The loop calls a hook when it is not in [executed] and some rule
    carries it, and calls no hook twice. *)
Lemma hooksToCall_spec (l : list Rule.t) :
  forall executed,
    NoDup (hooksToCall executed l) /\
    (forall fn, In fn (hooksToCall executed l) <->
                ~ In fn executed /\ exists r, In r l /\ Rule.printStats r = Some fn).
Proof.
  induction l as [|r l IH]; intros executed; cbn [hooksToCall].
  - split; [constructor|].
    intros fn; split; [intros [] | intros (_ & r & [] & _)].
  - destruct (Rule.printStats r) as [fn0|] eqn:Hr.
    + destruct (memNat fn0 executed) eqn:Hmem.
      * destruct (IH executed) as [ND Hin]; split; [exact ND|].
        intros fn; rewrite Hin; split.
        -- intros (Hnot & r' & Hr' & Hfn); split; [exact Hnot|].
           exists r'; split; [right; exact Hr' | exact Hfn].
        -- intros (Hnot & r' & [<-|Hr'] & Hfn); split; try exact Hnot.
           ++ rewrite Hr in Hfn; injection Hfn as <-.
              apply memNat_In in Hmem; contradiction.
           ++ exists r'; split; assumption.
      * assert (Hnot0 : ~ In fn0 executed).
        { intros Hin; apply memNat_In in Hin; rewrite Hin in Hmem; discriminate. }
        destruct (IH (executed ++ [fn0])) as [ND Hin]; split.
        -- constructor; [|exact ND].
           rewrite Hin; intros (Hnot & _); apply Hnot, in_or_app; right; left; reflexivity.
        -- intros fn; cbn [In]; rewrite Hin; split.
           ++ intros [<-|(Hnot & r' & Hr' & Hfn)].
              ** split; [exact Hnot0|]. exists r; split; [left; reflexivity | exact Hr].
              ** split; [intros Hex; apply Hnot, in_or_app; left; exact Hex|].
                 exists r'; split; [right; exact Hr' | exact Hfn].
           ++ intros (Hnot & r' & Hr' & Hfn).
              destruct (Nat.eq_dec fn0 fn) as [E|E]; [left; exact E | right].
              split.
              ** intros Hex; apply in_app_or in Hex; destruct Hex as [Hex|[Hex|[]]];
                   [contradiction | contradiction].
              ** destruct Hr' as [<-|Hr']; [congruence|].
                 exists r'; split; assumption.
    + destruct (IH executed) as [ND Hin]; split; [exact ND|].
      intros fn; rewrite Hin; split.
      * intros (Hnot & r' & Hr' & Hfn); split; [exact Hnot|].
        exists r'; split; [right; exact Hr' | exact Hfn].
      * intros (Hnot & r' & [<-|Hr'] & Hfn); [congruence|].
        split; [exact Hnot|]. exists r'; split; assumption.
Qed.

Lemma printStatsLoop_run (l : list Rule.t) :
  forall executed w,
    printStatsLoop executed l w =
    (Ok tt,
     mkWorld (failed w) (nextAddr w) (perRule w) (packagesChecked w)
       (includesCost w) (excludesCost w) (clockReads w) (globCalls w)
       (trace w ++ map EvPrintStats (hooksToCall executed l))).
Proof.
  induction l as [|r l IH]; intros executed w; cbn [printStatsLoop hooksToCall].
  - cbn [map]; rewrite app_nil_r; destruct w; reflexivity.
  - destruct (Rule.printStats r) as [fn|]; [|apply IH].
    destruct (memNat fn executed); [apply IH|].
    run_prim; rewrite IH; cbn [failed nextAddr perRule packagesChecked includesCost
                               excludesCost clockReads globCalls trace map].
    rewrite <- app_assoc; reflexivity.
Qed.

Lemma printStatsCalls_app (evs1 evs2 : list Event) :
  printStatsCalls (evs1 ++ evs2) = printStatsCalls evs1 ++ printStatsCalls evs2.
Proof.
  induction evs1 as [|e evs1 IH]; cbn [app printStatsCalls]; [reflexivity|].
  destruct e; rewrite IH; reflexivity.
Qed.

Lemma printStatsCalls_map (fns : list nat) :
  printStatsCalls (map EvPrintStats fns) = fns.
Proof. induction fns as [|fn fns IH]; simpl; [reflexivity | f_equal; exact IH]. Qed.

Lemma printStatsCalls_none (evs : list Event) :
  forallb notPrintStats evs = true -> printStatsCalls evs = [].
Proof.
  induction evs as [|e evs IH]; cbn [forallb printStatsCalls]; [reflexivity|].
  intros H; apply andb_prop in H; destruct H as [He Hevs].
  destruct e; try discriminate; auto.
Qed.

Section ReportPreserves.

Variable R : World -> World -> Prop.
Hypothesis R_refl : forall w, R w w.
Hypothesis R_trans : forall w1 w2 w3, R w1 w2 -> R w2 w3 -> R w1 w3.

Lemma printCostPerRule_preserves :
  (forall rows, preserves R (emit (EvCostPerRule rows))) ->
  preserves R printCostPerRule.
Proof.
  intros Hemit.
  assert (H : forall results,
             preserves R
               (rows <- mapM (fun result =>
                                perRun <- bigintDiv (Stats.totalTime result)
                                            (Stats.executions result) ;;
                                ret (Stats.totalTime result, Stats.name result,
                                     Stats.executions result, perRun))
                             results ;;
                emit (EvCostPerRule rows))).
  { intros results; unfold bigintDiv.
    preserves_steps R_refl R_trans.
    apply Hemit. }
  intros w; unfold printCostPerRule.
  destruct (0 <? Stats.size (perRule w))%nat; [apply H | apply R_refl].
Qed.

Lemma printStatsLoop_preserves :
  (forall fn, preserves R (emit (EvPrintStats fn))) ->
  forall l executed, preserves R (printStatsLoop executed l).
Proof.
  intros Hemit; induction l as [|r l IH]; intros executed; cbn [printStatsLoop].
  - apply preserves_ret, R_refl.
  - destruct (Rule.printStats r) as [fn|]; [|apply IH].
    destruct (memNat fn executed); [apply IH|].
    apply preserves_bind; [exact R_trans | apply Hemit | intros _; apply IH].
Qed.

Lemma report_preserves (rt : Runtime) (resolvedConfig : ResolvedConfig)
    (checkStart checkConfigStart checkConfigEnd checkEnd : Z) :
  (forall e, isReportEvent e = true -> preserves R (emit e)) ->
  preserves R (report rt resolvedConfig checkStart checkConfigStart checkConfigEnd checkEnd).
Proof.
  intros Hemit; unfold report.
  apply preserves_bind;
    [exact R_trans | apply printCostPerRule_preserves; intros; apply Hemit; reflexivity|].
  intros _; apply preserves_bind; [exact R_trans | | intros _].
  { destruct (globHasPrintStats rt);
      [apply Hemit; reflexivity | apply preserves_ret, R_refl]. }
  apply preserves_bind; [exact R_trans | | intros _].
  { intros w; apply Hemit; reflexivity. }
  apply preserves_bind; [exact R_trans | | intros _].
  { intros w; apply Hemit; reflexivity. }
  apply printStatsLoop_preserves; intros; apply Hemit; reflexivity.
Qed.

End ReportPreserves.

Lemma report_unchanged (rt : Runtime) (resolvedConfig : ResolvedConfig)
    (checkStart checkConfigStart checkConfigEnd checkEnd : Z) :
  preserves unchanged
    (report rt resolvedConfig checkStart checkConfigStart checkConfigEnd checkEnd).
Proof.
  apply (report_preserves unchanged unchanged_refl unchanged_trans).
  intros e _ w; repeat split.
Qed.

Lemma report_extends (rt : Runtime) (resolvedConfig : ResolvedConfig)
    (checkStart checkConfigStart checkConfigEnd checkEnd : Z) :
  preserves (extends isReportEvent)
    (report rt resolvedConfig checkStart checkConfigStart checkConfigEnd checkEnd).
Proof.
  apply (report_preserves _ (extends_refl _) (extends_trans _)).
  intros e He; apply extends_emit; exact He.
Qed.

(** ** The scope phase prints scope events only *)

Ltac scope_steps :=
  cbv zeta;
  preserves_steps (extends_refl isScopeEvent) (extends_trans isScopeEvent);
  first [ apply extends_emit; reflexivity | silent_prim ].

Lemma shouldSkipPackage_extends (rt : Runtime) (host : Host) (c : Context) (r : Rule.t) :
  preserves (extends isScopeEvent) (shouldSkipPackage rt host c r).
Proof. unfold shouldSkipPackage; scope_steps. Qed.

Lemma ruleIteration_extends (rt : Runtime) (host : Host) (c : Context) (r : Rule.t) :
  preserves (extends isScopeEvent) (ruleIteration rt host c r).
Proof.
  unfold ruleIteration; cbv zeta.
  repeat (apply preserves_bind; [apply extends_trans | | intros ?]);
    try solve [silent_prim]; try apply shouldSkipPackage_extends.
  unfold awaitRuleCheck; scope_steps.
Qed.

Lemma checkPackage_extends (rt : Runtime) (host : Host) (resolvedConfig : ResolvedConfig)
    (c : Context) :
  preserves (extends isScopeEvent) (checkPackage rt host resolvedConfig c).
Proof.
  unfold checkPackage.
  apply preserves_bind; [apply extends_trans | unfold announce; scope_steps | intros _].
  apply preserves_bind; [apply extends_trans | | intros _].
  - apply preserves_forEach; [apply extends_refl | apply extends_trans|].
    intros r _; apply ruleIteration_extends.
  - unfold finish; scope_steps.
Qed.

Lemma checkScopes_extends (rt : Runtime) (host : Host) (resolvedConfig : ResolvedConfig)
    (workspaceDir cwd : string) (paths : option (list string)) (ws : Context) :
  preserves (extends isScopeEvent)
    (checkScopes rt host resolvedConfig workspaceDir cwd paths ws).
Proof.
  assert (Hroot : preserves (extends isScopeEvent)
                    (checkWorkspaceRoot rt host resolvedConfig ws)).
  { unfold checkWorkspaceRoot.
    apply preserves_bind; [apply extends_trans | silent_prim | intros _].
    apply checkPackage_extends. }
  assert (Hchild : forall dir, preserves (extends isScopeEvent)
                                 (checkChild rt host resolvedConfig ws dir)).
  { intros dir; unfold checkChild.
    apply preserves_bind; [apply extends_trans | silent_prim | intros _].
    apply preserves_bind; [apply extends_trans | silent_prim | intros child].
    apply checkPackage_extends. }
  unfold checkScopes; destruct paths as [paths|].
  - apply preserves_forEach; [apply extends_refl | apply extends_trans|].
    intros path _; destruct (String.eqb workspaceDir path); auto.
  - destruct (String.eqb workspaceDir cwd); [|apply Hchild].
    apply preserves_bind; [apply extends_trans | exact Hroot | intros _].
    apply preserves_forEach; [apply extends_refl | apply extends_trans|].
    intros dir _; apply Hchild.
Qed.

(** The hooks a reporting pass that returns has called, in order. *)
Lemma report_calls (rt : Runtime) (resolvedConfig : ResolvedConfig)
    (checkStart checkConfigStart checkConfigEnd checkEnd : Z) (w w' : World) :
  report rt resolvedConfig checkStart checkConfigStart checkConfigEnd checkEnd w = (Ok tt, w') ->
  exists evs,
    trace w' = trace w ++ evs /\
    printStatsCalls evs = hooksToCall [] (rules resolvedConfig).
Proof.
  unfold report; unfold bind at 1.
  assert (Hcost := printCostPerRule_preserves _
                     (extends_refl notPrintStats) (extends_trans notPrintStats)
                     (fun rows => extends_emit notPrintStats (EvCostPerRule rows) eq_refl) w).
  destruct (printCostPerRule w) as [[[]|e] w1]; [|discriminate].
  destruct Hcost as (evs1 & Htrace1 & Hnone1); cbn [snd] in Htrace1.
  unfold printIncludesExcludesCosts, printRandomStats.
  destruct (globHasPrintStats rt); run_prim; rewrite printStatsLoop_run;
    intros [= <-]; cbn [trace]; rewrite Htrace1, <- !app_assoc;
    eexists; (split; [reflexivity|]);
    rewrite !printStatsCalls_app, printStatsCalls_map, (printStatsCalls_none _ Hnone1);
    reflexivity.
Qed.

(** C8.  In a reporting pass every [printStats] function carried by some
    resolved rule is called exactly once, however many rules share the
    reference, and no other function is called as a rule hook. *)
Theorem printStats_called_once
    (rt : Runtime) (resolvedConfig : ResolvedConfig)
    (checkStart checkConfigStart checkConfigEnd checkEnd : Z) (w w' : World) :
  report rt resolvedConfig checkStart checkConfigStart checkConfigEnd checkEnd w = (Ok tt, w') ->
  exists evs,
    trace w' = trace w ++ evs /\
    forall fn,
      ((exists r, In r (rules resolvedConfig) /\ Rule.printStats r = Some fn) ->
       count_occ Nat.eq_dec (printStatsCalls evs) fn = 1%nat) /\
      ((~ exists r, In r (rules resolvedConfig) /\ Rule.printStats r = Some fn) ->
       count_occ Nat.eq_dec (printStatsCalls evs) fn = 0%nat).
Proof.
  intros Hrun; apply report_calls in Hrun.
  destruct Hrun as (evs & Htrace & Hcalls).
  exists evs; split; [exact Htrace|].
  destruct (hooksToCall_spec (rules resolvedConfig) []) as [ND Hin].
  intros fn; rewrite Hcalls; split.
  - intros Hsome.
    apply NoDup_count_occ'; [exact ND|].
    apply Hin; split; [intros [] | exact Hsome].
  - intros Hnone.
    apply count_occ_not_In; intros Hfn; apply Hin in Hfn.
    apply Hnone, Hfn.
Qed.

Lemma printStats_called_once_witness :
  exists evs,
    trace (snd (report Scenario.rt
                  (mkConfig [Scenario.ruleNoX; Scenario.ruleU1; Scenario.ruleU2] false)
                  0 0 0 0 Scenario.start)) = trace Scenario.start ++ evs /\
    count_occ Nat.eq_dec (printStatsCalls evs) 7%nat = 1%nat.
Proof.
  destruct (printStats_called_once Scenario.rt
              (mkConfig [Scenario.ruleNoX; Scenario.ruleU1; Scenario.ruleU2] false)
              0 0 0 0 Scenario.start
              (snd (report Scenario.rt
                      (mkConfig [Scenario.ruleNoX; Scenario.ruleU1; Scenario.ruleU2] false)
                      0 0 0 0 Scenario.start)))
    as (evs & Htrace & Hcount).
  - vm_compute; reflexivity.
  - exists evs; split; [exact Htrace|].
    apply (Hcount 7%nat).
    exists Scenario.ruleU1; split; [right; left; reflexivity | reflexivity].
Defined.

(** ** The scopes of a run *)

Lemma finishedScopes_app (evs1 evs2 : list Event) :
  finishedScopes (evs1 ++ evs2) = finishedScopes evs1 ++ finishedScopes evs2.
Proof.
  induction evs1 as [|e evs1 IH]; cbn [app finishedScopes]; [reflexivity|].
  destruct e; rewrite IH; reflexivity.
Qed.

Lemma finishedScopes_none (P : Event -> bool) (evs : list Event) :
  (forall c, P (EvFinish c) = false) ->
  forallb P evs = true -> finishedScopes evs = [].
Proof.
  intros HP; induction evs as [|e evs IH]; cbn [forallb finishedScopes]; [reflexivity|].
  intros H; apply andb_prop in H; destruct H as [He Hevs].
  destruct e; auto.
  rewrite HP in He; discriminate.
Qed.

Lemma finishedScopes_packageEvents (rt : Runtime) (host : Host)
    (resolvedConfig : ResolvedConfig) (c : Context) :
  finishedScopes (packageEvents rt host resolvedConfig c) = [c].
Proof.
  unfold packageEvents; rewrite !finishedScopes_app.
  assert (H1 : finishedScopes (announceEvents host resolvedConfig c) = []).
  { unfold announceEvents; destruct (verbose resolvedConfig); reflexivity. }
  assert (H2 : finishedScopes (flat_map (ruleEvents rt host c) (rules resolvedConfig)) = []).
  { induction (rules resolvedConfig) as [|r rs IH]; cbn [flat_map]; [reflexivity|].
    rewrite finishedScopes_app, IH, app_nil_r.
    unfold ruleEvents; destruct (skipDecision rt host c r); reflexivity. }
  rewrite H1, H2; reflexivity.
Qed.

Lemma scopesChecked_nil (rt : Runtime) (resolvedConfig : ResolvedConfig)
    (ws : Context) (w : World) :
  (addr ws < nextAddr w)%nat ->
  scopesChecked rt resolvedConfig ws [] w w.
Proof.
  intros Hws; unfold scopesChecked; cbn [List.length Z.of_nat].
  repeat split; auto using totalTimeGrows_refl; try lia.
  exists []; rewrite app_nil_r; cbn [finishedScopes map In].
  repeat split; auto; try contradiction.
  intros [H|(c & [] & _)]; exact H.
Qed.

Lemma scopesChecked_app (rt : Runtime) (resolvedConfig : ResolvedConfig)
    (ws : Context) (dirs1 dirs2 : list string) (w1 w2 w3 : World) :
  scopesChecked rt resolvedConfig ws dirs1 w1 w2 ->
  scopesChecked rt resolvedConfig ws dirs2 w2 w3 ->
  scopesChecked rt resolvedConfig ws (dirs1 ++ dirs2) w1 w3.
Proof.
  intros (A0 & A1 & (evs1 & At & Ad & Aa & Af) & A3 & A4 & A5 & A6 & A7 & A8)
         (B0 & B1 & (evs2 & Bt & Bd & Ba & Bf) & B3 & B4 & B5 & B6 & B7 & B8).
  unfold scopesChecked; rewrite length_app, Nat2Z.inj_add.
  repeat split; auto; try lia.
  - exists (evs1 ++ evs2); rewrite finishedScopes_app, map_app, Ad, Bd.
    repeat split.
    + rewrite Bt, At, app_assoc; reflexivity.
    + intros c Hc; apply in_app_or in Hc; destruct Hc as [Hc|Hc].
      * destruct (Aa c Hc) as [E|E]; [left; exact E | right; lia].
      * destruct (Ba c Hc) as [E|E]; [left; exact E | right; lia].
    + rewrite Bf, Af.
      intros [[H|(c & Hc & Hf)]|(c & Hc & Hf)].
      * left; exact H.
      * right; exists c; split; [apply in_or_app; left; exact Hc|].
        destruct (Aa c Hc) as [E|E].
        -- rewrite E; apply Bf; left; rewrite <- E; exact Hf.
        -- rewrite B3; [exact Hf | lia | lia].
      * right; exists c; split; [apply in_or_app; right; exact Hc | exact Hf].
    + intros [H|(c & Hc & Hf)].
      * apply Bf; left; apply Af; left; exact H.
      * apply in_app_or in Hc; destruct Hc as [Hc|Hc].
        -- destruct (Aa c Hc) as [E|E]; [rewrite <- E; exact Hf|].
           apply Bf; left; apply Af; right; exists c; split; [exact Hc|].
           rewrite <- B3; [exact Hf | lia | lia].
        -- apply Bf; right; exists c; auto.
  - intros a Ha Hne; rewrite B3, A3; auto; lia.
  - intros Hclock; eapply totalTimeGrows_trans; eauto.
Qed.

Lemma checkWorkspaceRoot_ok (rt : Runtime) (host : Host) (resolvedConfig : ResolvedConfig)
    (ws : Context) (w w' : World) :
  parent ws = None ->
  (addr ws < nextAddr w)%nat ->
  checkWorkspaceRoot rt host resolvedConfig ws w = (Ok tt, w') ->
  scopesChecked rt resolvedConfig ws [packageDir ws] w w'.
Proof.
  intros Hparent Hws; unfold checkWorkspaceRoot; run_prim.
  intros Hrun; apply checkPackage_ok in Hrun.
  destruct Hrun as (P1 & P2 & P3 & P4 & P5 & P6 & P7 & P8 & P9 & P10).
  cbn [nextAddr packagesChecked trace failed perRule] in *.
  assert (Hroot : getWorkspaceContext ws = addr ws)
    by (unfold getWorkspaceContext; rewrite Hparent; reflexivity).
  unfold scopesChecked; cbn [List.length Z.of_nat].
  repeat split; auto; try lia.
  exists (packageEvents rt host resolvedConfig ws).
  rewrite finishedScopes_packageEvents; cbn [map In].
  repeat split; auto.
  - intros c [<-|[]]; left; reflexivity.
  - intros Hf; right; exists ws; auto.
  - intros [Hf|(c & [<-|[]] & Hf)]; auto.
  - intros a _ Hne; apply P4; [exact Hne | rewrite Hroot; exact Hne].
Qed.

Lemma checkChild_ok (rt : Runtime) (host : Host) (resolvedConfig : ResolvedConfig)
    (ws : Context) (dir : string) (w w' : World) :
  (addr ws < nextAddr w)%nat ->
  checkChild rt host resolvedConfig ws dir w = (Ok tt, w') ->
  scopesChecked rt resolvedConfig ws [dir] w w'.
Proof.
  intros Hws; unfold checkChild; run_prim.
  intros Hrun; apply checkPackage_ok in Hrun.
  destruct Hrun as (P1 & P2 & P3 & P4 & P5 & P6 & P7 & P8 & P9 & P10).
  unfold getWorkspaceContext in P4, P6.
  cbn [nextAddr packagesChecked trace failed perRule addr parent] in *.
  assert (Hne : Nat.eqb (addr ws) (nextAddr w) = false) by (apply Nat.eqb_neq; lia).
  rewrite Hne in P6.
  unfold scopesChecked; cbn [List.length Z.of_nat].
  repeat split; auto; try lia.
  - exists (packageEvents rt host resolvedConfig
              (mkContext (nextAddr w) dir (Some (addr ws)))).
    rewrite finishedScopes_packageEvents; cbn [map In packageDir].
    repeat split; auto.
    + intros c [<-|[]]; right; cbn [addr]; lia.
    + rewrite P6; intros Hf; apply orb_prop in Hf; destruct Hf as [Hf|Hf]; [left; exact Hf|].
      right; eexists; split; [left; reflexivity | exact Hf].
    + rewrite P6; intros [Hf|(c & [<-|[]] & Hf)].
      * rewrite Hf; reflexivity.
      * cbn [addr] in Hf; rewrite Hf; apply orb_true_r.
  - intros a Ha Hne'; rewrite P4; [|lia|exact Hne'].
    assert (E : Nat.eqb a (nextAddr w) = false) by (apply Nat.eqb_neq; lia).
    rewrite E; reflexivity.
Qed.

Lemma forEach_scopesChecked (rt : Runtime) (resolvedConfig : ResolvedConfig)
    (ws : Context) (body : string -> M unit) (target : string -> string)
    (dirs : list string) :
  (forall dir w w', (addr ws < nextAddr w)%nat -> body dir w = (Ok tt, w') ->
                    scopesChecked rt resolvedConfig ws [target dir] w w') ->
  forall w w',
    (addr ws < nextAddr w)%nat ->
    forEach dirs body w = (Ok tt, w') ->
    scopesChecked rt resolvedConfig ws (map target dirs) w w'.
Proof.
  intros Hbody; induction dirs as [|dir dirs IH]; intros w w' Hws; cbn [forEach map].
  - intros [= <-]; apply scopesChecked_nil; exact Hws.
  - unfold bind.
    destruct (body dir w) as [[[]|e] w1] eqn:E1; [|discriminate].
    intros Hrest.
    assert (H1 := Hbody dir w w1 Hws E1).
    apply (scopesChecked_app rt resolvedConfig ws [target dir] (map target dirs) w w1 w');
      [exact H1|].
    apply IH; [|exact Hrest].
    destruct H1 as (_ & Hle & _); lia.
Qed.

(** The scope phase, when it returns, has checked the target scopes. *)
Lemma checkScopes_ok (rt : Runtime) (host : Host) (resolvedConfig : ResolvedConfig)
    (workspaceDir cwd : string) (paths : option (list string))
    (ws : Context) (w w' : World) :
  parent ws = None ->
  packageDir ws = workspaceDir ->
  (addr ws < nextAddr w)%nat ->
  checkScopes rt host resolvedConfig workspaceDir cwd paths ws w = (Ok tt, w') ->
  scopesChecked rt resolvedConfig ws (targetDirs rt host workspaceDir cwd paths) w w'.
Proof.
  intros Hparent Hdir Hws; unfold checkScopes, targetDirs.
  destruct paths as [paths|].
  - intros Hrun.
    rewrite <- (map_id (map _ paths)).
    revert Hrun; apply forEach_scopesChecked; [|exact Hws].
    intros dir w0 w0' Hws0; cbn beta.
    destruct (String.eqb workspaceDir dir) eqn:E.
    + apply String.eqb_eq in E; subst dir; rewrite <- Hdir.
      apply checkWorkspaceRoot_ok; assumption.
    + apply checkChild_ok; assumption.
  - destruct (String.eqb workspaceDir cwd).
    + unfold bind.
      destruct (checkWorkspaceRoot rt host resolvedConfig ws w) as [[[]|e] w1] eqn:E1;
        [|discriminate].
      intros Hrest.
      apply checkWorkspaceRoot_ok in E1; [|assumption|assumption].
      rewrite Hdir in E1.
      apply (scopesChecked_app rt resolvedConfig ws [workspaceDir] _ w w1 w'); [exact E1|].
      rewrite <- (map_id (getWorkspacePackageDirs host workspaceDir)).
      revert Hrest; apply forEach_scopesChecked.
      * intros dir w0 w0' Hws0; apply checkChild_ok; assumption.
      * destruct E1 as (_ & Hle & _); lia.
    + apply checkChild_ok; assumption.
Qed.

(** ** The whole run *)

(** [check] up to the end of the validation loop. *)
Lemma check_found (rt : Runtime) (resolvedConfig : ResolvedConfig) (host : Host)
    (cwd : option string) (paths : option (list string)) (reportStats : option bool)
    (workspaceDir : string) (w : World) :
  findWorkspaceDir host (cwdOrDefault rt cwd) = Some workspaceDir ->
  check rt resolvedConfig host cwd paths reportStats w =
  if forallb optionsValid (rules resolvedConfig)
  then
    (checkConfigEnd <- now rt ;;
     setPackagesChecked 0 ;;
     setPerRule [] ;;
     checkScopes rt host resolvedConfig workspaceDir (cwdOrDefault rt cwd) paths
       (mkContext (nextAddr w) workspaceDir None) ;;
     checkEnd <- now rt ;;
     (if truthy reportStats
      then report rt resolvedConfig (hrtime rt (clockReads w))
             (hrtime rt (S (clockReads w))) checkConfigEnd checkEnd
      else ret tt) ;;
     isFailed <- getFailed (nextAddr w) ;;
     ret (negb isFailed)) (afterValidation resolvedConfig w)
  else (Throw "options do not match the rule's runtype",
        afterValidation resolvedConfig w).
Proof.
  intros Hfind; unfold check, enterCheck.
  cbv zeta; rewrite Hfind.
  unfold bind at 1 2 3 4 5 6.
  unfold setPackagesChecked at 1, setPerRule at 1, now at 1 2,
    newWorkspaceContext, newContext.
  cbn [failed nextAddr perRule packagesChecked includesCost excludesCost
       clockReads globCalls trace fst snd addr].
  rewrite validate_run.
  cbn [failed nextAddr perRule packagesChecked includesCost excludesCost
       clockReads globCalls trace fst snd addr].
  unfold afterValidation.
  destruct (forallb optionsValid (rules resolvedConfig)); reflexivity.
Qed.

(** A run that returns: the options were valid, the scope phase checked
    the target scopes, the reporting pass only printed, and the result is
    the negation of the workspace context's [failed] flag. *)
Lemma check_ok (rt : Runtime) (resolvedConfig : ResolvedConfig) (host : Host)
    (cwd : option string) (paths : option (list string)) (reportStats : option bool)
    (workspaceDir : string) (w w' : World) (b : bool) :
  findWorkspaceDir host (cwdOrDefault rt cwd) = Some workspaceDir ->
  check rt resolvedConfig host cwd paths reportStats w = (Ok b, w') ->
  forallb optionsValid (rules resolvedConfig) = true /\
  exists w3,
    scopesChecked rt resolvedConfig (mkContext (nextAddr w) workspaceDir None)
      (targetDirs rt host workspaceDir (cwdOrDefault rt cwd) paths)
      (scopeStart resolvedConfig w) w3 /\
    unchanged w3 w' /\
    extends isReportEvent w3 w' /\
    b = negb (failed w' (nextAddr w)).
Proof.
  intros Hfind; rewrite (check_found _ _ _ _ _ _ _ _ Hfind).
  destruct (forallb optionsValid (rules resolvedConfig)); [|discriminate].
  unfold bind at 1 2 3; unfold now at 1, setPackagesChecked, setPerRule, afterValidation.
  cbn [failed nextAddr perRule packagesChecked includesCost excludesCost
       clockReads globCalls trace fst snd].
  fold (scopeStart resolvedConfig w).
  unfold bind at 1.
  destruct (checkScopes rt host resolvedConfig workspaceDir (cwdOrDefault rt cwd) paths
              (mkContext (nextAddr w) workspaceDir None) (scopeStart resolvedConfig w))
    as [[[]|e] w3] eqn:Escopes; [|discriminate].
  apply checkScopes_ok in Escopes; [|reflexivity|reflexivity|cbn; lia].
  intros Hrest; split; [reflexivity|]; exists w3; split; [exact Escopes|].
  revert Hrest; unfold bind at 1, now at 1.
  destruct (truthy reportStats).
  - unfold bind at 1.
    match goal with
    | |- context [report ?a ?b ?c ?d ?e ?f ?w0] =>
        assert (Hu := report_unchanged a b c d e f w0);
        assert (He := report_extends a b c d e f w0);
        destruct (report a b c d e f w0) as [[[]|err] w4]; [|discriminate]
    end.
    cbn [snd] in Hu, He; run_prim; intros [= <- <-].
    destruct Hu as (U1 & U2 & U3 & U4); destruct He as (evs & E1 & E2).
    cbn [failed nextAddr perRule packagesChecked trace] in *.
    repeat split; auto.
    exists evs; auto.
  - run_prim; intros [= <- <-].
    cbn [failed nextAddr perRule packagesChecked trace].
    repeat split; auto.
    apply extends_same_trace; reflexivity.
Qed.

Lemma check_not_found (rt : Runtime) (resolvedConfig : ResolvedConfig) (host : Host)
    (cwd : option string) (paths : option (list string)) (reportStats : option bool)
    (w : World) :
  findWorkspaceDir host (cwdOrDefault rt cwd) = None ->
  fst (check rt resolvedConfig host cwd paths reportStats w) =
  Throw ("Unable to find a workspace from " ++ cwdOrDefault rt cwd).
Proof.
  intros Hfind; unfold check, enterCheck; cbv zeta; rewrite Hfind; reflexivity.
Qed.

(** C1.  A run that resolves returns the negation of the workspace
    context's [failed] flag, and that is [true] exactly when no scope the
    run checked ended with its [failed] flag raised.  The checked scopes are
    the ones [finish()] was called on; their directories are the target
    directories of the run. *)
Theorem check_returns_not_failed
    (rt : Runtime) (resolvedConfig : ResolvedConfig) (host : Host)
    (cwd : option string) (paths : option (list string)) (reportStats : option bool)
    (w w' : World) (b : bool) :
  check rt resolvedConfig host cwd paths reportStats w = (Ok b, w') ->
  exists workspaceDir evs,
    findWorkspaceDir host (cwdOrDefault rt cwd) = Some workspaceDir /\
    trace w' = trace w ++ evs /\
    map packageDir (finishedScopes evs) =
      targetDirs rt host workspaceDir (cwdOrDefault rt cwd) paths /\
    (let workspaceContext := mkContext (nextAddr w) workspaceDir None in
     b = negb (failed w' (addr workspaceContext))) /\
    (b = true <-> forall c, In c (finishedScopes evs) -> failed w' (addr c) = false).
Proof.
  intros Hrun.
  destruct (findWorkspaceDir host (cwdOrDefault rt cwd)) as [workspaceDir|] eqn:Hfind.
  2: { apply (check_not_found rt resolvedConfig host cwd paths reportStats w) in Hfind.
       rewrite Hrun in Hfind; discriminate. }
  destruct (check_ok _ _ _ _ _ _ _ _ _ _ Hfind Hrun)
    as (_ & w3 & Hscopes & (U1 & _) & (evsR & HtraceR & HevsR) & Hb).
  destruct Hscopes as (_ & _ & (evsS & HtraceS & Hdirs & _ & Hfailed) & _).
  cbn [trace failed scopeStart addr] in HtraceS, Hfailed.
  rewrite Nat.eqb_refl in Hfailed.
  exists workspaceDir, (validateEvents (validatedRules (rules resolvedConfig)) ++ evsS ++ evsR).
  assert (Hfin : finishedScopes
                   (validateEvents (validatedRules (rules resolvedConfig)) ++ evsS ++ evsR)
                 = finishedScopes evsS).
  { rewrite !finishedScopes_app, validateEvents_no_finish.
    rewrite (finishedScopes_none isReportEvent evsR (fun _ => eq_refl) HevsR).
    rewrite app_nil_r; reflexivity. }
  rewrite Hfin; split; [reflexivity|]; split; [|split; [exact Hdirs|split; [exact Hb|]]].
  - rewrite HtraceR, HtraceS, <- !app_assoc; reflexivity.
  - rewrite Hb, U1; split.
    + intros Hok c Hc.
      apply not_true_is_false; intros Hfc.
      assert (Hws : failed w3 (nextAddr w) = true)
        by (apply Hfailed; right; exists c; auto).
      rewrite Hws in Hok; discriminate.
    + intros Hall.
      apply negb_true_iff, not_true_is_false; intros Hws.
      apply Hfailed in Hws; destruct Hws as [Hws|(c & Hc & Hfc)]; [discriminate|].
      rewrite (Hall c Hc) in Hfc; discriminate.
Qed.

Lemma check_returns_not_failed_witness :
  let w' := snd (check Scenario.rt (Scenario.config Scenario.passes Scenario.fails)
                   Scenario.host None None (Some true) Scenario.start) in
  exists workspaceDir evs,
    findWorkspaceDir Scenario.host (cwdOrDefault Scenario.rt None) = Some workspaceDir /\
    trace w' = trace Scenario.start ++ evs /\
    map packageDir (finishedScopes evs) =
      targetDirs Scenario.rt Scenario.host workspaceDir (cwdOrDefault Scenario.rt None) None /\
    (let workspaceContext := mkContext (nextAddr Scenario.start) workspaceDir None in
     false = negb (failed w' (addr workspaceContext))) /\
    (false = true <-> forall c, In c (finishedScopes evs) -> failed w' (addr c) = false).
Proof.
  apply (check_returns_not_failed Scenario.rt
           (Scenario.config Scenario.passes Scenario.fails) Scenario.host
           None None (Some true) Scenario.start).
  vm_compute; reflexivity.
Defined.

(** ** Validation comes first *)

Lemma preserves_extends_weaken {A : Type} (P Q : Event -> bool) (m : M A) :
  (forall e, P e = true -> Q e = true) ->
  preserves (extends P) m -> preserves (extends Q) m.
Proof. intros HPQ Hm w; apply (extends_weaken P Q); auto. Qed.

Lemma scope_event_not_validate (e : Event) : isScopeEvent e = true -> notValidate e = true.
Proof. destruct e; intros H; try discriminate; reflexivity. Qed.

Lemma report_event_not_validate (e : Event) : isReportEvent e = true -> notValidate e = true.
Proof. destruct e; intros H; try discriminate; reflexivity. Qed.

(** C4.  The options of the rules are validated once for the whole run,
    before any scope is processed: when all of them match, the run's events
    start with one validation per rule, in config order, and none follows;
    when the options of some rule do not match, [check] rejects right after
    that validation, with no scope checked, no child context created and
    the statistics empty. *)
Theorem options_validated_once
    (rt : Runtime) (resolvedConfig : ResolvedConfig) (host : Host)
    (cwd : option string) (paths : option (list string)) (reportStats : option bool)
    (workspaceDir : string) (w : World) :
  findWorkspaceDir host (cwdOrDefault rt cwd) = Some workspaceDir ->
  (forallb optionsValid (rules resolvedConfig) = true ->
   exists evs,
     trace (snd (check rt resolvedConfig host cwd paths reportStats w)) =
       trace w ++ validateEvents (rules resolvedConfig) ++ evs /\
     forallb notValidate evs = true) /\
  (forall pre r post,
     rules resolvedConfig = pre ++ r :: post ->
     forallb optionsValid pre = true ->
     optionsValid r = false ->
     exists w',
       check rt resolvedConfig host cwd paths reportStats w =
         (Throw "options do not match the rule's runtype", w') /\
       trace w' = trace w ++ validateEvents (pre ++ [r]) /\
       perRule w' = [] /\
       Stats.sumExecutions (perRule w') = 0 /\
       packagesChecked w' = 0 /\
       nextAddr w' = S (nextAddr w)).
Proof.
  intros Hfind; rewrite (check_found _ _ _ _ _ _ _ _ Hfind); split.
  - intros Hvalid; rewrite Hvalid.
    match goal with
    | |- context [snd (?tail (afterValidation resolvedConfig w))] =>
        assert (Htail : preserves (extends notValidate) tail)
    end.
    { repeat (apply preserves_bind; [apply extends_trans | | intros ?]);
        try solve [silent_prim].
      - apply (preserves_extends_weaken isScopeEvent);
          [exact scope_event_not_validate | apply checkScopes_extends].
      - destruct (truthy reportStats); [|apply preserves_ret, extends_refl].
        apply (preserves_extends_weaken isReportEvent);
          [exact report_event_not_validate | apply report_extends]. }
    destruct (Htail (afterValidation resolvedConfig w)) as (evs & Htrace & Hevs).
    exists evs; split; [|exact Hevs].
    rewrite Htrace; cbn [trace afterValidation].
    rewrite (validatedRules_all _ Hvalid), <- app_assoc; reflexivity.
  - intros pre r post Hrules Hpre Hr.
    rewrite Hrules.
    destruct (validatedRules_first_invalid pre post r Hpre Hr) as [Hvalidated ->].
    eexists; split; [reflexivity|].
    cbn [trace perRule packagesChecked nextAddr afterValidation Stats.sumExecutions
         fold_right].
    rewrite Hrules, Hvalidated; repeat split.
Qed.

Lemma options_validated_once_witness :
  exists w',
    check Scenario.rt
      (mkConfig [Scenario.ruleU1; Scenario.ruleBadOptions; Scenario.ruleU2] false)
      Scenario.host None None (Some true) Scenario.start =
      (Throw "options do not match the rule's runtype", w') /\
    trace w' = trace Scenario.start
                 ++ validateEvents ([Scenario.ruleU1] ++ [Scenario.ruleBadOptions]) /\
    perRule w' = [] /\
    Stats.sumExecutions (perRule w') = 0 /\
    packagesChecked w' = 0 /\
    nextAddr w' = S (nextAddr Scenario.start).
Proof.
  apply (options_validated_once Scenario.rt
           (mkConfig [Scenario.ruleU1; Scenario.ruleBadOptions; Scenario.ruleU2] false)
           Scenario.host None None (Some true) "/ws" Scenario.start eq_refl)
    with (post := [Scenario.ruleU2]); reflexivity.
Defined.

(** ** The scenario of the specification *)

Lemma skipDecision_package (rt : Runtime) (host : Host) (c : Context) (r : Rule.t) :
  isWorkspaceContext c = false ->
  Rule.excludePackages r = None ->
  Rule.includePackages r = None ->
  skipDecision rt host c r = false.
Proof.
  intros Hc Hex Hin; unfold skipDecision.
  rewrite Hc, Hex, Hin, andb_false_r; reflexivity.
Qed.

(** A rule without package patterns, run on a package scope, is checked:
    the iteration returns when the check resolves. *)
Lemma ruleIteration_package (rt : Runtime) (host : Host) (c : Context) (r : Rule.t) (w : World) :
  isWorkspaceContext c = false ->
  Rule.excludePackages r = None ->
  Rule.includePackages r = None ->
  rejects (Rule.check r c (failed w (addr c)) (Rule.options r)) = false ->
  exists w',
    ruleIteration rt host c r w = (Ok tt, w') /\
    failed w' =
      markFailed (Rule.check r c (failed w (addr c)) (Rule.options r)) c (failed w) /\
    nextAddr w' = nextAddr w /\
    packagesChecked w' = packagesChecked w /\
    trace w' = trace w ++ [EvCheckStart c (Rule.id r); EvCheckResolved c (Rule.id r)].
Proof.
  intros Hc Hex Hin Hrej.
  destruct (ruleIteration_run rt host c r w) as (inc & exc & n & calls & E).
  cbn zeta in E.
  rewrite (skipDecision_package rt host c r Hc Hex Hin), Hrej in E.
  eexists; split; [exact E|].
  cbn [failed nextAddr packagesChecked trace]; rewrite <- app_assoc.
  repeat split.
Qed.

(** [checkPackage] on the two rules of the scenario and a package scope. *)
Lemma checkPackage_scenario (rt : Runtime) (host : Host)
    (chkA chkB : Context -> bool -> Json -> CheckEffect) (c : Context) (w : World) :
  isWorkspaceContext c = false ->
  let effectA := chkA c (failed w (addr c)) JNull in
  let effectB := chkB c (failed w (addr c) || addsError effectA) JNull in
  rejects effectA = false ->
  rejects effectB = false ->
  exists w',
    checkPackage rt host (Scenario.config chkA chkB) c w = (Ok tt, w') /\
    failed w' = flushFailed c (markFailed effectB c (markFailed effectA c (failed w))) /\
    packagesChecked w' = packagesChecked w /\
    trace w' =
      trace w ++ [EvCheckStart c "ruleA"; EvCheckResolved c "ruleA";
                  EvCheckStart c "ruleB"; EvCheckResolved c "ruleB";
                  EvFinish c].
Proof.
  intros Hc effectA effectB HrejA HrejB.
  unfold checkPackage; unfold bind at 1; rewrite announce_run.
  unfold announceEvents; cbn [verbose Scenario.config rules forEach].
  destruct (ruleIteration_package rt host c (Scenario.ruleA chkA)
              (mkWorld (failed w) (nextAddr w) (perRule w) (packagesChecked w)
                 (includesCost w) (excludesCost w) (clockReads w) (globCalls w)
                 (trace w ++ []))
              Hc eq_refl eq_refl HrejA)
    as (w1 & E1 & F1 & _ & P1 & T1).
  cbn [failed packagesChecked trace Scenario.ruleA Rule.check Rule.options Rule.id] in F1, P1, T1.
  fold effectA in F1.
  assert (HrejB' : rejects (Rule.check (Scenario.ruleB chkB) c (failed w1 (addr c))
                              (Rule.options (Scenario.ruleB chkB))) = false).
  { rewrite F1, markFailed_self; exact HrejB. }
  destruct (ruleIteration_package rt host c (Scenario.ruleB chkB) w1
              Hc eq_refl eq_refl HrejB')
    as (w2 & E2 & F2 & _ & P2 & T2).
  cbn [Scenario.ruleB Rule.check Rule.options Rule.id] in F2, T2.
  rewrite F1, markFailed_self in F2; fold effectB in F2.
  unfold bind at 1 2 3; rewrite E1, E2; unfold ret at 1.
  rewrite finish_run.
  eexists; split; [reflexivity|].
  cbn [failed packagesChecked trace].
  rewrite F2, P2, P1, T2, T1, app_nil_r, <- !app_assoc.
  repeat split.
Qed.

(** C2, as the code has it.  In the scenario of two rules, [ruleA] leaving
    the workspace root out and [ruleB] applying everywhere, a run on the
    single explicit path [p] checks exactly one scope: the directory that
    contains [p].  When that directory is the package [pkgX] (so [p] names
    an entry of [pkgX], such as its [package.json]), both rules are checked
    once against [pkgX], [ruleA] first, and the run returns [true] exactly
    when neither of them records an error. *)
Theorem explicit_path_checks_containing_directory
    (rt : Runtime) (host : Host) (cwd : option string)
    (chkA chkB : Context -> bool -> Json -> CheckEffect)
    (workspaceDir pkgX p : string) (w : World) :
  findWorkspaceDir host (cwdOrDefault rt cwd) = Some workspaceDir ->
  Path.dirname (Path.resolve (processCwd rt) p) = pkgX ->
  pkgX <> workspaceDir ->
  let scope := mkContext (S (nextAddr w)) pkgX (Some (nextAddr w)) in
  let effectA := chkA scope false JNull in
  let effectB := chkB scope (addsError effectA) JNull in
  rejects effectA = false ->
  rejects effectB = false ->
  exists w',
    check rt (Scenario.config chkA chkB) host cwd (Some [p]) None w =
      (Ok (negb (addsError effectA || addsError effectB)), w') /\
    trace w' =
      trace w ++ [EvValidate "ruleA"; EvValidate "ruleB";
                  EvCheckStart scope "ruleA"; EvCheckResolved scope "ruleA";
                  EvCheckStart scope "ruleB"; EvCheckResolved scope "ruleB";
                  EvFinish scope] /\
    packagesChecked w' = 1.
Proof.
  intros Hfind Hdir Hne scope effectA effectB HrejA HrejB.
  rewrite (check_found _ _ _ _ _ _ _ _ Hfind).
  cbn [forallb Scenario.config rules].
  change (optionsValid (Scenario.ruleA chkA)) with true.
  change (optionsValid (Scenario.ruleB chkB)) with true.
  cbn [andb].
  unfold bind at 1 2 3; unfold now at 1, setPackagesChecked, setPerRule, afterValidation.
  cbn [failed nextAddr perRule packagesChecked includesCost excludesCost
       clockReads globCalls trace fst snd].
  unfold bind at 1, checkScopes.
  cbn [map forEach]; rewrite Hdir.
  assert (Hneq : String.eqb workspaceDir pkgX = false)
    by (apply String.eqb_neq; congruence).
  rewrite Hneq.
  unfold bind at 1, checkChild at 1.
  unfold bind at 1 2; unfold incrPackagesChecked, setPackagesChecked, createChildContext, newContext.
  cbn [failed nextAddr perRule packagesChecked includesCost excludesCost
       clockReads globCalls trace fst snd addr].
  fold scope.
  assert (Hscope : isWorkspaceContext scope = false).
  { unfold isWorkspaceContext, getWorkspaceContext; cbn [parent addr scope].
    apply Nat.eqb_neq; lia. }
  match goal with
  | |- context [checkPackage rt host ?cfg scope ?w1] =>
      destruct (checkPackage_scenario rt host chkA chkB scope w1 Hscope)
        as (w2 & E2 & F2 & P2 & T2)
  end.
  { cbn [failed addr scope]; rewrite Nat.eqb_refl; exact HrejA. }
  { cbn [failed addr scope]; rewrite Nat.eqb_refl; exact HrejB. }
  cbn [failed packagesChecked trace addr scope] in F2, P2, T2.
  rewrite Nat.eqb_refl in F2; cbn [orb] in F2.
  fold scope in F2, T2; fold effectA in F2; fold effectB in F2.
  rewrite E2; unfold ret at 1.
  unfold bind at 1 2 3; unfold now at 1, getFailed; cbn [truthy ret fst snd failed trace
                                                         packagesChecked].
  rewrite F2; unfold flushFailed; cbn [parent scope addr].
  rewrite Nat.eqb_refl, !markFailed_self, !markFailed_other by (cbn [addr scope]; lia).
  rewrite Nat.eqb_refl.
  assert (Hn : Nat.eqb (nextAddr w) (S (nextAddr w)) = false) by (apply Nat.eqb_neq; lia).
  rewrite Hn; change (addr scope) with (S (nextAddr w)).
  rewrite !Nat.eqb_refl; cbn [orb].
  eexists; split; [reflexivity|].
  cbn [trace packagesChecked]; rewrite T2, P2, <- app_assoc.
  split; reflexivity.
Qed.

Lemma explicit_path_checks_containing_directory_witness :
  exists w',
    check Scenario.rt (Scenario.config Scenario.passes Scenario.fails) Scenario.host
      None (Some ["/ws/packages/pkgX/package.json"]) None Scenario.start =
      (Ok false, w') /\
    trace w' =
      [EvValidate "ruleA"; EvValidate "ruleB";
       EvCheckStart Scenario.pkgXContext "ruleA";
       EvCheckResolved Scenario.pkgXContext "ruleA";
       EvCheckStart Scenario.pkgXContext "ruleB";
       EvCheckResolved Scenario.pkgXContext "ruleB";
       EvFinish Scenario.pkgXContext] /\
    packagesChecked w' = 1.
Proof.
  apply (explicit_path_checks_containing_directory Scenario.rt Scenario.host None
           Scenario.passes Scenario.fails "/ws" Scenario.pkgXDir
           "/ws/packages/pkgX/package.json" Scenario.start).
  - reflexivity.
  - vm_compute; reflexivity.
  - discriminate.
  - reflexivity.
  - reflexivity.
Defined.

(** The same run on the path of the package directory itself checks the
    directory above it: [pkgX] is not the scope that is checked. *)
Lemma explicit_path_of_package_directory :
  let w' := snd (check Scenario.rt (Scenario.config Scenario.passes Scenario.passes)
                   Scenario.host None (Some [Scenario.pkgXDir]) None Scenario.start) in
  map packageDir (finishedScopes (trace w')) = ["/ws/packages"] /\
  map packageDir (finishedScopes (trace w')) <> [Scenario.pkgXDir].
Proof.
  vm_compute; split; [reflexivity | discriminate].
Qed.

(** ** Timing over a whole scope phase *)

(** The buckets only grow over a whole [checkPackage] as well: the code
    between two rule iterations does not touch the statistics. *)
Lemma checkPackage_totalTime_grows
    (rt : Runtime) (host : Host) (resolvedConfig : ResolvedConfig)
    (c : Context) (w w' : World) :
  monotoneClock rt ->
  checkPackage rt host resolvedConfig c w = (Ok tt, w') ->
  totalTimeGrows (perRule w) (perRule w').
Proof.
  intros Hclock Hrun; apply checkPackage_ok in Hrun.
  destruct Hrun as (_ & _ & _ & _ & _ & _ & _ & _ & _ & Hgrow); auto.
Qed.

Lemma checkScopes_totalTime_grows
    (rt : Runtime) (host : Host) (resolvedConfig : ResolvedConfig)
    (workspaceDir cwd : string) (paths : option (list string))
    (ws : Context) (w w' : World) :
  monotoneClock rt ->
  parent ws = None ->
  packageDir ws = workspaceDir ->
  (addr ws < nextAddr w)%nat ->
  checkScopes rt host resolvedConfig workspaceDir cwd paths ws w = (Ok tt, w') ->
  totalTimeGrows (perRule w) (perRule w').
Proof.
  intros Hclock Hparent Hdir Hws Hrun.
  apply checkScopes_ok in Hrun; auto.
  destruct Hrun as (_ & _ & _ & _ & _ & _ & _ & _ & Hgrow); auto.
Qed.

(** ** Runs that return *)

Lemma returns_ret {A : Type} (a : A) : returns (ret a).
Proof. intros w; exists a; reflexivity. Qed.

Lemma returns_bind {A B : Type} (m : M A) (k : A -> M B) :
  returns m -> (forall a, returns (k a)) -> returns (bind m k).
Proof.
  intros Hm Hk w; unfold bind.
  destruct (Hm w) as (a & Ha).
  destruct (m w) as [[a'|e] w1]; cbn [fst] in Ha; [|discriminate].
  apply Hk.
Qed.

Lemma returns_forEach {A : Type} (l : list A) (body : A -> M unit) :
  (forall x, In x l -> returns (body x)) -> returns (forEach l body).
Proof.
  induction l as [|x l IH]; intros Hbody; cbn [forEach].
  - apply returns_ret.
  - apply returns_bind; [apply Hbody; left; reflexivity|].
    intros _; apply IH; intros y Hy; apply Hbody; right; exact Hy.
Qed.

Ltac returns_prim := intros ?; eexists; reflexivity.

Lemma ruleIteration_returns (rt : Runtime) (host : Host) (c : Context) (r : Rule.t) :
  neverRejects r -> returns (ruleIteration rt host c r).
Proof.
  intros Hr w.
  destruct (ruleIteration_run rt host c r w) as (inc & exc & n & calls & E).
  cbn zeta in E; rewrite Hr in E; rewrite E.
  exists tt; destruct (skipDecision rt host c r); reflexivity.
Qed.

(** When no rule's check rejects, [checkPackage] returns: every rule is
    processed and [finish()] is reached. *)
Lemma checkPackage_returns (rt : Runtime) (host : Host) (resolvedConfig : ResolvedConfig)
    (c : Context) :
  (forall r, In r (rules resolvedConfig) -> neverRejects r) ->
  returns (checkPackage rt host resolvedConfig c).
Proof.
  intros Hrules; unfold checkPackage.
  apply returns_bind.
  { intros w; rewrite announce_run; exists tt; reflexivity. }
  intros _; apply returns_bind.
  { apply returns_forEach; intros r Hr; apply ruleIteration_returns, Hrules, Hr. }
  intros _ w; rewrite finish_run; exists tt; reflexivity.
Qed.

Lemma checkScopes_returns (rt : Runtime) (host : Host) (resolvedConfig : ResolvedConfig)
    (workspaceDir cwd : string) (paths : option (list string)) (ws : Context) :
  (forall r, In r (rules resolvedConfig) -> neverRejects r) ->
  returns (checkScopes rt host resolvedConfig workspaceDir cwd paths ws).
Proof.
  intros Hrules.
  assert (Hroot : returns (checkWorkspaceRoot rt host resolvedConfig ws)).
  { unfold checkWorkspaceRoot; apply returns_bind; [returns_prim|].
    intros _; apply checkPackage_returns, Hrules. }
  assert (Hchild : forall dir, returns (checkChild rt host resolvedConfig ws dir)).
  { intros dir; unfold checkChild; apply returns_bind; [returns_prim|].
    intros _; apply returns_bind; [returns_prim|].
    intros child; apply checkPackage_returns, Hrules. }
  unfold checkScopes; destruct paths as [paths|].
  - apply returns_forEach; intros path _.
    destruct (String.eqb workspaceDir path); auto.
  - destruct (String.eqb workspaceDir cwd); [|apply Hchild].
    apply returns_bind; [exact Hroot|].
    intros _; apply returns_forEach; intros dir _; apply Hchild.
Qed.

Lemma keepsCounted_refl (w : World) : keepsCounted w w.
Proof. intros H; exact H. Qed.

Lemma keepsCounted_trans (w1 w2 w3 : World) :
  keepsCounted w1 w2 -> keepsCounted w2 w3 -> keepsCounted w1 w3.
Proof. unfold keepsCounted; auto. Qed.

Lemma keepsCounted_same (w w' : World) : perRule w' = perRule w -> keepsCounted w w'.
Proof. intros E H; rewrite E; exact H. Qed.

Lemma get_In (k : string) (b : Stats.Bucket) (m : Stats.PerRule) :
  Stats.get k m = Some b -> exists k', In (k', b) m.
Proof.
  induction m as [|[k0 v0] m IH]; cbn [Stats.get]; [discriminate|].
  destruct (String.eqb k0 k).
  - intros [= <-]; exists k0; left; reflexivity.
  - intros H; destruct (IH H) as (k' & Hin); exists k'; right; exact Hin.
Qed.

Lemma allCounted_set (k : string) (v : Stats.Bucket) (m : Stats.PerRule) :
  0 < Stats.executions v -> allCounted m -> allCounted (Stats.set k v m).
Proof.
  intros Hv; unfold allCounted.
  induction m as [|[k0 v0] m IH]; cbn [Stats.set]; intros Hm.
  - constructor; [exact Hv | constructor].
  - inversion Hm as [|x l Hx Hl]; subst.
    destruct (String.eqb k0 k); constructor; auto.
Qed.

Lemma bucketOf_counted (k : string) (m : Stats.PerRule) :
  allCounted m -> 0 <= Stats.executions (bucketOf k m).
Proof.
  intros Hm; unfold bucketOf.
  destruct (Stats.get k m) as [b|] eqn:G; [|cbn; lia].
  destruct (get_In k b m G) as (k' & Hin).
  unfold allCounted in Hm; rewrite Forall_forall in Hm.
  specialize (Hm _ Hin); cbn [snd] in Hm; lia.
Qed.

Lemma ruleIteration_keepsCounted (rt : Runtime) (host : Host) (c : Context) (r : Rule.t) :
  preserves keepsCounted (ruleIteration rt host c r).
Proof.
  intros w Hm.
  assert (H0 := bucketOf_counted (Rule.displayName r) (perRule w) Hm).
  destruct (ruleIteration_run rt host c r w) as (inc & exc & n & calls & E).
  cbn zeta in E; rewrite E.
  destruct (skipDecision rt host c r); [|destruct (rejects _)];
    cbn [snd perRule]; apply allCounted_set; auto; cbn; lia.
Qed.

Lemma checkScopes_keepsCounted (rt : Runtime) (host : Host) (resolvedConfig : ResolvedConfig)
    (workspaceDir cwd : string) (paths : option (list string)) (ws : Context) :
  preserves keepsCounted (checkScopes rt host resolvedConfig workspaceDir cwd paths ws).
Proof.
  assert (Hpkg : forall c, preserves keepsCounted (checkPackage rt host resolvedConfig c)).
  { intros c; unfold checkPackage.
    apply preserves_bind; [exact keepsCounted_trans | | intros _].
    { intros w; rewrite announce_run; apply keepsCounted_same; reflexivity. }
    apply preserves_bind; [exact keepsCounted_trans | | intros _].
    { apply preserves_forEach; [exact keepsCounted_refl | exact keepsCounted_trans|].
      intros r _; apply ruleIteration_keepsCounted. }
    intros w; rewrite finish_run; apply keepsCounted_same; reflexivity. }
  assert (Hroot : preserves keepsCounted (checkWorkspaceRoot rt host resolvedConfig ws)).
  { unfold checkWorkspaceRoot; apply preserves_bind; [exact keepsCounted_trans | | intros _].
    { intros w; apply keepsCounted_same; reflexivity. }
    apply Hpkg. }
  assert (Hchild : forall dir, preserves keepsCounted
                                 (checkChild rt host resolvedConfig ws dir)).
  { intros dir; unfold checkChild.
    apply preserves_bind; [exact keepsCounted_trans | | intros _].
    { intros w; apply keepsCounted_same; reflexivity. }
    apply preserves_bind; [exact keepsCounted_trans | | intros child].
    { intros w; apply keepsCounted_same; reflexivity. }
    apply Hpkg. }
  unfold checkScopes; destruct paths as [paths|].
  - apply preserves_forEach; [exact keepsCounted_refl | exact keepsCounted_trans|].
    intros path _; destruct (String.eqb workspaceDir path); auto.
  - destruct (String.eqb workspaceDir cwd); [|apply Hchild].
    apply preserves_bind; [exact keepsCounted_trans | exact Hroot | intros _].
    apply preserves_forEach; [exact keepsCounted_refl | exact keepsCounted_trans|].
    intros dir _; apply Hchild.
Qed.

Lemma insertSorted_Forall (P : Stats.Bucket -> Prop) (b : Stats.Bucket) (l : list Stats.Bucket) :
  P b -> Forall P l -> Forall P (Stats.insertSorted b l).
Proof.
  intros Hb; induction l as [|b' l IH]; cbn [Stats.insertSorted]; intros Hl.
  - constructor; [exact Hb | constructor].
  - inversion Hl as [|x l' Hx Hl']; subst.
    destruct (Stats.totalTime b <=? Stats.totalTime b'); constructor; auto.
Qed.

Lemma sortByTotalTime_Forall (P : Stats.Bucket -> Prop) (l : list Stats.Bucket) :
  Forall P l -> Forall P (Stats.sortByTotalTime l).
Proof.
  unfold Stats.sortByTotalTime; induction 1 as [|b l Hb Hl IH]; cbn [fold_right].
  - constructor.
  - apply insertSorted_Forall; assumption.
Qed.

(** With every bucket counted the per-rule table divides by no zero. *)
Lemma costRows_return (l : list Stats.Bucket) :
  Forall (fun b => 0 < Stats.executions b) l ->
  exists rows, forall w,
    mapM (fun result =>
            perRun <- bigintDiv (Stats.totalTime result) (Stats.executions result) ;;
            ret (Stats.totalTime result, Stats.name result,
                 Stats.executions result, perRun)) l w = (Ok rows, w).
Proof.
  induction 1 as [|b l Hb Hl (rows & IH)]; cbn [mapM].
  - exists []; reflexivity.
  - eexists; intros w.
    unfold bind at 1 2, bigintDiv.
    assert (E : (Stats.executions b =? 0) = false) by (apply Z.eqb_neq; lia).
    rewrite E; unfold ret at 1 2, bind at 1; rewrite IH; reflexivity.
Qed.

Lemma report_returns (rt : Runtime) (resolvedConfig : ResolvedConfig)
    (checkStart checkConfigStart checkConfigEnd checkEnd : Z) (w : World) :
  allCounted (perRule w) ->
  exists w',
    report rt resolvedConfig checkStart checkConfigStart checkConfigEnd checkEnd w =
    (Ok tt, w').
Proof.
  intros Hcounted.
  assert (Hcost : exists w1, printCostPerRule w = (Ok tt, w1)).
  { unfold printCostPerRule.
    destruct (0 <? Stats.size (perRule w))%nat; [|eexists; reflexivity].
    destruct (costRows_return (Stats.sortByTotalTime (map snd (perRule w)))) as (rows & Hrows).
    { apply sortByTotalTime_Forall.
      unfold allCounted in Hcounted; rewrite Forall_forall in *.
      intros b Hb; apply in_map_iff in Hb; destruct Hb as (kv & <- & Hkv); auto. }
    unfold bind; rewrite Hrows; eexists; reflexivity. }
  destruct Hcost as (w1 & Hcost).
  unfold report; unfold bind at 1; rewrite Hcost.
  unfold printIncludesExcludesCosts, printRandomStats.
  destruct (globHasPrintStats rt); run_prim; rewrite printStatsLoop_run;
    eexists; reflexivity.
Qed.

(** Where the host's lookups and the glob matcher return and every check
    settles, as the embedding has them, a run returns a boolean whenever the
    workspace is found, the options of every rule match and no check
    rejects. *)
Lemma check_resolves (rt : Runtime) (resolvedConfig : ResolvedConfig) (host : Host)
    (cwd : option string) (paths : option (list string)) (reportStats : option bool)
    (workspaceDir : string) (w : World) :
  findWorkspaceDir host (cwdOrDefault rt cwd) = Some workspaceDir ->
  forallb optionsValid (rules resolvedConfig) = true ->
  (forall r, In r (rules resolvedConfig) -> neverRejects r) ->
  exists b w', check rt resolvedConfig host cwd paths reportStats w = (Ok b, w').
Proof.
  intros Hfind Hvalid Hrules.
  rewrite (check_found _ _ _ _ _ _ _ _ Hfind), Hvalid.
  unfold bind at 1 2 3; unfold now at 1, setPackagesChecked, setPerRule, afterValidation.
  cbn [failed nextAddr perRule packagesChecked includesCost excludesCost
       clockReads globCalls trace fst snd].
  fold (scopeStart resolvedConfig w).
  unfold bind at 1.
  assert (Hret := checkScopes_returns rt host resolvedConfig workspaceDir
                    (cwdOrDefault rt cwd) paths
                    (mkContext (nextAddr w) workspaceDir None) Hrules
                    (scopeStart resolvedConfig w)).
  assert (Hcounted := checkScopes_keepsCounted rt host resolvedConfig workspaceDir
                        (cwdOrDefault rt cwd) paths
                        (mkContext (nextAddr w) workspaceDir None)
                        (scopeStart resolvedConfig w) (Forall_nil _)).
  destruct (checkScopes rt host resolvedConfig workspaceDir (cwdOrDefault rt cwd) paths
              (mkContext (nextAddr w) workspaceDir None) (scopeStart resolvedConfig w))
    as [[[]|e] w3]; [|destruct Hret as (a & Ha); discriminate].
  cbn [snd] in Hcounted.
  unfold bind at 1, now at 1.
  destruct (truthy reportStats).
  - unfold bind at 1.
    match goal with
    | |- context [report ?a ?b ?c ?d ?e ?f ?w0] =>
        destruct (report_returns a b c d e f w0 Hcounted) as (w4 & Hreport)
    end.
    rewrite Hreport; run_prim; do 2 eexists; reflexivity.
  - run_prim; do 2 eexists; reflexivity.
Qed.

(** * Further properties of [check.ts] *)

(** ** The skip decision in full *)

(** X1.  A call of [shouldSkipPackage] that returns lets the rule run on the
    scope (it returns [false]) exactly when the three conditions of lines
    208-229 hold together: the scope is not the workspace root or the rule
    includes the root, the exclude patterns (when defined) do not match the
    scope's name, and the include patterns (when defined) match it. *)
Theorem shouldSkipPackage_decision
    (rt : Runtime) (host : Host) (c : Context) (r : Rule.t) (w w' : World) (skip : bool) :
  shouldSkipPackage rt host c r w = (Ok skip, w') ->
  (skip = false <->
   (truthy (Rule.includeWorkspaceRoot r) = true \/ isWorkspaceContext c = false) /\
   (forall patterns, Rule.excludePackages r = Some patterns ->
      matchesAnyGlob rt (getName host (packageDir c)) patterns = false) /\
   (forall patterns, Rule.includePackages r = Some patterns ->
      matchesAnyGlob rt (getName host (packageDir c)) patterns = true)).
Proof.
  destruct (shouldSkipPackage_run rt host c r w) as (inc & exc & n & calls & E).
  rewrite E; intros [= <- _].
  unfold skipDecision.
  assert (Hroot : negb (truthy (Rule.includeWorkspaceRoot r)) && isWorkspaceContext c = false
                  <-> truthy (Rule.includeWorkspaceRoot r) = true \/
                      isWorkspaceContext c = false).
  { destruct (truthy (Rule.includeWorkspaceRoot r)), (isWorkspaceContext c);
      cbn; intuition discriminate. }
  assert (Hex : match Rule.excludePackages r with
                | Some patterns => matchesAnyGlob rt (getName host (packageDir c)) patterns
                | None => false
                end = false
                <-> forall patterns, Rule.excludePackages r = Some patterns ->
                      matchesAnyGlob rt (getName host (packageDir c)) patterns = false).
  { destruct (Rule.excludePackages r) as [ex|]; split; auto.
    - intros H patterns [= <-]; exact H.
    - intros _ patterns H; discriminate. }
  assert (Hin : match Rule.includePackages r with
                | None => true
                | Some patterns => matchesAnyGlob rt (getName host (packageDir c)) patterns
                end = true
                <-> forall patterns, Rule.includePackages r = Some patterns ->
                      matchesAnyGlob rt (getName host (packageDir c)) patterns = true).
  { destruct (Rule.includePackages r) as [inc'|]; split; auto.
    - intros H patterns [= <-]; exact H.
    - intros _ patterns H; discriminate. }
  rewrite <- Hroot, <- Hex, <- Hin.
  destruct (negb (truthy (Rule.includeWorkspaceRoot r)) && isWorkspaceContext c).
  { intuition discriminate. }
  destruct (match Rule.excludePackages r with
            | Some patterns => matchesAnyGlob rt (getName host (packageDir c)) patterns
            | None => false
            end).
  { intuition discriminate. }
  destruct (match Rule.includePackages r with
            | None => true
            | Some patterns => matchesAnyGlob rt (getName host (packageDir c)) patterns
            end); cbn; intuition discriminate.
Qed.

Lemma shouldSkipPackage_decision_witness :
  (truthy (Rule.includeWorkspaceRoot (Scenario.ruleB Scenario.passes)) = true \/
   isWorkspaceContext Scenario.pkgXContext = false) /\
  (forall patterns, Rule.excludePackages (Scenario.ruleB Scenario.passes) = Some patterns ->
     matchesAnyGlob Scenario.rt (getName Scenario.host (packageDir Scenario.pkgXContext))
       patterns = false) /\
  (forall patterns, Rule.includePackages (Scenario.ruleB Scenario.passes) = Some patterns ->
     matchesAnyGlob Scenario.rt (getName Scenario.host (packageDir Scenario.pkgXContext))
       patterns = true).
Proof.
  refine (proj1 (shouldSkipPackage_decision Scenario.rt Scenario.host Scenario.pkgXContext
                   (Scenario.ruleB Scenario.passes) Scenario.start
                   (snd (shouldSkipPackage Scenario.rt Scenario.host Scenario.pkgXContext
                           (Scenario.ruleB Scenario.passes) Scenario.start))
                   false _) eq_refl).
  vm_compute; reflexivity.
Defined.

(** X2.  With a clock that does not go back, a call of [shouldSkipPackage]
    that returns has not lowered [includesCost] or [excludesCost]; it has
    read the clock at most four times and left the contexts, the statistics,
    the count of packages and what was printed as they were. *)
Theorem shouldSkipPackage_costs
    (rt : Runtime) (host : Host) (c : Context) (r : Rule.t) (w w' : World) (skip : bool) :
  monotoneClock rt ->
  shouldSkipPackage rt host c r w = (Ok skip, w') ->
  includesCost w <= includesCost w' /\
  excludesCost w <= excludesCost w' /\
  (clockReads w <= clockReads w' <= clockReads w + 4)%nat /\
  failed w' = failed w /\
  nextAddr w' = nextAddr w /\
  perRule w' = perRule w /\
  packagesChecked w' = packagesChecked w /\
  trace w' = trace w.
Proof.
  intros Hclock.
  assert (H01 := Hclock (clockReads w) (S (clockReads w)) ltac:(lia)).
  assert (H23 := Hclock (S (S (clockReads w))) (S (S (S (clockReads w)))) ltac:(lia)).
  unfold shouldSkipPackage.
  destruct (negb (truthy (Rule.includeWorkspaceRoot r)) && isWorkspaceContext c).
  { intros [= _ <-]; repeat split; try reflexivity; lia. }
  destruct (Rule.excludePackages r) as [ex|]; run_prim;
    [destruct (matchesAnyGlob rt (getName host (packageDir c)) ex); run_prim|];
    try (intros [= _ <-]; cbn; repeat split; try reflexivity; lia);
    (destruct (Rule.includePackages r) as [inc|]; run_prim;
     [destruct (matchesAnyGlob rt (getName host (packageDir c)) inc); run_prim|]);
    cbn [negb]; run_prim; intros [= _ <-]; cbn; repeat split; try reflexivity; lia.
Qed.

Lemma shouldSkipPackage_costs_witness :
  let w' := snd (shouldSkipPackage Scenario.rt Scenario.host Scenario.pkgXContext
                   (Scenario.ruleB Scenario.passes) Scenario.start) in
  includesCost Scenario.start <= includesCost w' /\
  excludesCost Scenario.start <= excludesCost w' /\
  (clockReads Scenario.start <= clockReads w' <= clockReads Scenario.start + 4)%nat /\
  failed w' = failed Scenario.start /\
  nextAddr w' = nextAddr Scenario.start /\
  perRule w' = perRule Scenario.start /\
  packagesChecked w' = packagesChecked Scenario.start /\
  trace w' = trace Scenario.start.
Proof.
  apply (shouldSkipPackage_costs Scenario.rt Scenario.host Scenario.pkgXContext
           (Scenario.ruleB Scenario.passes) Scenario.start _ false
           scenario_clock_monotone).
  vm_compute; reflexivity.
Defined.

(** ** No workspace *)

(** X3.  When no workspace is found from [cwd], [check] throws "Unable to
    find a workspace from <cwd>" right after its first reading of the clock:
    no options are validated, no context is created and nothing is
    printed. *)
Theorem check_workspace_not_found
    (rt : Runtime) (resolvedConfig : ResolvedConfig) (host : Host)
    (cwd : option string) (paths : option (list string)) (reportStats : option bool)
    (w : World) :
  findWorkspaceDir host (cwdOrDefault rt cwd) = None ->
  exists w',
    check rt resolvedConfig host cwd paths reportStats w =
      (Throw ("Unable to find a workspace from " ++ cwdOrDefault rt cwd), w') /\
    trace w' = trace w /\
    nextAddr w' = nextAddr w /\
    failed w' = failed w /\
    clockReads w' = S (clockReads w) /\
    includesCost w' = includesCost w /\
    excludesCost w' = excludesCost w.
Proof.
  intros Hfind; unfold check, enterCheck; cbv zeta; rewrite Hfind.
  eexists; split; [reflexivity|]; repeat split.
Qed.

Lemma check_workspace_not_found_witness :
  exists w',
    check Scenario.rt (Scenario.config Scenario.passes Scenario.passes) Scenario.host
      (Some "/elsewhere") None (Some true) Scenario.start =
      (Throw "Unable to find a workspace from /elsewhere", w') /\
    trace w' = trace Scenario.start /\
    nextAddr w' = nextAddr Scenario.start /\
    failed w' = failed Scenario.start /\
    clockReads w' = S (clockReads Scenario.start) /\
    includesCost w' = includesCost Scenario.start /\
    excludesCost w' = excludesCost Scenario.start.
Proof.
  apply (check_workspace_not_found Scenario.rt
           (Scenario.config Scenario.passes Scenario.passes) Scenario.host
           (Some "/elsewhere") None (Some true) Scenario.start).
  reflexivity.
Defined.

(** ** What the reporting pass prints *)

Lemma printed_nil (w : World) : printed [] w = w.
Proof. unfold printed; rewrite app_nil_r; destruct w; reflexivity. Qed.

Lemma printed_printed (evs1 evs2 : list Event) (w : World) :
  printed evs2 (printed evs1 w) = printed (evs1 ++ evs2) w.
Proof. unfold printed; cbn; rewrite app_assoc; reflexivity. Qed.

(** The rows of the table are computed without touching the world, and a
    division that does not throw is the truncating quotient. *)
Lemma costRows_run (l : list Stats.Bucket) :
  forall w rows w',
    mapM (fun result =>
            perRun <- bigintDiv (Stats.totalTime result) (Stats.executions result) ;;
            ret (Stats.totalTime result, Stats.name result,
                 Stats.executions result, perRun)) l w = (Ok rows, w') ->
    rows = map costRow l /\ w' = w.
Proof.
  induction l as [|b l IH]; intros w rows w'; cbn [mapM map].
  - intros [= <- <-]; split; reflexivity.
  - unfold bind at 1 2, bigintDiv.
    destruct (Stats.executions b =? 0); [discriminate|].
    unfold ret at 1 2, bind at 1.
    match goal with
    | |- context [mapM ?f l w] => destruct (mapM f l w) as [[rows0|e] w0] eqn:E
    end; [|discriminate].
    destruct (IH _ _ _ E) as [-> ->].
    intros [= <- <-]; split; reflexivity.
Qed.

Lemma printCostPerRule_run (w w' : World) :
  printCostPerRule w = (Ok tt, w') -> w' = printed (costTable (perRule w)) w.
Proof.
  unfold printCostPerRule, costTable.
  destruct (0 <? Stats.size (perRule w))%nat.
  - unfold bind.
    match goal with
    | |- context [mapM ?f ?l w] => destruct (mapM f l w) as [[rows|e] w0] eqn:E
    end; [|discriminate].
    apply costRows_run in E; destruct E as [-> ->].
    intros [= <-]; reflexivity.
  - intros [= <-]; symmetry; apply printed_nil.
Qed.

(** A reporting pass that returns has printed [reportEvents], in that
    order, and changed nothing else. *)
Lemma report_run (rt : Runtime) (resolvedConfig : ResolvedConfig)
    (checkStart checkConfigStart checkConfigEnd checkEnd : Z) (w w' : World) :
  report rt resolvedConfig checkStart checkConfigStart checkConfigEnd checkEnd w = (Ok tt, w') ->
  w' = printed (reportEvents rt resolvedConfig checkStart checkConfigStart
                  checkConfigEnd checkEnd w) w.
Proof.
  unfold report; unfold bind at 1.
  destruct (printCostPerRule w) as [[[]|e] w1] eqn:Ecost; [|discriminate].
  apply printCostPerRule_run in Ecost; subst w1.
  unfold printIncludesExcludesCosts, printRandomStats, reportEvents.
  destruct (globHasPrintStats rt); run_prim; rewrite printStatsLoop_run;
    intros [= <-]; unfold printed;
    cbn [failed nextAddr perRule packagesChecked includesCost excludesCost
         clockReads globCalls trace];
    rewrite <- !app_assoc; reflexivity.
Qed.

(** X4.  A reporting pass that returns prints, in this order: the "Cost per
    rule type" table, only when the statistics hold at least one bucket,
    with one row per bucket carrying [totalTime], name, [executions] and the
    truncated quotient of the two; the glob collaborator's statistics when
    it has the hook; the include/exclude glob costs; the "Random Stats"
    row, whose "old" validation cost is the validation time multiplied by
    [packagesChecked - 1]; and the [printStats] hooks.  It changes nothing
    but the output. *)
Theorem report_prints
    (rt : Runtime) (resolvedConfig : ResolvedConfig)
    (checkStart checkConfigStart checkConfigEnd checkEnd : Z) (w w' : World) :
  report rt resolvedConfig checkStart checkConfigStart checkConfigEnd checkEnd w = (Ok tt, w') ->
  trace w' =
    trace w
      ++ (if (0 <? Stats.size (perRule w))%nat
          then [EvCostPerRule
                  (map (fun result =>
                          (Stats.totalTime result, Stats.name result,
                           Stats.executions result,
                           Z.quot (Stats.totalTime result) (Stats.executions result)))
                       (Stats.sortByTotalTime (map snd (perRule w))))]
          else [])
      ++ (if globHasPrintStats rt then [EvGlobPrintStats] else [])
      ++ [EvIncludesExcludesCosts (includesCost w) (excludesCost w);
          EvRandomStats (packagesChecked w)
            (checkConfigEnd - checkConfigStart)
            ((checkConfigEnd - checkConfigStart) * (packagesChecked w - 1))
            (checkEnd - checkStart)]
      ++ map EvPrintStats (hooksToCall [] (rules resolvedConfig)) /\
  failed w' = failed w /\
  nextAddr w' = nextAddr w /\
  perRule w' = perRule w /\
  packagesChecked w' = packagesChecked w /\
  includesCost w' = includesCost w /\
  excludesCost w' = excludesCost w /\
  clockReads w' = clockReads w /\
  globCalls w' = globCalls w.
Proof.
  intros Hrun; apply report_run in Hrun; subst w'.
  repeat split.
Qed.

Lemma report_prints_witness :
  trace (snd (report Scenario.rt
                (mkConfig [Scenario.ruleNoX; Scenario.ruleU1; Scenario.ruleU2] false)
                0 10 30 100 Scenario.start)) =
  [EvGlobPrintStats; EvIncludesExcludesCosts 0 0; EvRandomStats 0 20 (-20) 100;
   EvPrintStats 7].
Proof.
  apply (report_prints Scenario.rt
           (mkConfig [Scenario.ruleNoX; Scenario.ruleU1; Scenario.ruleU2] false)
           0 10 30 100 Scenario.start).
  vm_compute; reflexivity.
Defined.

(** ** The order of the table *)

Lemma insertSorted_perm (b : Stats.Bucket) (l : list Stats.Bucket) :
  Permutation (b :: l) (Stats.insertSorted b l).
Proof.
  induction l as [|b' l IH]; cbn [Stats.insertSorted]; [apply Permutation_refl|].
  destruct (Stats.totalTime b <=? Stats.totalTime b'); [apply Permutation_refl|].
  eapply Permutation_trans; [apply perm_swap | apply perm_skip, IH].
Qed.

Lemma insertSorted_sorted (b : Stats.Bucket) (l : list Stats.Bucket) :
  StronglySorted (fun x y => Stats.totalTime x <= Stats.totalTime y) l ->
  StronglySorted (fun x y => Stats.totalTime x <= Stats.totalTime y)
    (Stats.insertSorted b l).
Proof.
  induction 1 as [|b' l Hl IH Hb']; cbn [Stats.insertSorted].
  - constructor; constructor.
  - destruct (Stats.totalTime b <=? Stats.totalTime b') eqn:E.
    + apply Z.leb_le in E.
      constructor; [constructor; assumption|].
      constructor; [exact E|].
      rewrite Forall_forall in *; intros x Hx; specialize (Hb' x Hx); lia.
    + apply Z.leb_gt in E.
      constructor; [exact IH|].
      rewrite Forall_forall in *; intros x Hx.
      apply (Permutation_in _ (Permutation_sym (insertSorted_perm b l))) in Hx.
      destruct Hx as [<-|Hx]; [lia | auto].
Qed.

Lemma insertSorted_stable (t : Z) (b : Stats.Bucket) (l : list Stats.Bucket) :
  filter (fun x => Stats.totalTime x =? t) (Stats.insertSorted b l) =
  filter (fun x => Stats.totalTime x =? t) (b :: l).
Proof.
  induction l as [|b' l IH]; cbn [Stats.insertSorted]; [reflexivity|].
  destruct (Stats.totalTime b <=? Stats.totalTime b') eqn:E; [reflexivity|].
  apply Z.leb_gt in E.
  cbn [filter] in *; rewrite IH.
  destruct (Stats.totalTime b' =? t) eqn:E1, (Stats.totalTime b =? t) eqn:E2;
    try reflexivity.
  apply Z.eqb_eq in E1, E2; lia.
Qed.

(** X5.  The rows of the "Cost per rule type" table come in ascending
    [totalTime]; every bucket of the statistics gives exactly one row; and
    buckets with the same [totalTime] keep the order in which they entered
    the map (the sort is stable). *)
Theorem cost_table_order (m : Stats.PerRule) :
  let sorted := Stats.sortByTotalTime (map snd m) in
  StronglySorted (fun x y => Stats.totalTime x <= Stats.totalTime y) sorted /\
  Permutation (map snd m) sorted /\
  forall t, filter (fun x => Stats.totalTime x =? t) sorted =
            filter (fun x => Stats.totalTime x =? t) (map snd m).
Proof.
  cbv zeta; unfold Stats.sortByTotalTime.
  induction (map snd m) as [|b l (IHs & IHp & IHf)]; cbn [fold_right].
  - repeat split; [constructor | constructor].
  - repeat split.
    + apply insertSorted_sorted, IHs.
    + eapply Permutation_trans; [apply perm_skip, IHp | apply insertSorted_perm].
    + intros t; rewrite insertSorted_stable; cbn [filter]; rewrite IHf; reflexivity.
Qed.

(** ** The phases of a run that returns *)

(** A run that returns went through the scope phase, read the clock, and
    printed the report when asked to: the world it leaves is the one of the
    scope phase, one clock reading later, with the report printed. *)
Lemma check_ok_phases (rt : Runtime) (resolvedConfig : ResolvedConfig) (host : Host)
    (cwd : option string) (paths : option (list string)) (reportStats : option bool)
    (workspaceDir : string) (w w' : World) (b : bool) :
  findWorkspaceDir host (cwdOrDefault rt cwd) = Some workspaceDir ->
  check rt resolvedConfig host cwd paths reportStats w = (Ok b, w') ->
  forallb optionsValid (rules resolvedConfig) = true /\
  exists w3,
    checkScopes rt host resolvedConfig workspaceDir (cwdOrDefault rt cwd) paths
      (mkContext (nextAddr w) workspaceDir None) (scopeStart resolvedConfig w) = (Ok tt, w3) /\
    w' = (if truthy reportStats
          then printed (reportEvents rt resolvedConfig
                          (hrtime rt (clockReads w)) (hrtime rt (S (clockReads w)))
                          (hrtime rt (S (S (clockReads w)))) (hrtime rt (clockReads w3))
                          (tick w3))
                 (tick w3)
          else tick w3) /\
    b = negb (failed w3 (nextAddr w)).
Proof.
  intros Hfind; rewrite (check_found _ _ _ _ _ _ _ _ Hfind).
  destruct (forallb optionsValid (rules resolvedConfig)); [|discriminate].
  unfold bind at 1 2 3; unfold now at 1, setPackagesChecked, setPerRule, afterValidation.
  cbn [failed nextAddr perRule packagesChecked includesCost excludesCost
       clockReads globCalls trace fst snd].
  fold (scopeStart resolvedConfig w).
  unfold bind at 1.
  destruct (checkScopes rt host resolvedConfig workspaceDir (cwdOrDefault rt cwd) paths
              (mkContext (nextAddr w) workspaceDir None) (scopeStart resolvedConfig w))
    as [[[]|e] w3] eqn:Escopes; [|discriminate].
  intros Hrest; split; [reflexivity|]; exists w3; split; [reflexivity|].
  revert Hrest; unfold bind at 1, now at 1.
  fold (tick w3); cbn [fst snd].
  destruct (truthy reportStats).
  - unfold bind at 1.
    match goal with
    | |- context [report ?a ?b ?c ?d ?e ?f ?w0] =>
        destruct (report a b c d e f w0) as [[[]|err] w4] eqn:Ereport; [|discriminate]
    end.
    apply report_run in Ereport; subst w4.
    run_prim; intros [= <- <-]; split; reflexivity.
  - run_prim; intros [= <- <-]; split; reflexivity.
Qed.

(** ** The scopes of a run, one by one *)

Lemma forEach_ext {A : Type} (l : list A) (body1 body2 : A -> M unit) (w : World) :
  (forall x w0, body1 x w0 = body2 x w0) ->
  forEach l body1 w = forEach l body2 w.
Proof.
  intros Hext; revert w; induction l as [|x l IH]; intros w; cbn [forEach]; [reflexivity|].
  unfold bind; rewrite Hext.
  destruct (body2 x w) as [[[]|e] w1]; [apply IH | reflexivity].
Qed.

Lemma forEach_map {A B : Type} (f : A -> B) (l : list A) (body : B -> M unit) (w : World) :
  forEach (map f l) body w = forEach l (fun x => body (f x)) w.
Proof.
  revert w; induction l as [|x l IH]; intros w; cbn [forEach map]; [reflexivity|].
  unfold bind; destruct (body (f x) w) as [[[]|e] w1]; [apply IH | reflexivity].
Qed.

(** The scope phase is the loop over the targets. *)
Lemma checkScopes_targets (rt : Runtime) (host : Host) (resolvedConfig : ResolvedConfig)
    (workspaceDir cwd : string) (paths : option (list string)) (ws : Context) (w : World) :
  checkScopes rt host resolvedConfig workspaceDir cwd paths ws w =
  forEach (targets rt host workspaceDir cwd paths) (checkTarget rt host resolvedConfig ws) w.
Proof.
  unfold checkScopes, targets; destruct paths as [paths|].
  - rewrite !forEach_map; apply forEach_ext; intros p w0; cbv zeta.
    destruct (String.eqb workspaceDir (Path.dirname (Path.resolve (processCwd rt) p)));
      reflexivity.
  - destruct (String.eqb workspaceDir cwd); cbn [forEach].
    + unfold bind; cbn [checkTarget].
      destruct (checkWorkspaceRoot rt host resolvedConfig ws w) as [[[]|e] w1];
        [|reflexivity].
      rewrite forEach_map; reflexivity.
    + unfold bind, ret; cbn [checkTarget].
      destruct (checkChild rt host resolvedConfig ws cwd w) as [[[]|e] w1]; reflexivity.
Qed.

Lemma checkWorkspaceRoot_trace (rt : Runtime) (host : Host) (resolvedConfig : ResolvedConfig)
    (ws : Context) (w w' : World) :
  checkWorkspaceRoot rt host resolvedConfig ws w = (Ok tt, w') ->
  trace w' = trace w ++ packageEvents rt host resolvedConfig ws /\
  nextAddr w' = nextAddr w /\
  packagesChecked w' = packagesChecked w + 1.
Proof.
  unfold checkWorkspaceRoot; run_prim.
  intros Hrun; apply checkPackage_ok in Hrun.
  destruct Hrun as (P1 & P2 & P3 & _).
  cbn [nextAddr packagesChecked trace] in *; auto.
Qed.

Lemma checkChild_trace (rt : Runtime) (host : Host) (resolvedConfig : ResolvedConfig)
    (ws : Context) (dir : string) (w w' : World) :
  checkChild rt host resolvedConfig ws dir w = (Ok tt, w') ->
  trace w' = trace w ++ packageEvents rt host resolvedConfig
                          (mkContext (nextAddr w) dir (Some (addr ws))) /\
  nextAddr w' = S (nextAddr w) /\
  packagesChecked w' = packagesChecked w + 1.
Proof.
  unfold checkChild; run_prim.
  intros Hrun; apply checkPackage_ok in Hrun.
  destruct Hrun as (P1 & P2 & P3 & _).
  cbn [nextAddr packagesChecked trace] in *; auto.
Qed.

Lemma forEach_targets_trace (rt : Runtime) (host : Host) (resolvedConfig : ResolvedConfig)
    (ws : Context) (ts : list Target) :
  forall w w',
    forEach ts (checkTarget rt host resolvedConfig ws) w = (Ok tt, w') ->
    trace w' = trace w ++ flat_map (packageEvents rt host resolvedConfig)
                            (targetContexts ws (nextAddr w) ts) /\
    packagesChecked w' = packagesChecked w + Z.of_nat (List.length ts) /\
    nextAddr w' = (nextAddr w + countPackages ts)%nat.
Proof.
  unfold countPackages.
  induction ts as [|t ts IH]; intros w w';
    cbn [forEach targetContexts flat_map List.length filter].
  - intros [= <-]; rewrite app_nil_r; repeat split; lia.
  - unfold bind.
    destruct (checkTarget rt host resolvedConfig ws t w) as [[[]|e] w1] eqn:E1;
      [|discriminate].
    intros Hrest; destruct (IH _ _ Hrest) as (T2 & P2 & N2).
    destruct t as [|dir]; cbn [checkTarget] in E1.
    + apply checkWorkspaceRoot_trace in E1; destruct E1 as (T1 & N1 & P1).
      rewrite T2, T1, P2, P1, N2, N1, <- app_assoc; cbn [flat_map].
      repeat split; lia.
    + apply checkChild_trace in E1; destruct E1 as (T1 & N1 & P1).
      rewrite T2, T1, P2, P1, N2, N1, <- app_assoc; cbn [flat_map List.length].
      repeat split; lia.
Qed.

Lemma finishedScopes_flat_map (rt : Runtime) (host : Host) (resolvedConfig : ResolvedConfig)
    (cs : list Context) :
  finishedScopes (flat_map (packageEvents rt host resolvedConfig) cs) = cs.
Proof.
  induction cs as [|c cs IH]; cbn [flat_map]; [reflexivity|].
  rewrite finishedScopes_app, finishedScopes_packageEvents, IH; reflexivity.
Qed.

Lemma reportEvents_report (rt : Runtime) (resolvedConfig : ResolvedConfig)
    (checkStart checkConfigStart checkConfigEnd checkEnd : Z) (w : World) :
  forallb isReportEvent
    (reportEvents rt resolvedConfig checkStart checkConfigStart checkConfigEnd checkEnd w)
  = true.
Proof.
  unfold reportEvents, costTable; rewrite !forallb_app.
  assert (H : forall l, forallb isReportEvent (map EvPrintStats l) = true)
    by (induction l as [|x l IH]; simpl; auto).
  rewrite H.
  destruct (0 <? Stats.size (perRule w))%nat, (globHasPrintStats rt); reflexivity.
Qed.

(** The whole trace of a run that returns: the validations, then the
    targets one after the other, then the report. *)
Lemma check_run_trace (rt : Runtime) (resolvedConfig : ResolvedConfig) (host : Host)
    (cwd : option string) (paths : option (list string)) (reportStats : option bool)
    (workspaceDir : string) (w w' : World) (b : bool) :
  findWorkspaceDir host (cwdOrDefault rt cwd) = Some workspaceDir ->
  check rt resolvedConfig host cwd paths reportStats w = (Ok b, w') ->
  exists reported,
    trace w' =
      trace w
        ++ validateEvents (rules resolvedConfig)
        ++ flat_map (packageEvents rt host resolvedConfig)
             (targetContexts (mkContext (nextAddr w) workspaceDir None) (S (nextAddr w))
                (targets rt host workspaceDir (cwdOrDefault rt cwd) paths))
        ++ reported /\
    forallb isReportEvent reported = true /\
    (truthy reportStats = false -> reported = []) /\
    packagesChecked w' =
      Z.of_nat (List.length (targets rt host workspaceDir (cwdOrDefault rt cwd) paths)) /\
    nextAddr w' =
      (S (nextAddr w)
       + countPackages (targets rt host workspaceDir (cwdOrDefault rt cwd) paths))%nat.
Proof.
  intros Hfind Hrun.
  destruct (check_ok_phases _ _ _ _ _ _ _ _ _ _ Hfind Hrun)
    as (Hvalid & w3 & Hscopes & Hw' & _).
  rewrite checkScopes_targets in Hscopes.
  apply forEach_targets_trace in Hscopes; destruct Hscopes as (T3 & P3 & N3).
  cbn [trace packagesChecked nextAddr scopeStart] in T3, P3, N3.
  rewrite (validatedRules_all _ Hvalid) in T3.
  destruct (truthy reportStats); subst w'.
  - eexists; cbn [trace packagesChecked nextAddr printed tick];
      rewrite T3, P3, N3, <- !app_assoc.
    repeat split; [apply reportEvents_report | discriminate].
  - exists []; cbn [trace packagesChecked nextAddr tick];
      rewrite T3, P3, N3, <- !app_assoc, app_nil_r.
    repeat split.
Qed.

Lemma finishedScopes_run (rt : Runtime) (host : Host) (resolvedConfig : ResolvedConfig)
    (validated : list Rule.t) (cs : list Context) (reported : list Event) :
  forallb isReportEvent reported = true ->
  finishedScopes (validateEvents validated
                    ++ flat_map (packageEvents rt host resolvedConfig) cs ++ reported) = cs.
Proof.
  intros Hreported.
  rewrite !finishedScopes_app, validateEvents_no_finish, finishedScopes_flat_map.
  rewrite (finishedScopes_none isReportEvent reported (fun _ => eq_refl) Hreported).
  rewrite app_nil_r; reflexivity.
Qed.

Lemma targetContexts_length (ws : Context) (ts : list Target) :
  forall next, List.length (targetContexts ws next ts) = List.length ts.
Proof.
  induction ts as [|[|dir] ts IH]; intros next; cbn [targetContexts List.length]; auto.
Qed.

(** X6.  The complete output of a run that resolves: one validation per
    rule, in config order; then, target after target, the events of its
    [checkPackage] (the verbose line, the checks of the rules that are not
    skipped, [finish()]), the workspace root being checked through the
    workspace context and every other target through a child context
    created for it; then the report, which is empty unless [reportStats] is
    truthy.  [packagesChecked] ends as the number of targets, and one child
    context was allocated per package target. *)
Theorem resolved_run_trace
    (rt : Runtime) (resolvedConfig : ResolvedConfig) (host : Host)
    (cwd : option string) (paths : option (list string)) (reportStats : option bool)
    (workspaceDir : string) (w w' : World) (b : bool) :
  findWorkspaceDir host (cwdOrDefault rt cwd) = Some workspaceDir ->
  check rt resolvedConfig host cwd paths reportStats w = (Ok b, w') ->
  let workspaceContext := mkContext (nextAddr w) workspaceDir None in
  let scopes :=
    targetContexts workspaceContext (S (nextAddr w))
      (targets rt host workspaceDir (cwdOrDefault rt cwd) paths) in
  exists reported,
    trace w' =
      trace w
        ++ map (fun r => EvValidate (Rule.id r)) (rules resolvedConfig)
        ++ flat_map (packageEvents rt host resolvedConfig) scopes
        ++ reported /\
    forallb isReportEvent reported = true /\
    (truthy reportStats = false -> reported = []) /\
    packagesChecked w' = Z.of_nat (List.length scopes) /\
    nextAddr w' =
      (S (nextAddr w)
       + countPackages (targets rt host workspaceDir (cwdOrDefault rt cwd) paths))%nat.
Proof.
  intros Hfind Hrun; cbv zeta.
  destruct (check_run_trace _ _ _ _ _ _ _ _ _ _ Hfind Hrun)
    as (reported & Htrace & Hrep & Hnone & Hcount & Halloc).
  exists reported.
  split; [exact Htrace|]; split; [exact Hrep|]; split; [exact Hnone|];
    split; [|exact Halloc].
  rewrite Hcount, targetContexts_length; reflexivity.
Qed.

Lemma resolved_run_trace_witness :
  exists reported,
    trace (snd (check Scenario.rt (Scenario.config Scenario.passes Scenario.fails)
                  Scenario.host None None (Some true) Scenario.start)) =
      trace Scenario.start
        ++ [EvValidate "ruleA"; EvValidate "ruleB"]
        ++ flat_map (packageEvents Scenario.rt Scenario.host
                       (Scenario.config Scenario.passes Scenario.fails))
             [Scenario.rootContext; Scenario.pkgXContext;
              mkContext 2 Scenario.pkgYDir (Some 0%nat)]
        ++ reported /\
    forallb isReportEvent reported = true.
Proof.
  destruct (resolved_run_trace Scenario.rt (Scenario.config Scenario.passes Scenario.fails)
              Scenario.host None None (Some true) "/ws" Scenario.start
              (snd (check Scenario.rt (Scenario.config Scenario.passes Scenario.fails)
                      Scenario.host None None (Some true) Scenario.start))
              false eq_refl)
    as (reported & Htrace & Hrep & _).
  - vm_compute; reflexivity.
  - exists reported; split; [exact Htrace | exact Hrep].
Defined.

Lemma targetContexts_packages (ws : Context) (dirs : list string) :
  forall next,
    map packageDir (targetContexts ws next (map TPackage dirs)) = dirs /\
    Forall (fun c => parent c = Some (addr ws) /\ (next <= addr c)%nat)
      (targetContexts ws next (map TPackage dirs)).
Proof.
  induction dirs as [|dir dirs IH]; intros next; cbn [map targetContexts].
  - split; [reflexivity | constructor].
  - destruct (IH (S next)) as [Hdirs Hall]; split.
    + cbn [packageDir]; rewrite Hdirs; reflexivity.
    + constructor; [cbn; split; [reflexivity | lia]|].
      eapply Forall_impl; [|exact Hall].
      intros c [Hp Ha]; split; [exact Hp | lia].
Qed.

(** X7.  A full-workspace run ([paths] omitted, [cwd] the workspace root)
    that resolves has checked the workspace context first and then one new
    child context per directory of [getWorkspacePackageDirs], in that order:
    [1 + n] scopes.  None of the children is the workspace context, whatever
    its directory. *)
Theorem full_workspace_run
    (rt : Runtime) (resolvedConfig : ResolvedConfig) (host : Host)
    (cwd : option string) (reportStats : option bool)
    (workspaceDir : string) (w w' : World) (b : bool) :
  findWorkspaceDir host (cwdOrDefault rt cwd) = Some workspaceDir ->
  cwdOrDefault rt cwd = workspaceDir ->
  check rt resolvedConfig host cwd None reportStats w = (Ok b, w') ->
  exists evs children,
    trace w' = trace w ++ evs /\
    finishedScopes evs = mkContext (nextAddr w) workspaceDir None :: children /\
    map packageDir children = getWorkspacePackageDirs host workspaceDir /\
    Forall (fun c => parent c = Some (nextAddr w) /\ isWorkspaceContext c = false) children /\
    packagesChecked w' =
      1 + Z.of_nat (List.length (getWorkspacePackageDirs host workspaceDir)).
Proof.
  intros Hfind Hcwd Hrun.
  destruct (check_run_trace _ _ _ _ _ _ _ _ _ _ Hfind Hrun)
    as (reported & Htrace & Hrep & _ & Hcount & _).
  unfold targets in Htrace, Hcount.
  rewrite Hcwd, String.eqb_refl in Htrace, Hcount.
  cbn [targetContexts List.length] in Htrace, Hcount.
  destruct (targetContexts_packages (mkContext (nextAddr w) workspaceDir None)
              (getWorkspacePackageDirs host workspaceDir) (S (nextAddr w)))
    as [Hdirs Hall].
  eexists; eexists; split; [exact Htrace|].
  rewrite finishedScopes_run by exact Hrep.
  split; [reflexivity|]; split; [exact Hdirs|]; split.
  - eapply Forall_impl; [|exact Hall].
    cbn [addr]; intros c [Hp Ha]; split; [exact Hp|].
    unfold isWorkspaceContext, getWorkspaceContext; rewrite Hp.
    apply Nat.eqb_neq; lia.
  - rewrite Hcount, length_map; lia.
Qed.

Lemma full_workspace_run_witness :
  exists evs children,
    trace (snd (check Scenario.rt (Scenario.config Scenario.passes Scenario.fails)
                  Scenario.host None None None Scenario.start)) =
      trace Scenario.start ++ evs /\
    finishedScopes evs = mkContext (nextAddr Scenario.start) "/ws" None :: children /\
    map packageDir children = getWorkspacePackageDirs Scenario.host "/ws" /\
    Forall (fun c => parent c = Some (nextAddr Scenario.start) /\
                     isWorkspaceContext c = false) children /\
    packagesChecked (snd (check Scenario.rt (Scenario.config Scenario.passes Scenario.fails)
                            Scenario.host None None None Scenario.start)) =
      1 + Z.of_nat (List.length (getWorkspacePackageDirs Scenario.host "/ws")).
Proof.
  apply (full_workspace_run Scenario.rt (Scenario.config Scenario.passes Scenario.fails)
           Scenario.host None None "/ws" Scenario.start _ false).
  - reflexivity.
  - reflexivity.
  - vm_compute; reflexivity.
Defined.

(** X8.  A run on one explicit path whose containing directory is the
    workspace root checks the workspace context itself: it is the only scope
    checked and no child context is created for it. *)
Theorem explicit_root_path
    (rt : Runtime) (resolvedConfig : ResolvedConfig) (host : Host)
    (cwd : option string) (p : string) (reportStats : option bool)
    (workspaceDir : string) (w w' : World) (b : bool) :
  findWorkspaceDir host (cwdOrDefault rt cwd) = Some workspaceDir ->
  Path.dirname (Path.resolve (processCwd rt) p) = workspaceDir ->
  check rt resolvedConfig host cwd (Some [p]) reportStats w = (Ok b, w') ->
  exists evs,
    trace w' = trace w ++ evs /\
    finishedScopes evs = [mkContext (nextAddr w) workspaceDir None] /\
    isWorkspaceContext (mkContext (nextAddr w) workspaceDir None) = true /\
    nextAddr w' = S (nextAddr w) /\
    packagesChecked w' = 1.
Proof.
  intros Hfind Hdir Hrun.
  destruct (check_run_trace _ _ _ _ _ _ _ _ _ _ Hfind Hrun)
    as (reported & Htrace & Hrep & _ & Hcount & Halloc).
  unfold targets in Htrace, Hcount, Halloc; cbn [map] in Htrace, Hcount, Halloc.
  rewrite Hdir, String.eqb_refl in Htrace, Hcount, Halloc.
  cbn [targetContexts] in Htrace.
  eexists; split; [exact Htrace|].
  rewrite finishedScopes_run by exact Hrep.
  split; [reflexivity|]; split; [apply Nat.eqb_refl|]; split.
  - rewrite Halloc; cbn; lia.
  - rewrite Hcount; reflexivity.
Qed.

Lemma explicit_root_path_witness :
  exists evs,
    trace (snd (check Scenario.rt (Scenario.config Scenario.passes Scenario.fails)
                  Scenario.host None (Some ["/ws/package.json"]) None Scenario.start)) =
      trace Scenario.start ++ evs /\
    finishedScopes evs = [mkContext (nextAddr Scenario.start) "/ws" None] /\
    isWorkspaceContext (mkContext (nextAddr Scenario.start) "/ws" None) = true /\
    nextAddr (snd (check Scenario.rt (Scenario.config Scenario.passes Scenario.fails)
                     Scenario.host None (Some ["/ws/package.json"]) None Scenario.start)) =
      S (nextAddr Scenario.start) /\
    packagesChecked (snd (check Scenario.rt (Scenario.config Scenario.passes Scenario.fails)
                            Scenario.host None (Some ["/ws/package.json"]) None
                            Scenario.start)) = 1.
Proof.
  apply (explicit_root_path Scenario.rt (Scenario.config Scenario.passes Scenario.fails)
           Scenario.host None "/ws/package.json" None "/ws" Scenario.start _ false).
  - reflexivity.
  - vm_compute; reflexivity.
  - vm_compute; reflexivity.
Defined.

(** X9.  A single-package run ([paths] omitted, [cwd] inside the workspace
    but not its root) that resolves has checked exactly one scope: a child
    context created for [cwd], which is not the workspace context. *)
Theorem single_package_run
    (rt : Runtime) (resolvedConfig : ResolvedConfig) (host : Host)
    (cwd : option string) (reportStats : option bool)
    (workspaceDir : string) (w w' : World) (b : bool) :
  findWorkspaceDir host (cwdOrDefault rt cwd) = Some workspaceDir ->
  cwdOrDefault rt cwd <> workspaceDir ->
  check rt resolvedConfig host cwd None reportStats w = (Ok b, w') ->
  let scope := mkContext (S (nextAddr w)) (cwdOrDefault rt cwd) (Some (nextAddr w)) in
  exists evs,
    trace w' = trace w ++ evs /\
    finishedScopes evs = [scope] /\
    isWorkspaceContext scope = false /\
    packagesChecked w' = 1.
Proof.
  intros Hfind Hcwd Hrun; cbv zeta.
  destruct (check_run_trace _ _ _ _ _ _ _ _ _ _ Hfind Hrun)
    as (reported & Htrace & Hrep & _ & Hcount & _).
  unfold targets in Htrace, Hcount.
  assert (Hne : String.eqb workspaceDir (cwdOrDefault rt cwd) = false)
    by (apply String.eqb_neq; congruence).
  rewrite Hne in Htrace, Hcount; cbn [targetContexts addr] in Htrace.
  eexists; split; [exact Htrace|].
  rewrite finishedScopes_run by exact Hrep.
  split; [reflexivity|]; split; [|rewrite Hcount; reflexivity].
  unfold isWorkspaceContext, getWorkspaceContext; cbn [parent addr].
  apply Nat.eqb_neq; lia.
Qed.

Lemma single_package_run_witness :
  exists evs,
    trace (snd (check Scenario.rt (Scenario.config Scenario.passes Scenario.fails)
                  Scenario.host (Some Scenario.pkgYDir) None None Scenario.start)) =
      trace Scenario.start ++ evs /\
    finishedScopes evs = [mkContext 1 Scenario.pkgYDir (Some 0%nat)] /\
    isWorkspaceContext (mkContext 1 Scenario.pkgYDir (Some 0%nat)) = false /\
    packagesChecked (snd (check Scenario.rt (Scenario.config Scenario.passes Scenario.fails)
                            Scenario.host (Some Scenario.pkgYDir) None None
                            Scenario.start)) = 1.
Proof.
  apply (single_package_run Scenario.rt (Scenario.config Scenario.passes Scenario.fails)
           Scenario.host (Some Scenario.pkgYDir) None "/ws" Scenario.start _ false).
  - reflexivity.
  - discriminate.
  - vm_compute; reflexivity.
Defined.

(** ** No target at all *)



(** ** Invariants of the scope phase *)

Section PreservesIn.

Variable onlyOk : bool.
Variable R : World -> World -> Prop.
Hypothesis R_refl : forall w, R w w.
Hypothesis R_trans : forall w1 w2 w3, R w1 w2 -> R w2 w3 -> R w1 w3.

Lemma preservesIn_ret {A : Type} (a : A) : preservesIn onlyOk R (ret a).
Proof. intros w _; apply R_refl. Qed.

Lemma preservesIn_bind {A B : Type} (m : M A) (k : A -> M B) :
  preservesIn onlyOk R m -> (forall a, preservesIn onlyOk R (k a)) ->
  preservesIn onlyOk R (bind m k).
Proof.
  intros Hm Hk w; unfold bind.
  specialize (Hm w).
  destruct (m w) as [[a|e] w1]; cbn [fst snd] in *; intros Hok.
  - eapply R_trans; [apply Hm; intros _; exists a; reflexivity | apply Hk, Hok].
  - apply Hm; intros H; destruct (Hok H) as (b & Hb); discriminate.
Qed.

Lemma preservesIn_forEach {A : Type} (l : list A) (body : A -> M unit) :
  (forall x, preservesIn onlyOk R (body x)) -> preservesIn onlyOk R (forEach l body).
Proof.
  intros Hbody; induction l as [|x l IH]; cbn [forEach].
  - apply preservesIn_ret.
  - apply preservesIn_bind; [apply Hbody | intros _; exact IH].
Qed.

(** A computation that always returns and is known to keep [R]. *)
Lemma preservesIn_always {A : Type} (m : M A) :
  (forall w, R w (snd (m w))) -> preservesIn onlyOk R m.
Proof. intros Hm w _; apply Hm. Qed.

Variable rt : Runtime.
Variable host : Host.
Variable resolvedConfig : ResolvedConfig.

Hypothesis R_iteration : forall c r, preservesIn onlyOk R (ruleIteration rt host c r).

(** [R] does not look at the contexts, the count of packages, the glob
    collaborator's calls or the output. *)
Hypothesis R_frame : forall w w',
  perRule w' = perRule w -> includesCost w' = includesCost w ->
  excludesCost w' = excludesCost w -> clockReads w' = clockReads w -> R w w'.

Lemma checkPackage_preservesIn (c : Context) :
  preservesIn onlyOk R (checkPackage rt host resolvedConfig c).
Proof.
  unfold checkPackage.
  apply preservesIn_bind.
  { apply preservesIn_always; intros w; rewrite announce_run; apply R_frame; reflexivity. }
  intros _; apply preservesIn_bind.
  { apply preservesIn_forEach; intros r; apply R_iteration. }
  intros _; apply preservesIn_always; intros w; rewrite finish_run.
  apply R_frame; reflexivity.
Qed.

Lemma checkTarget_preservesIn (ws : Context) (t : Target) :
  preservesIn onlyOk R (checkTarget rt host resolvedConfig ws t).
Proof.
  destruct t as [|dir]; cbn [checkTarget].
  - unfold checkWorkspaceRoot; apply preservesIn_bind.
    { apply preservesIn_always; intros w; apply R_frame; reflexivity. }
    intros _; apply checkPackage_preservesIn.
  - unfold checkChild; apply preservesIn_bind.
    { apply preservesIn_always; intros w; apply R_frame; reflexivity. }
    intros _; apply preservesIn_bind.
    { apply preservesIn_always; intros w; apply R_frame; reflexivity. }
    intros child; apply checkPackage_preservesIn.
Qed.

Lemma checkScopes_preservesIn (workspaceDir cwd : string) (paths : option (list string))
    (ws : Context) :
  preservesIn onlyOk R (checkScopes rt host resolvedConfig workspaceDir cwd paths ws).
Proof.
  intros w; rewrite checkScopes_targets; revert w.
  apply preservesIn_forEach; intros t; apply checkTarget_preservesIn.
Qed.

End PreservesIn.

(** ** The glob costs over a run *)

Lemma preservesIn_false {A : Type} (R : World -> World -> Prop) (m : M A) :
  preserves R m -> preservesIn false R m.
Proof. intros H w _; apply H. Qed.

Lemma costsGrow_refl (w : World) : costsGrow w w.
Proof. split; lia. Qed.

Lemma costsGrow_trans (w1 w2 w3 : World) :
  costsGrow w1 w2 -> costsGrow w2 w3 -> costsGrow w1 w3.
Proof. intros [A1 A2] [B1 B2]; split; lia. Qed.

Lemma costsGrow_same (w w' : World) :
  includesCost w' = includesCost w -> excludesCost w' = excludesCost w -> costsGrow w w'.
Proof. intros E1 E2; split; lia. Qed.

Ltac costs_prim := intros ?; apply costsGrow_same; reflexivity.

Lemma shouldSkipPackage_costsGrow (rt : Runtime) (host : Host) (c : Context) (r : Rule.t) :
  monotoneClock rt -> preserves costsGrow (shouldSkipPackage rt host c r).
Proof.
  intros Hclock w.
  assert (H01 := Hclock (clockReads w) (S (clockReads w)) ltac:(lia)).
  assert (H23 := Hclock (S (S (clockReads w))) (S (S (S (clockReads w)))) ltac:(lia)).
  unfold shouldSkipPackage, costsGrow.
  destruct (negb (truthy (Rule.includeWorkspaceRoot r)) && isWorkspaceContext c).
  { cbn; lia. }
  destruct (Rule.excludePackages r) as [ex|]; run_prim;
    [destruct (matchesAnyGlob rt (getName host (packageDir c)) ex); run_prim|];
    try lia;
    (destruct (Rule.includePackages r) as [inc|]; run_prim;
     [destruct (matchesAnyGlob rt (getName host (packageDir c)) inc); run_prim|]);
    cbn [negb]; run_prim; lia.
Qed.

Lemma ruleIteration_costsGrow (rt : Runtime) (host : Host) (c : Context) (r : Rule.t) :
  monotoneClock rt -> preserves costsGrow (ruleIteration rt host c r).
Proof.
  intros Hclock; unfold ruleIteration; cbv zeta.
  repeat (apply preserves_bind; [exact costsGrow_trans | | intros ?]);
    try solve [costs_prim]; try (apply shouldSkipPackage_costsGrow; exact Hclock).
  unfold awaitRuleCheck; cbv zeta.
  preserves_steps costsGrow_refl costsGrow_trans; costs_prim.
Qed.

Lemma checkScopes_costsGrow (rt : Runtime) (host : Host) (resolvedConfig : ResolvedConfig)
    (workspaceDir cwd : string) (paths : option (list string)) (ws : Context) :
  monotoneClock rt ->
  preserves costsGrow (checkScopes rt host resolvedConfig workspaceDir cwd paths ws).
Proof.
  intros Hclock w.
  apply (checkScopes_preservesIn false costsGrow costsGrow_refl costsGrow_trans
           rt host resolvedConfig).
  - intros c r; apply preservesIn_false, ruleIteration_costsGrow, Hclock.
  - intros w1 w2 _ E1 E2 _; apply costsGrow_same; assumption.
  - discriminate.
Qed.

Lemma check_costsGrow (rt : Runtime) (resolvedConfig : ResolvedConfig) (host : Host)
    (cwd : option string) (paths : option (list string)) (reportStats : option bool) :
  monotoneClock rt ->
  preserves costsGrow (check rt resolvedConfig host cwd paths reportStats).
Proof.
  intros Hclock.
  unfold check, enterCheck; cbv zeta.
  apply preserves_bind; [exact costsGrow_trans | | intros _].
  { preserves_steps costsGrow_refl costsGrow_trans; costs_prim. }
  apply preserves_bind; [exact costsGrow_trans | costs_prim | intros checkStart].
  destruct (findWorkspaceDir host (cwdOrDefault rt cwd)) as [workspaceDir|];
    [|apply preserves_throw, costsGrow_refl].
  apply preserves_bind; [exact costsGrow_trans | costs_prim | intros ws].
  apply preserves_bind; [exact costsGrow_trans | costs_prim | intros t1].
  apply preserves_bind; [exact costsGrow_trans | | intros _].
  { apply preserves_forEach; [exact costsGrow_refl | exact costsGrow_trans|].
    intros r _; unfold validateOptions.
    preserves_steps costsGrow_refl costsGrow_trans; costs_prim. }
  apply preserves_bind; [exact costsGrow_trans | costs_prim | intros t2].
  apply preserves_bind; [exact costsGrow_trans | costs_prim | intros _].
  apply preserves_bind; [exact costsGrow_trans | costs_prim | intros _].
  apply preserves_bind; [exact costsGrow_trans | | intros _].
  { apply checkScopes_costsGrow, Hclock. }
  apply preserves_bind; [exact costsGrow_trans | costs_prim | intros t3].
  apply preserves_bind; [exact costsGrow_trans | | intros _].
  { destruct (truthy reportStats); [|apply preserves_ret, costsGrow_refl].
    apply (report_preserves costsGrow costsGrow_refl costsGrow_trans).
    intros e _; costs_prim. }
  apply preserves_bind; [exact costsGrow_trans | costs_prim | intros f].
  apply preserves_ret, costsGrow_refl.
Qed.

(** X11.  With a clock that does not go back, a run of [check] that resolves
    has not lowered the process-wide [includesCost] or [excludesCost]: each
    is only ever changed by subtracting a reading and adding a later one
    around a glob match. *)
Theorem glob_costs_grow
    (rt : Runtime) (resolvedConfig : ResolvedConfig) (host : Host)
    (cwd : option string) (paths : option (list string)) (reportStats : option bool)
    (w w' : World) (b : bool) :
  monotoneClock rt ->
  check rt resolvedConfig host cwd paths reportStats w = (Ok b, w') ->
  includesCost w <= includesCost w' /\ excludesCost w <= excludesCost w'.
Proof.
  intros Hclock Hrun.
  assert (H := check_costsGrow rt resolvedConfig host cwd paths reportStats Hclock w).
  rewrite Hrun in H; exact H.
Qed.

Lemma glob_costs_grow_witness :
  let w' := snd (check Scenario.rt
                   (mkConfig [Scenario.ruleNoX; Scenario.ruleU1;
                              Scenario.ruleB Scenario.fails] false)
                   Scenario.host None None (Some true) Scenario.start) in
  includesCost Scenario.start <= includesCost w' /\
  excludesCost Scenario.start <= excludesCost w'.
Proof.
  apply (glob_costs_grow Scenario.rt
           (mkConfig [Scenario.ruleNoX; Scenario.ruleU1;
                      Scenario.ruleB Scenario.fails] false)
           Scenario.host None None (Some true) Scenario.start _ false
           scenario_clock_monotone).
  vm_compute; reflexivity.
Defined.

(** ** The statistics, bucket by bucket *)

Lemma bucketOf_set (k nm : string) (v : Stats.Bucket) (m : Stats.PerRule) :
  bucketOf k (Stats.set nm v m) = if String.eqb nm k then v else bucketOf k m.
Proof. unfold bucketOf; rewrite get_set; destruct (String.eqb nm k); reflexivity. Qed.

(** The statistics and the clock after an iteration that returns. *)
Lemma ruleIteration_ok_stats (rt : Runtime) (host : Host) (c : Context) (r : Rule.t)
    (w w' : World) :
  ruleIteration rt host c r w = (Ok tt, w') ->
  exists n,
    perRule w' =
      Stats.set (Rule.displayName r)
        (addTotalTime (hrtime rt (n + S (clockReads w)))
           (addTotalTime (- hrtime rt (clockReads w))
              (incrExecutions (bucketOf (Rule.displayName r) (perRule w)))))
        (perRule w) /\
    clockReads w' = S (n + S (clockReads w)).
Proof.
  intros Hrun.
  destruct (ruleIteration_run rt host c r w) as (inc & exc & n & calls & E).
  cbn zeta in E; rewrite Hrun in E; exists n.
  destruct (skipDecision rt host c r);
    [|destruct (rejects _); [discriminate|]]; injection E as ->; split; reflexivity.
Qed.

Lemma ruleIteration_executions (rt : Runtime) (host : Host) (c : Context) (r : Rule.t)
    (k : string) (w w' : World) :
  ruleIteration rt host c r w = (Ok tt, w') ->
  executionsOf k w' = executionsOf k w + Z.of_nat (countNamed k [r]).
Proof.
  intros Hrun; apply ruleIteration_ok_stats in Hrun; destruct Hrun as (n & Hstats & _).
  unfold executionsOf, countNamed; rewrite Hstats, bucketOf_set; cbn [filter].
  destruct (String.eqb (Rule.displayName r) k) eqn:E; cbn [List.length Z.of_nat]; [|lia].
  apply String.eqb_eq in E; subst k; cbn; lia.
Qed.

Lemma countNamed_cons (k : string) (r : Rule.t) (l : list Rule.t) :
  countNamed k (r :: l) = (countNamed k [r] + countNamed k l)%nat.
Proof.
  unfold countNamed; cbn [filter].
  destruct (String.eqb (Rule.displayName r) k); reflexivity.
Qed.

Lemma forEach_rules_executions (rt : Runtime) (host : Host) (c : Context) (k : string)
    (rs : list Rule.t) :
  forall w w',
    forEach rs (ruleIteration rt host c) w = (Ok tt, w') ->
    executionsOf k w' = executionsOf k w + Z.of_nat (countNamed k rs).
Proof.
  induction rs as [|r rs IH]; intros w w'; cbn [forEach].
  - intros [= <-]; cbn; lia.
  - unfold bind.
    destruct (ruleIteration rt host c r w) as [[[]|e] w1] eqn:E1; [|discriminate].
    intros Hrest; rewrite (IH _ _ Hrest), (ruleIteration_executions _ _ _ _ k _ _ E1).
    rewrite (countNamed_cons k r rs); lia.
Qed.

Lemma checkPackage_executions (rt : Runtime) (host : Host) (resolvedConfig : ResolvedConfig)
    (c : Context) (k : string) (w w' : World) :
  checkPackage rt host resolvedConfig c w = (Ok tt, w') ->
  executionsOf k w' = executionsOf k w + Z.of_nat (countNamed k (rules resolvedConfig)).
Proof.
  unfold checkPackage; unfold bind at 1; rewrite announce_run; unfold bind at 1.
  match goal with
  | |- context [forEach _ _ ?w0] =>
      destruct (forEach (rules resolvedConfig) (ruleIteration rt host c) w0)
        as [[[]|e] w1] eqn:Erules; [|discriminate]
  end.
  apply (forEach_rules_executions rt host c k) in Erules.
  rewrite finish_run; intros [= <-].
  unfold executionsOf in *; cbn [perRule] in *; exact Erules.
Qed.

Lemma forEach_targets_executions (rt : Runtime) (host : Host)
    (resolvedConfig : ResolvedConfig) (ws : Context) (k : string) (ts : list Target) :
  forall w w',
    forEach ts (checkTarget rt host resolvedConfig ws) w = (Ok tt, w') ->
    executionsOf k w' =
      executionsOf k w
      + Z.of_nat (List.length ts) * Z.of_nat (countNamed k (rules resolvedConfig)).
Proof.
  induction ts as [|t ts IH]; intros w w'; cbn [forEach List.length].
  - intros [= <-]; lia.
  - unfold bind.
    destruct (checkTarget rt host resolvedConfig ws t w) as [[[]|e] w1] eqn:E1;
      [|discriminate].
    intros Hrest; rewrite (IH _ _ Hrest).
    assert (H1 : executionsOf k w1 =
                 executionsOf k w + Z.of_nat (countNamed k (rules resolvedConfig))).
    { destruct t as [|dir]; cbn [checkTarget] in E1.
      - unfold checkWorkspaceRoot in E1; revert E1; run_prim; intros E1.
        apply (checkPackage_executions _ _ _ _ k) in E1; exact E1.
      - unfold checkChild in E1; revert E1; run_prim; intros E1.
        apply (checkPackage_executions _ _ _ _ k) in E1; exact E1. }
    rewrite H1; lia.
Qed.

Lemma wellNamed_set (nm : string) (v : Stats.Bucket) (m : Stats.PerRule) :
  Stats.name v = nm -> wellNamed m -> wellNamed (Stats.set nm v m).
Proof.
  intros Hv Hm k b; rewrite get_set.
  destruct (String.eqb nm k) eqn:E.
  - apply String.eqb_eq in E; subst k; intros [= <-]; exact Hv.
  - apply Hm.
Qed.

Lemma bucketOf_name (nm : string) (m : Stats.PerRule) :
  wellNamed m -> Stats.name (bucketOf nm m) = nm.
Proof.
  intros Hm; unfold bucketOf.
  destruct (Stats.get nm m) as [b|] eqn:G; [apply Hm, G | reflexivity].
Qed.

Lemma checkScopes_wellNamed (rt : Runtime) (host : Host) (resolvedConfig : ResolvedConfig)
    (workspaceDir cwd : string) (paths : option (list string)) (ws : Context)
    (w w' : World) :
  checkScopes rt host resolvedConfig workspaceDir cwd paths ws w = (Ok tt, w') ->
  wellNamed (perRule w) -> wellNamed (perRule w').
Proof.
  intros Hrun.
  assert (H := checkScopes_preservesIn true keepsWellNamed
                 (fun w0 H0 => H0) (fun w1 w2 w3 H12 H23 H1 => H23 (H12 H1))
                 rt host resolvedConfig).
  rewrite (surjective_pairing (checkScopes _ _ _ _ _ _ _ w)) in Hrun.
  injection Hrun as Hok <-.
  apply H.
  - intros c r w0 Hok0; specialize (Hok0 eq_refl); destruct Hok0 as ([] & Hok0).
    intros Hnamed.
    destruct (ruleIteration rt host c r w0) as [res w1] eqn:E; cbn [fst snd] in *; subst res.
    apply ruleIteration_ok_stats in E; destruct E as (n & -> & _).
    apply wellNamed_set; [|exact Hnamed].
    cbn; apply bucketOf_name, Hnamed.
  - intros w1 w2 E _ _ _ Hnamed; rewrite E; exact Hnamed.
  - intros _; exists tt; exact Hok.
Qed.

Lemma existsb_keys (n : string) (m : Stats.PerRule) :
  existsb (String.eqb n) (Stats.keys m) =
  match Stats.get n m with
  | Some _ => true
  | None => false
  end.
Proof.
  induction m as [|[k0 v0] m IH]; cbn [Stats.keys map existsb Stats.get fst]; [reflexivity|].
  rewrite (String.eqb_sym n k0).
  destruct (String.eqb k0 n); cbn [orb]; [reflexivity | exact IH].
Qed.

Lemma keys_set_addKeys (nm : string) (v : Stats.Bucket) (m : Stats.PerRule) :
  Stats.keys (Stats.set nm v m) = addKeys (Stats.keys m) [nm].
Proof.
  rewrite keys_set; unfold addKeys; cbn [fold_left].
  rewrite existsb_keys; destruct (Stats.get nm m); reflexivity.
Qed.

Lemma addKeys_app (ks l1 l2 : list string) :
  addKeys ks (l1 ++ l2) = addKeys (addKeys ks l1) l2.
Proof. unfold addKeys; apply fold_left_app. Qed.

Lemma addKeys_absorb (names : list string) :
  forall ks, (forall n, In n names -> In n ks) -> addKeys ks names = ks.
Proof.
  induction names as [|n names IH]; intros ks Hin; [reflexivity|].
  unfold addKeys; cbn [fold_left].
  assert (E : existsb (String.eqb n) ks = true).
  { apply existsb_exists; exists n; split; [apply Hin; left; reflexivity|].
    apply String.eqb_refl. }
  rewrite E; apply IH; intros n' Hn'; apply Hin; right; exact Hn'.
Qed.

Lemma addKeys_incl (names : list string) :
  forall ks n, In n ks \/ In n names -> In n (addKeys ks names).
Proof.
  induction names as [|n0 names IH]; intros ks n Hn.
  - destruct Hn as [Hn|[]]; exact Hn.
  - unfold addKeys; cbn [fold_left]; apply IH.
    destruct (existsb (String.eqb n0) ks) eqn:E.
    + destruct Hn as [Hn|[<-|Hn]]; auto.
      apply existsb_exists in E; destruct E as (x & Hx & Ex).
      apply String.eqb_eq in Ex; subst x; left; exact Hx.
    + destruct Hn as [Hn|[<-|Hn]]; auto.
      * left; apply in_or_app; left; exact Hn.
      * left; apply in_or_app; right; left; reflexivity.
Qed.

Lemma addKeys_idempotent (ks names : list string) :
  addKeys (addKeys ks names) names = addKeys ks names.
Proof. apply addKeys_absorb; intros n Hn; apply addKeys_incl; right; exact Hn. Qed.

Lemma forEach_rules_keys (rt : Runtime) (host : Host) (c : Context) (rs : list Rule.t) :
  forall w w',
    forEach rs (ruleIteration rt host c) w = (Ok tt, w') ->
    Stats.keys (perRule w') = addKeys (Stats.keys (perRule w)) (map Rule.displayName rs).
Proof.
  induction rs as [|r rs IH]; intros w w'; cbn [forEach map].
  - intros [= <-]; reflexivity.
  - unfold bind.
    destruct (ruleIteration rt host c r w) as [[[]|e] w1] eqn:E1; [|discriminate].
    intros Hrest; rewrite (IH _ _ Hrest).
    apply ruleIteration_ok_stats in E1; destruct E1 as (n & -> & _).
    rewrite keys_set_addKeys.
    change (Rule.displayName r :: map Rule.displayName rs)
      with ([Rule.displayName r] ++ map Rule.displayName rs).
    rewrite addKeys_app; reflexivity.
Qed.

Lemma checkTarget_keys (rt : Runtime) (host : Host) (resolvedConfig : ResolvedConfig)
    (ws : Context) (t : Target) (w w' : World) :
  checkTarget rt host resolvedConfig ws t w = (Ok tt, w') ->
  Stats.keys (perRule w') =
  addKeys (Stats.keys (perRule w)) (map Rule.displayName (rules resolvedConfig)).
Proof.
  assert (Hpkg : forall c w0 w0',
             checkPackage rt host resolvedConfig c w0 = (Ok tt, w0') ->
             Stats.keys (perRule w0') =
             addKeys (Stats.keys (perRule w0)) (map Rule.displayName (rules resolvedConfig))).
  { intros c w0 w0'; unfold checkPackage; unfold bind at 1; rewrite announce_run.
    unfold bind at 1.
    match goal with
    | |- context [forEach _ _ ?w1] =>
        destruct (forEach (rules resolvedConfig) (ruleIteration rt host c) w1)
          as [[[]|e] w2] eqn:Erules; [|discriminate]
    end.
    apply forEach_rules_keys in Erules.
    rewrite finish_run; intros [= <-]; exact Erules. }
  destruct t as [|dir]; cbn [checkTarget].
  - unfold checkWorkspaceRoot; run_prim; intros E; apply Hpkg in E; exact E.
  - unfold checkChild; run_prim; intros E; apply Hpkg in E; exact E.
Qed.

Lemma forEach_targets_keys (rt : Runtime) (host : Host)
    (resolvedConfig : ResolvedConfig) (ws : Context) (ts : list Target) :
  forall w w',
    forEach ts (checkTarget rt host resolvedConfig ws) w = (Ok tt, w') ->
    Stats.keys (perRule w') =
    match ts with
    | [] => Stats.keys (perRule w)
    | _ => addKeys (Stats.keys (perRule w)) (map Rule.displayName (rules resolvedConfig))
    end.
Proof.
  induction ts as [|t ts IH]; intros w w'; cbn [forEach].
  - intros [= <-]; reflexivity.
  - unfold bind.
    destruct (checkTarget rt host resolvedConfig ws t w) as [[[]|e] w1] eqn:E1;
      [|discriminate].
    intros Hrest; rewrite (IH _ _ Hrest).
    apply checkTarget_keys in E1; rewrite E1.
    destruct ts; [reflexivity | apply addKeys_idempotent].
Qed.

Lemma countNamed_In (r : Rule.t) (l : list Rule.t) :
  In r l -> (1 <= countNamed (Rule.displayName r) l)%nat.
Proof.
  intros Hr; unfold countNamed.
  assert (Hin : In r (filter (fun r0 => String.eqb (Rule.displayName r0) (Rule.displayName r)) l))
    by (apply filter_In; split; [exact Hr | apply String.eqb_refl]).
  destruct (filter _ l); [contradiction | cbn; lia].
Qed.

(** X12.  After a run that resolves over [N] targets, the bucket of every
    display name has counted [N] executions for each rule displayed under
    that name, skipped or not; every bucket carries its key as its [name];
    and when at least one target was checked every rule has its bucket. *)
Theorem executions_per_bucket
    (rt : Runtime) (resolvedConfig : ResolvedConfig) (host : Host)
    (cwd : option string) (paths : option (list string)) (reportStats : option bool)
    (workspaceDir : string) (w w' : World) (b : bool) :
  findWorkspaceDir host (cwdOrDefault rt cwd) = Some workspaceDir ->
  check rt resolvedConfig host cwd paths reportStats w = (Ok b, w') ->
  let N := Z.of_nat (List.length (targets rt host workspaceDir (cwdOrDefault rt cwd) paths)) in
  (forall k, executionsOf k w' = N * Z.of_nat (countNamed k (rules resolvedConfig))) /\
  wellNamed (perRule w') /\
  (1 <= N ->
   forall r, In r (rules resolvedConfig) ->
     exists data,
       Stats.get (Rule.displayName r) (perRule w') = Some data /\
       Stats.name data = Rule.displayName r /\
       Stats.executions data =
         N * Z.of_nat (countNamed (Rule.displayName r) (rules resolvedConfig))).
Proof.
  intros Hfind Hrun; cbv zeta.
  destruct (check_ok_phases _ _ _ _ _ _ _ _ _ _ Hfind Hrun)
    as (_ & w3 & Hscopes & Hw' & _).
  assert (Hstats : perRule w' = perRule w3)
    by (destruct (truthy reportStats); subst w'; reflexivity).
  assert (Hnamed : wellNamed (perRule w')).
  { rewrite Hstats; apply (checkScopes_wellNamed _ _ _ _ _ _ _ _ _ Hscopes).
    intros k data; cbn; discriminate. }
  assert (Hexec : forall k,
             executionsOf k w' =
             Z.of_nat (List.length (targets rt host workspaceDir (cwdOrDefault rt cwd) paths))
             * Z.of_nat (countNamed k (rules resolvedConfig))).
  { intros k; rewrite checkScopes_targets in Hscopes.
    apply (forEach_targets_executions _ _ _ _ k) in Hscopes.
    unfold executionsOf in *; rewrite Hstats, Hscopes; cbn; lia. }
  split; [exact Hexec|]; split; [exact Hnamed|].
  intros HN r Hr.
  specialize (Hexec (Rule.displayName r)).
  assert (Hcount := countNamed_In r (rules resolvedConfig) Hr).
  unfold executionsOf, bucketOf in Hexec.
  destruct (Stats.get (Rule.displayName r) (perRule w')) as [data|] eqn:G.
  - exists data; split; [reflexivity|]; split; [apply Hnamed, G | exact Hexec].
  - cbn in Hexec; nia.
Qed.

Lemma executions_per_bucket_witness :
  let w' := snd (check Scenario.rt
                   (mkConfig [Scenario.ruleNoX; Scenario.ruleA Scenario.passes;
                              Scenario.ruleU2] false)
                   Scenario.host None None None Scenario.start) in
  executionsOf "unknown" w' = 3 * 2 /\ executionsOf "ruleA" w' = 3 * 1.
Proof.
  destruct (executions_per_bucket Scenario.rt
              (mkConfig [Scenario.ruleNoX; Scenario.ruleA Scenario.passes;
                         Scenario.ruleU2] false)
              Scenario.host None None None "/ws" Scenario.start
              (snd (check Scenario.rt
                      (mkConfig [Scenario.ruleNoX; Scenario.ruleA Scenario.passes;
                                 Scenario.ruleU2] false)
                      Scenario.host None None None Scenario.start))
              true eq_refl)
    as (Hexec & _).
  - vm_compute; reflexivity.
  - split; [apply (Hexec "unknown") | apply (Hexec "ruleA")].
Defined.

(** X13.  After a run that resolves and checked at least one target, the
    keys of the statistics map are the display names of the rules, each
    once, in the order in which they first appear in the config; with no
    target the map is empty. *)
Theorem buckets_in_config_order
    (rt : Runtime) (resolvedConfig : ResolvedConfig) (host : Host)
    (cwd : option string) (paths : option (list string)) (reportStats : option bool)
    (workspaceDir : string) (w w' : World) (b : bool) :
  findWorkspaceDir host (cwdOrDefault rt cwd) = Some workspaceDir ->
  check rt resolvedConfig host cwd paths reportStats w = (Ok b, w') ->
  Stats.keys (perRule w') =
  match targets rt host workspaceDir (cwdOrDefault rt cwd) paths with
  | [] => []
  | _ => fold_left (fun acc n => if existsb (String.eqb n) acc then acc else acc ++ [n])
           (map Rule.displayName (rules resolvedConfig)) []
  end.
Proof.
  intros Hfind Hrun.
  destruct (check_ok_phases _ _ _ _ _ _ _ _ _ _ Hfind Hrun)
    as (_ & w3 & Hscopes & Hw' & _).
  assert (Hstats : perRule w' = perRule w3)
    by (destruct (truthy reportStats); subst w'; reflexivity).
  rewrite checkScopes_targets in Hscopes.
  apply forEach_targets_keys in Hscopes.
  rewrite Hstats, Hscopes; reflexivity.
Qed.

Lemma buckets_in_config_order_witness :
  Stats.keys (perRule (snd (check Scenario.rt
                              (mkConfig [Scenario.ruleB Scenario.passes; Scenario.ruleNoX;
                                         Scenario.ruleA Scenario.passes; Scenario.ruleU2;
                                         Scenario.ruleB Scenario.fails] false)
                              Scenario.host None None None Scenario.start))) =
  ["ruleB"; "unknown"; "ruleA"].
Proof.
  apply (buckets_in_config_order Scenario.rt
           (mkConfig [Scenario.ruleB Scenario.passes; Scenario.ruleNoX;
                      Scenario.ruleA Scenario.passes; Scenario.ruleU2;
                      Scenario.ruleB Scenario.fails] false)
           Scenario.host None None None "/ws" Scenario.start _ false).
  - reflexivity.
  - vm_compute; reflexivity.
Defined.

(** ** The time charged to the rules *)

Lemma sumTotalTime_set (k : string) (v : Stats.Bucket) (m : Stats.PerRule) :
  sumTotalTime (Stats.set k v m) =
  sumTotalTime m + Stats.totalTime v - Stats.totalTime (bucketOf k m).
Proof.
  unfold bucketOf.
  induction m as [|[k0 v0] m IH]; cbn [Stats.set Stats.get sumTotalTime fold_right snd].
  - cbn; lia.
  - destruct (String.eqb k0 k) eqn:E0; cbn [sumTotalTime fold_right snd].
    + lia.
    + fold (sumTotalTime (Stats.set k v m)); fold (sumTotalTime m); rewrite IH.
      destruct (Stats.get k m); cbn; lia.
Qed.

Lemma noNegativeTime_set (nm : string) (v : Stats.Bucket) (m : Stats.PerRule) :
  0 <= Stats.totalTime v -> noNegativeTime m -> noNegativeTime (Stats.set nm v m).
Proof.
  intros Hv Hm k b; rewrite get_set.
  destruct (String.eqb nm k); [intros [= <-]; exact Hv | apply Hm].
Qed.

Lemma bucketOf_noNegative (nm : string) (m : Stats.PerRule) :
  noNegativeTime m -> 0 <= Stats.totalTime (bucketOf nm m).
Proof.
  intros Hm; unfold bucketOf.
  destruct (Stats.get nm m) as [b|] eqn:G; [apply (Hm _ _ G) | cbn; lia].
Qed.

Lemma checkScopes_time (rt : Runtime) (host : Host) (resolvedConfig : ResolvedConfig)
    (workspaceDir cwd : string) (paths : option (list string)) (ws : Context)
    (w w' : World) :
  monotoneClock rt ->
  checkScopes rt host resolvedConfig workspaceDir cwd paths ws w = (Ok tt, w') ->
  keepsNoNegative w w' /\ timeWithinClock rt w w'.
Proof.
  intros Hclock Hrun.
  rewrite (surjective_pairing (checkScopes _ _ _ _ _ _ _ w)) in Hrun.
  injection Hrun as Hok <-.
  assert (Hiter : forall c r w0 w1,
             ruleIteration rt host c r w0 = (Ok tt, w1) ->
             keepsNoNegative w0 w1 /\ timeWithinClock rt w0 w1).
  { intros c r w0 w1 E.
    apply ruleIteration_ok_stats in E; destruct E as (n & Hstats & Hreads).
    assert (H1 := Hclock (clockReads w0) (n + S (clockReads w0))%nat ltac:(lia)).
    assert (H2 := Hclock (n + S (clockReads w0))%nat (S (n + S (clockReads w0))) ltac:(lia)).
    split.
    - intros Hneg; rewrite Hstats; apply noNegativeTime_set; [|exact Hneg].
      assert (H0 := bucketOf_noNegative (Rule.displayName r) _ Hneg); cbn; lia.
    - unfold timeWithinClock; rewrite Hstats, Hreads, sumTotalTime_set; cbn; split; lia. }
  split.
  - apply (checkScopes_preservesIn true keepsNoNegative
             (fun w0 H0 => H0) (fun w1 w2 w3 H12 H23 H1 => H23 (H12 H1))
             rt host resolvedConfig).
    + intros c r w0 Hok0; specialize (Hok0 eq_refl); destruct Hok0 as ([] & Hok0).
      destruct (ruleIteration rt host c r w0) as [res w1] eqn:E; cbn [fst snd] in *.
      subst res; apply (Hiter _ _ _ _ E).
    + intros w1 w2 E _ _ _ Hneg; rewrite E; exact Hneg.
    + intros _; exists tt; exact Hok.
  - apply (checkScopes_preservesIn true (timeWithinClock rt)) with (host := host)
      (resolvedConfig := resolvedConfig).
    + intros w0; split; lia.
    + intros w1 w2 w3 [A1 A2] [B1 B2]; split; lia.
    + intros c r w0 Hok0; specialize (Hok0 eq_refl); destruct Hok0 as ([] & Hok0).
      destruct (ruleIteration rt host c r w0) as [res w1] eqn:E; cbn [fst snd] in *.
      subst res; apply (Hiter _ _ _ _ E).
    + intros w1 w2 E _ _ Ec; unfold timeWithinClock; rewrite E, Ec; split; lia.
    + intros _; exists tt; exact Hok.
Qed.

(** X14.  With a clock that does not go back, after a run that resolves no
    bucket holds a negative [totalTime], and the [totalTime] of all buckets
    together is at most the time between the first reading of the run
    ([checkStart]) and its last ([checkEnd]): the footer sum of the
    "Duration" column never exceeds "Total check() time". *)
Theorem totalTime_within_run
    (rt : Runtime) (resolvedConfig : ResolvedConfig) (host : Host)
    (cwd : option string) (paths : option (list string)) (reportStats : option bool)
    (workspaceDir : string) (w w' : World) (b : bool) :
  monotoneClock rt ->
  findWorkspaceDir host (cwdOrDefault rt cwd) = Some workspaceDir ->
  check rt resolvedConfig host cwd paths reportStats w = (Ok b, w') ->
  let checkStart := hrtime rt (clockReads w) in
  let checkEnd := hrtime rt (pred (clockReads w')) in
  (forall k data, Stats.get k (perRule w') = Some data -> 0 <= Stats.totalTime data) /\
  sumTotalTime (perRule w') <= checkEnd - checkStart.
Proof.
  intros Hclock Hfind Hrun; cbv zeta.
  destruct (check_ok_phases _ _ _ _ _ _ _ _ _ _ Hfind Hrun)
    as (_ & w3 & Hscopes & Hw' & _).
  assert (Hstats : perRule w' = perRule w3 /\ clockReads w' = S (clockReads w3))
    by (destruct (truthy reportStats); subst w'; split; reflexivity).
  destruct Hstats as [-> ->]; cbn [pred].
  destruct (checkScopes_time _ _ _ _ _ _ _ _ _ Hclock Hscopes) as [Hneg [Hle Hsum]].
  cbn [perRule clockReads scopeStart] in Hneg, Hle, Hsum.
  split.
  - apply Hneg; intros k data; cbn; discriminate.
  - assert (H := Hclock (clockReads w) (S (S (S (clockReads w)))) ltac:(lia)).
    cbn [sumTotalTime fold_right] in Hsum; lia.
Qed.

Lemma totalTime_within_run_witness :
  let w' := snd (check Scenario.rt (Scenario.config Scenario.passes Scenario.fails)
                   Scenario.host None None (Some true) Scenario.start) in
  (forall k data, Stats.get k (perRule w') = Some data -> 0 <= Stats.totalTime data) /\
  sumTotalTime (perRule w') <=
    hrtime Scenario.rt (pred (clockReads w')) - hrtime Scenario.rt (clockReads Scenario.start).
Proof.
  apply (totalTime_within_run Scenario.rt (Scenario.config Scenario.passes Scenario.fails)
           Scenario.host None None (Some true) "/ws" Scenario.start _ false
           scenario_clock_monotone eq_refl).
  vm_compute; reflexivity.
Defined.

(** ** A run that resolves; a run that is aborted *)

Lemma check_resolves_witness :
  exists b w',
    check Scenario.rt (mkConfig [Scenario.ruleNoX; Scenario.ruleU1; Scenario.ruleU2] true)
      Scenario.host None None (Some true) Scenario.start = (Ok b, w').
Proof.
  apply (check_resolves Scenario.rt
           (mkConfig [Scenario.ruleNoX; Scenario.ruleU1; Scenario.ruleU2] true)
           Scenario.host None None (Some true) "/ws" Scenario.start).
  - reflexivity.
  - reflexivity.
  - intros r Hr c seen.
    destruct Hr as [<-|[<-|[<-|[]]]]; reflexivity.
Defined.

(** X15.  After a run that resolves, with or without a report, every bucket
    of the statistics has counted at least one execution: the division of
    [totalTime] by [executions] of line 106 finds no zero divisor in any of
    them and yields the truncated quotient. *)
Theorem executions_at_least_one
    (rt : Runtime) (resolvedConfig : ResolvedConfig) (host : Host)
    (cwd : option string) (paths : option (list string)) (reportStats : option bool)
    (workspaceDir : string) (w w' : World) (b : bool) :
  findWorkspaceDir host (cwdOrDefault rt cwd) = Some workspaceDir ->
  check rt resolvedConfig host cwd paths reportStats w = (Ok b, w') ->
  forall k data,
    Stats.get k (perRule w') = Some data ->
    1 <= Stats.executions data /\
    forall w0,
      bigintDiv (Stats.totalTime data) (Stats.executions data) w0 =
      (Ok (Z.quot (Stats.totalTime data) (Stats.executions data)), w0).
Proof.
  intros Hfind Hrun k data G.
  destruct (check_ok_phases _ _ _ _ _ _ _ _ _ _ Hfind Hrun)
    as (_ & w3 & Hscopes & Hw' & _).
  assert (Hstats : perRule w' = perRule w3)
    by (destruct (truthy reportStats); subst w'; reflexivity).
  assert (Hcounted := checkScopes_keepsCounted rt host resolvedConfig workspaceDir
                        (cwdOrDefault rt cwd) paths
                        (mkContext (nextAddr w) workspaceDir None)
                        (scopeStart resolvedConfig w) (Forall_nil _)).
  rewrite Hscopes in Hcounted; cbn [snd] in Hcounted.
  rewrite <- Hstats in Hcounted.
  destruct (get_In _ _ _ G) as (k' & Hin).
  unfold allCounted in Hcounted; rewrite Forall_forall in Hcounted.
  specialize (Hcounted _ Hin); cbn [snd] in Hcounted.
  split; [lia|].
  intros w0; unfold bigintDiv.
  destruct (Stats.executions data =? 0) eqn:E; [apply Z.eqb_eq in E; lia | reflexivity].
Qed.

Lemma executions_at_least_one_witness :
  let w' := snd (check Scenario.rt
                   (mkConfig [Scenario.ruleNoX; Scenario.ruleA Scenario.passes;
                              Scenario.ruleB Scenario.fails] false)
                   Scenario.host None None None Scenario.start) in
  let data := bucketOf "ruleA" (perRule w') in
  1 <= Stats.executions data /\
  bigintDiv (Stats.totalTime data) (Stats.executions data) Scenario.start =
  (Ok (Z.quot (Stats.totalTime data) (Stats.executions data)), Scenario.start).
Proof.
  destruct (executions_at_least_one Scenario.rt
              (mkConfig [Scenario.ruleNoX; Scenario.ruleA Scenario.passes;
                         Scenario.ruleB Scenario.fails] false)
              Scenario.host None None None "/ws" Scenario.start
              (snd (check Scenario.rt
                      (mkConfig [Scenario.ruleNoX; Scenario.ruleA Scenario.passes;
                                 Scenario.ruleB Scenario.fails] false)
                      Scenario.host None None None Scenario.start))
              false eq_refl)
    with (k := "ruleA")
         (data := bucketOf "ruleA"
                    (perRule (snd (check Scenario.rt
                                     (mkConfig [Scenario.ruleNoX; Scenario.ruleA Scenario.passes;
                                                Scenario.ruleB Scenario.fails] false)
                                     Scenario.host None None None Scenario.start))))
    as (Hone & Hdiv).
  - vm_compute; reflexivity.
  - vm_compute; reflexivity.
  - split; [exact Hone | exact (Hdiv Scenario.start)].
Defined.

(** A [checkPackage] in which the first check that is not skipped after
    well-behaved rules rejects. *)
Lemma checkPackage_throws (rt : Runtime) (host : Host) (resolvedConfig : ResolvedConfig)
    (c : Context) (pre post : list Rule.t) (r : Rule.t) (w : World) :
  rules resolvedConfig = pre ++ r :: post ->
  (forall r0, In r0 pre -> neverRejects r0) ->
  skipDecision rt host c r = false ->
  (forall seen, rejects (Rule.check r c seen (Rule.options r)) = true) ->
  exists w',
    checkPackage rt host resolvedConfig c w = (Throw "rule check rejected", w') /\
    trace w' =
      trace w ++ announceEvents host resolvedConfig c
        ++ flat_map (ruleEvents rt host c) pre
        ++ [EvCheckStart c (Rule.id r)] /\
    nextAddr w' = nextAddr w /\
    packagesChecked w' = packagesChecked w.
Proof.
  intros Hrules Hpre Hskip Hrej.
  unfold checkPackage; rewrite Hrules.
  unfold bind at 1; rewrite announce_run.
  unfold bind at 1; rewrite forEach_app; unfold bind at 1.
  match goal with
  | |- context [forEach pre ?body ?w0] =>
      destruct (returns_forEach pre body
                  (fun r0 Hr0 => ruleIteration_returns rt host c r0 (Hpre r0 Hr0)) w0)
        as ([] & Hok);
      destruct (forEach pre body w0) as [res w1] eqn:Epre
  end.
  cbn [fst] in Hok; subst res.
  apply forEach_rulesRan in Epre.
  destruct Epre as (N1 & P1 & T1 & _).
  cbn [nextAddr packagesChecked trace] in N1, P1, T1.
  cbn [forEach]; unfold bind at 1.
  destruct (ruleIteration_run rt host c r w1) as (inc & exc & n & calls & E).
  cbn zeta in E; rewrite Hskip, Hrej in E; rewrite E.
  eexists; split; [reflexivity|].
  cbn [trace nextAddr packagesChecked]; rewrite T1, N1, P1, <- !app_assoc.
  repeat split.
Qed.

(** X16.  When, on the first target of a run, the check of a rule rejects
    (the rules in front of it never rejecting), [check] rejects with it:
    [finish()] is called on no scope, no further target is checked,
    [packagesChecked] stays at one and nothing of the report is printed,
    whatever [reportStats] says. *)
Theorem rejecting_check_aborts_run
    (rt : Runtime) (resolvedConfig : ResolvedConfig) (host : Host)
    (cwd : option string) (paths : option (list string)) (reportStats : option bool)
    (workspaceDir : string) (w : World)
    (t : Target) (ts : list Target) (pre post : list Rule.t) (r : Rule.t) :
  findWorkspaceDir host (cwdOrDefault rt cwd) = Some workspaceDir ->
  forallb optionsValid (rules resolvedConfig) = true ->
  targets rt host workspaceDir (cwdOrDefault rt cwd) paths = t :: ts ->
  let scope :=
    match t with
    | TRoot => mkContext (nextAddr w) workspaceDir None
    | TPackage dir => mkContext (S (nextAddr w)) dir (Some (nextAddr w))
    end in
  rules resolvedConfig = pre ++ r :: post ->
  (forall r0, In r0 pre -> neverRejects r0) ->
  skipDecision rt host scope r = false ->
  (forall seen, rejects (Rule.check r scope seen (Rule.options r)) = true) ->
  exists w',
    check rt resolvedConfig host cwd paths reportStats w =
      (Throw "rule check rejected", w') /\
    trace w' =
      trace w
        ++ validateEvents (rules resolvedConfig)
        ++ announceEvents host resolvedConfig scope
        ++ flat_map (ruleEvents rt host scope) pre
        ++ [EvCheckStart scope (Rule.id r)] /\
    packagesChecked w' = 1.
Proof.
  intros Hfind Hvalid Htargets scope Hrules Hpre Hskip Hrej.
  rewrite (check_found _ _ _ _ _ _ _ _ Hfind), Hvalid.
  unfold bind at 1 2 3; unfold now at 1, setPackagesChecked, setPerRule, afterValidation.
  cbn [failed nextAddr perRule packagesChecked includesCost excludesCost
       clockReads globCalls trace fst snd].
  rewrite (validatedRules_all _ Hvalid).
  unfold bind at 1; rewrite checkScopes_targets, Htargets.
  cbn [forEach]; unfold bind at 1.
  destruct t as [|dir]; cbn [checkTarget].
  - unfold checkWorkspaceRoot; run_prim.
    match goal with
    | |- context [checkPackage rt host resolvedConfig ?c ?w0] =>
        destruct (checkPackage_throws rt host resolvedConfig c pre post r w0
                    Hrules Hpre Hskip Hrej) as (w1 & E & T1 & _ & P1)
    end.
    rewrite E; exists w1; split; [reflexivity|].
    cbn [trace packagesChecked] in T1, P1; rewrite T1, P1, <- !app_assoc.
    split; reflexivity.
  - unfold checkChild; run_prim.
    match goal with
    | |- context [checkPackage rt host resolvedConfig ?c ?w0] =>
        destruct (checkPackage_throws rt host resolvedConfig c pre post r w0
                    Hrules Hpre Hskip Hrej) as (w1 & E & T1 & _ & P1)
    end.
    rewrite E; exists w1; split; [reflexivity|].
    cbn [trace packagesChecked] in T1, P1; rewrite T1, P1, <- !app_assoc.
    split; reflexivity.
Qed.

Lemma rejecting_check_aborts_run_witness :
  exists w',
    check Scenario.rt (mkConfig [Scenario.ruleA Scenario.fails; Scenario.ruleCrash;
                                 Scenario.ruleU2] false)
      Scenario.host None None (Some true) Scenario.start =
      (Throw "rule check rejected", w') /\
    trace w' =
      [EvValidate "ruleA"; EvValidate "crash"; EvValidate "u2";
       EvCheckStart Scenario.rootContext "crash"] /\
    packagesChecked w' = 1.
Proof.
  apply (rejecting_check_aborts_run Scenario.rt
           (mkConfig [Scenario.ruleA Scenario.fails; Scenario.ruleCrash; Scenario.ruleU2] false)
           Scenario.host None None (Some true) "/ws" Scenario.start
           TRoot (map TPackage [Scenario.pkgXDir; Scenario.pkgYDir])
           [Scenario.ruleA Scenario.fails] [Scenario.ruleU2] Scenario.ruleCrash).
  - reflexivity.
  - reflexivity.
  - reflexivity.
  - reflexivity.
  - intros r0 [<-|[]] c seen; reflexivity.
  - reflexivity.
  - intros seen; reflexivity.
Defined.

(** ** Statistics of a run *)

Lemma targets_length (rt : Runtime) (host : Host) (workspaceDir cwd : string)
    (paths : option (list string)) :
  List.length (targets rt host workspaceDir cwd paths) =
  List.length (targetDirs rt host workspaceDir cwd paths).
Proof.
  unfold targets, targetDirs; destruct paths as [paths|].
  - rewrite !length_map; reflexivity.
  - destruct (String.eqb workspaceDir cwd); cbn [List.length]; [|reflexivity].
    rewrite length_map; reflexivity.
Qed.

(** C7.  After a run that resolves, over [N] target scopes with [M] rules,
    the statistics map has at most [M] entries, no key twice, and every key
    is the [name] of a rule or ["unknown"] for a rule without one.  Rules
    that share a name, and all the rules without one, share a bucket: the
    bucket stored under a key carries that key as its [name] and has counted
    [N] executions for each rule under that key.  The [executions] counters
    add up to [N * M]: a skipped rule is counted like any other.  When at
    least one scope was checked, a rule with a name has the bucket keyed by
    that name and a rule without one has the bucket ["unknown"]. *)
Theorem stats_after_run
    (rt : Runtime) (resolvedConfig : ResolvedConfig) (host : Host)
    (cwd : option string) (paths : option (list string)) (reportStats : option bool)
    (workspaceDir : string) (w w' : World) (b : bool) :
  findWorkspaceDir host (cwdOrDefault rt cwd) = Some workspaceDir ->
  check rt resolvedConfig host cwd paths reportStats w = (Ok b, w') ->
  let N := List.length (targetDirs rt host workspaceDir (cwdOrDefault rt cwd) paths) in
  let M := List.length (rules resolvedConfig) in
  let key := fun r => match Rule.name r with Some n => n | None => "unknown" end in
  (Stats.size (perRule w') <= M)%nat /\
  NoDup (Stats.keys (perRule w')) /\
  incl (Stats.keys (perRule w')) (map key (rules resolvedConfig)) /\
  Stats.sumExecutions (perRule w') = Z.of_nat N * Z.of_nat M /\
  packagesChecked w' = Z.of_nat N /\
  (forall k data, Stats.get k (perRule w') = Some data ->
     Stats.name data = k /\
     Stats.executions data =
       Z.of_nat N
       * Z.of_nat (List.length (filter (fun r => String.eqb (key r) k)
                                  (rules resolvedConfig)))) /\
  ((1 <= N)%nat ->
   (forall r n, In r (rules resolvedConfig) -> Rule.name r = Some n ->
      exists data, Stats.get n (perRule w') = Some data) /\
   (forall r, In r (rules resolvedConfig) -> Rule.name r = None ->
      exists data, Stats.get "unknown" (perRule w') = Some data)).
Proof.
  intros Hfind Hrun.
  destruct (check_ok _ _ _ _ _ _ _ _ _ _ Hfind Hrun)
    as (_ & w3 & Hscopes & (_ & _ & U3 & U4) & _ & _).
  destruct Hscopes as (_ & _ & _ & _ & Hcount & Hsum & Hnodup & Hincl & _).
  cbn [perRule packagesChecked scopeStart Stats.sumExecutions fold_right Stats.keys map]
    in Hcount, Hsum, Hnodup, Hincl.
  assert (ND : NoDup (Stats.keys (perRule w')))
    by (rewrite U3; apply Hnodup; constructor).
  assert (Hin : incl (Stats.keys (perRule w')) (map Rule.displayName (rules resolvedConfig))).
  { rewrite U3; apply Hincl; [intros x []|].
    intros r Hr; apply in_map; exact Hr. }
  destruct (check_ok_phases _ _ _ _ _ _ _ _ _ _ Hfind Hrun)
    as (_ & w4 & Hphase & Hw' & _).
  assert (Hstats : perRule w' = perRule w4)
    by (destruct (truthy reportStats); subst w'; reflexivity).
  assert (Hnamed : wellNamed (perRule w')).
  { rewrite Hstats; apply (checkScopes_wellNamed _ _ _ _ _ _ _ _ _ Hphase).
    intros k data; cbn; discriminate. }
  assert (Hexec : forall k,
             executionsOf k w' =
             Z.of_nat (List.length (targetDirs rt host workspaceDir (cwdOrDefault rt cwd) paths))
             * Z.of_nat (countNamed k (rules resolvedConfig))).
  { intros k; rewrite checkScopes_targets in Hphase.
    apply (forEach_targets_executions _ _ _ _ k) in Hphase.
    rewrite <- targets_length.
    unfold executionsOf in *; rewrite Hstats, Hphase; cbn; lia. }
  assert (Hbucket : forall r, (1 <= List.length (targetDirs rt host workspaceDir
                                                  (cwdOrDefault rt cwd) paths))%nat ->
             In r (rules resolvedConfig) ->
             exists data, Stats.get (Rule.displayName r) (perRule w') = Some data).
  { intros r HN Hr.
    specialize (Hexec (Rule.displayName r)).
    assert (Hc := countNamed_In r (rules resolvedConfig) Hr).
    unfold executionsOf, bucketOf in Hexec.
    destruct (Stats.get (Rule.displayName r) (perRule w')) as [data|] eqn:G.
    - exists data; reflexivity.
    - cbn in Hexec; nia. }
  cbv zeta.
  split.
  { unfold Stats.size.
    rewrite <- (length_map fst (perRule w')),
            <- (length_map Rule.displayName (rules resolvedConfig)).
    apply NoDup_incl_length; assumption. }
  split; [exact ND|].
  split; [exact Hin|].
  split; [rewrite U3, Hsum; lia|].
  split; [rewrite U4, Hcount; lia|].
  split.
  { intros k data G; split; [apply Hnamed, G|].
    specialize (Hexec k); unfold executionsOf, bucketOf in Hexec.
    rewrite G in Hexec; exact Hexec. }
  intros HN; split.
  - intros r n Hr Hn.
    destruct (Hbucket r HN Hr) as (data & G).
    unfold Rule.displayName in G; rewrite Hn in G.
    exists data; exact G.
  - intros r Hr Hn.
    destruct (Hbucket r HN Hr) as (data & G).
    unfold Rule.displayName in G; rewrite Hn in G.
    exists data; exact G.
Qed.

Lemma stats_after_run_witness :
  let w' := snd (check Scenario.rt
                   (mkConfig [Scenario.ruleNoX; Scenario.ruleA Scenario.passes;
                              Scenario.ruleU2; Scenario.ruleB Scenario.fails;
                              Scenario.ruleA Scenario.fails] false)
                   Scenario.host None None None Scenario.start) in
  (Stats.size (perRule w') <= 5)%nat /\
  NoDup (Stats.keys (perRule w')) /\
  incl (Stats.keys (perRule w')) ["unknown"; "ruleA"; "unknown"; "ruleB"; "ruleA"] /\
  Stats.sumExecutions (perRule w') = 3 * 5 /\
  packagesChecked w' = 3 /\
  (exists data, Stats.get "ruleA" (perRule w') = Some data /\
                Stats.name data = "ruleA" /\ Stats.executions data = 3 * 2) /\
  (exists data, Stats.get "ruleB" (perRule w') = Some data /\
                Stats.name data = "ruleB" /\ Stats.executions data = 3 * 1) /\
  (exists data, Stats.get "unknown" (perRule w') = Some data /\
                Stats.name data = "unknown" /\ Stats.executions data = 3 * 2).
Proof.
  destruct (stats_after_run Scenario.rt
              (mkConfig [Scenario.ruleNoX; Scenario.ruleA Scenario.passes;
                         Scenario.ruleU2; Scenario.ruleB Scenario.fails;
                         Scenario.ruleA Scenario.fails] false)
              Scenario.host None None None "/ws" Scenario.start
              (snd (check Scenario.rt
                      (mkConfig [Scenario.ruleNoX; Scenario.ruleA Scenario.passes;
                                 Scenario.ruleU2; Scenario.ruleB Scenario.fails;
                                 Scenario.ruleA Scenario.fails] false)
                      Scenario.host None None None Scenario.start))
              false eq_refl)
    as (Hsize & Hnodup & Hincl & Hsum & Hcount & Hdata & Hbuckets).
  - vm_compute; reflexivity.
  - destruct Hbuckets as (Hnamed & Hunnamed); [vm_compute; lia|].
    split; [exact Hsize|]; split; [exact Hnodup|]; split; [exact Hincl|].
    split; [exact Hsum|]; split; [exact Hcount|].
    split; [|split].
    + destruct (Hnamed (Scenario.ruleA Scenario.passes) "ruleA") as (data & G);
        [cbn; tauto | reflexivity |].
      exists data; split; [exact G | exact (Hdata _ _ G)].
    + destruct (Hnamed (Scenario.ruleB Scenario.fails) "ruleB") as (data & G);
        [cbn; tauto | reflexivity |].
      exists data; split; [exact G | exact (Hdata _ _ G)].
    + destruct (Hunnamed Scenario.ruleU2) as (data & G);
        [cbn; tauto | reflexivity |].
      exists data; split; [exact G | exact (Hdata _ _ G)].
Defined.
